(** * Github_Repo_Chatbot: ingestion-and-retrieval pipeline

    A shallow embedding of the Python sources under [app/]:
    [chunker.py], [embedder.py], [vector_store.py] and the pure and
    node-level functions of [agent.py], together with the properties the
    specification states about them.

    Conventions.
    - A Python [str] is a [string]; a Python [int] is a [Z].
    - A Python [list] is a [list]; [l.append(x)] is [l ++ [x]].
    - External services (tokenizer, embedding API, vector store, chat
      API) are not part of the repository: they enter as fields of the
      objects that hold them or as oracles, and each of them may raise. *)

From Stdlib Require Import ZArith QArith_base Lia List Ascii String DecimalString.
From Stdlib Require DecimalPos DecimalZ.
From stdpp Require Import gmap strings list.

Local Open Scope Z_scope.

(** [simpl] may unfold string concatenation on a constructor. *)
#[local] Arguments String.append !s1 s2 : simpl nomatch.

(** ** Exceptions

    An exception is represented by its message [str(e)], the only part
    of it the code looks at. *)

Definition Exn : Type := string.
Definition Result (A : Type) : Type := Exn + A.

(** [for x in l: body], left by the first exception the body raises. *)
Fixpoint for_loop {S A} (body : S -> A -> Result S) (l : list A) (st : S)
    : Result S :=
  match l with
  | [] => inr st
  | x :: xs =>
      match body st x with
      | inl e => inl e
      | inr st' => for_loop body xs st'
      end
  end.

(** ** Python string and list primitives *)

Module Py.

Definition nl : ascii := "010"%char.
Definition NL : string := String nl EmptyString.

(** [s.split(sep)] for a one-character separator: never returns the
    empty list; [''.split('\n') == ['']]. *)
Fixpoint split (sep : ascii) (s : string) : list string :=
  match s with
  | EmptyString => [EmptyString]
  | String c s' =>
      if Ascii.eqb c sep then EmptyString :: split sep s'
      else match split sep s' with
           | [] => [String c EmptyString]
           | w :: ws => String c w :: ws
           end
  end.

(** [sep.join(l)]. *)
Fixpoint join (sep : string) (l : list string) : string :=
  match l with
  | [] => EmptyString
  | x :: xs =>
      match xs with
      | [] => x
      | _ :: _ => x +:+ sep +:+ join sep xs
      end
  end.

(** [len(l)] as a Python int. *)
Definition len {A} (l : list A) : Z := Z.of_nat (length l).

(** [l[start:]] with Python's treatment of negative and out-of-range
    bounds. *)
Definition slice_from {A} (start : Z) (l : list A) : list A :=
  let start' := if start <? 0 then Z.max (len l + start) 0
                else Z.min start (len l) in
  skipn (Z.to_nat start') l.

(** [l[:stop]]. *)
Definition slice_to {A} (stop : Z) (l : list A) : list A :=
  let stop' := if stop <? 0 then Z.max (len l + stop) 0
               else Z.min stop (len l) in
  firstn (Z.to_nat stop') l.

(** [l[start:stop]] for non-negative bounds. *)
Definition slice {A} (start stop : Z) (l : list A) : list A :=
  firstn (Z.to_nat (stop - start)) (skipn (Z.to_nat start) l).

(** [enumerate(l, start)]. *)
Fixpoint enumerate {A} (start : Z) (l : list A) : list (Z * A) :=
  match l with
  | [] => []
  | x :: xs => (start, x) :: enumerate (start + 1) xs
  end.

(** [sum(f(x) for x in l)], the items added to 0 from the left; [f] may
    raise, and the sum is left by the first exception. *)
Fixpoint try_sum_from {A} (f : A -> Result Z) (l : list A) (acc : Z) : Result Z :=
  match l with
  | [] => inr acc
  | x :: xs =>
      match f x with
      | inl e => inl e
      | inr n => try_sum_from f xs (acc + n)
      end
  end.

Definition try_sum {A} (f : A -> Result Z) (l : list A) : Result Z :=
  try_sum_from f l 0.

(** Truthiness of a list. *)
Definition truthy {A} (l : list A) : bool :=
  match l with [] => false | _ :: _ => true end.

(** [str(n)] for an int. *)
Definition str_of_int (n : Z) : string :=
  NilZero.string_of_int (Z.to_int n).

(** [len(s)] for a string. *)
Definition str_len (s : string) : Z := Z.of_nat (String.length s).

(** [s.replace(a, b)] for one-character [a] and [b]. *)
Fixpoint replace_char (a b : ascii) (s : string) : string :=
  match s with
  | EmptyString => EmptyString
  | String c s' =>
      String (if Ascii.eqb c a then b else c) (replace_char a b s')
  end.

(** [''.join(c for c in s if p(c))]. *)
Fixpoint str_filter (p : ascii -> bool) (s : string) : string :=
  match s with
  | EmptyString => EmptyString
  | String c s' =>
      if p c then String c (str_filter p s') else str_filter p s'
  end.

(** [s.lstrip(c)], [s.rstrip(c)] and [s.strip(c)] for a one-character
    argument. *)
Fixpoint lstrip (c : ascii) (s : string) : string :=
  match s with
  | EmptyString => EmptyString
  | String a s' => if Ascii.eqb a c then lstrip c s' else s
  end.

Fixpoint rstrip (c : ascii) (s : string) : string :=
  match s with
  | EmptyString => EmptyString
  | String a s' =>
      match rstrip c s' with
      | EmptyString => if Ascii.eqb a c then EmptyString else String a EmptyString
      | r => String a r
      end
  end.

Definition strip (c : ascii) (s : string) : string := rstrip c (lstrip c s).

(** [s[:n]] for [n >= 0]. *)
Fixpoint str_take (n : nat) (s : string) : string :=
  match n, s with
  | O, _ => EmptyString
  | S _, EmptyString => EmptyString
  | S n', String a s' => String a (str_take n' s')
  end.

(** [s[:-1]]. *)
Fixpoint drop_last (s : string) : string :=
  match s with
  | EmptyString => EmptyString
  | String a s' =>
      match s' with
      | EmptyString => EmptyString
      | String _ _ => String a (drop_last s')
      end
  end.

(** [s.endswith(c)] and [s.startswith(c)] for a one-character [c]. *)
Fixpoint endswith (c : ascii) (s : string) : bool :=
  match s with
  | EmptyString => false
  | String a s' =>
      match s' with
      | EmptyString => Ascii.eqb a c
      | String _ _ => endswith c s'
      end
  end.

Definition startswith (c : ascii) (s : string) : bool :=
  match s with
  | EmptyString => false
  | String a _ => Ascii.eqb a c
  end.

(** [c.isalnum()].  On ASCII it is decided here; the classification of
    the other code points comes from the Unicode tables of the
    interpreter, taken as the parameter [uni]. *)
Definition isalnum (uni : ascii -> bool) (c : ascii) : bool :=
  let n := nat_of_ascii c in
  ((48 <=? n) && (n <=? 57) || (65 <=? n) && (n <=? 90)
   || (97 <=? n) && (n <=? 122) || (128 <=? n) && uni c)%nat.

(** [s * n]. *)
Fixpoint str_repeat (s : string) (n : nat) : string :=
  match n with
  | O => EmptyString
  | S n' => s +:+ str_repeat s n'
  end.

(** [all(p(c) for c in s)]. *)
Fixpoint str_all (p : ascii -> bool) (s : string) : bool :=
  match s with
  | EmptyString => true
  | String a s' => p a && str_all p s'
  end.

(** [c in s]. *)
Fixpoint contains (c : ascii) (s : string) : bool :=
  match s with
  | EmptyString => false
  | String a s' => Ascii.eqb a c || contains c s'
  end.

(** [sub in s] for a string [sub]. *)
Fixpoint str_in (sub s : string) : bool :=
  String.prefix sub s
  || match s with
     | EmptyString => false
     | String _ s' => str_in sub s'
     end.

End Py.

(** ** chunker.py *)

Record Chunk := mkChunk {
  content : string;
  file_path : string;
  start_line : Z;
  end_line : Z;
  owner : string;
  repo : string
}.

(** [encoding] is the tiktoken encoder held by the object, taken through
    its [encode] method; the token table itself is external.  [encode]
    raises [ValueError] on some texts (those that hold the text of a
    special token). *)
Record CodeChunker := mkCodeChunker {
  max_chunk_size : Z;
  chunk_overlap : Z;
  encoding : string -> Result (list N)
}.

Definition count_tokens (self : CodeChunker) (text : string) : Result Z :=
  match encoding self text with
  | inl e => inl e
  | inr tokens => inr (Py.len tokens)
  end.

(** The local variables of [chunk_by_lines] that the loop updates. *)
Record Locals := mkLocals {
  chunks : list Chunk;
  current_chunk : list string;
  current_tokens : Z;
  cur_start_line : Z
}.

(** One iteration of [for i, line in enumerate(lines, 1)]. *)
Definition chunk_step (self : CodeChunker) (fp own rp : string)
    (st : Locals) (il : Z * string) : Result Locals :=
  let '(i, line) := il in
  match count_tokens self (line +:+ Py.NL) with
  | inl e => inl e
  | inr line_tokens =>
      if (current_tokens st + line_tokens >? max_chunk_size self)
         && Py.truthy (current_chunk st)
      then
        let chunk_content := Py.join Py.NL (current_chunk st) in
        let chunks' :=
          chunks st
          ++ [mkChunk chunk_content fp (cur_start_line st) (i - 1) own rp] in
        let overlap_lines :=
          if chunk_overlap self =? 0 then []
          else Py.slice_from (- chunk_overlap self) (current_chunk st) in
        let current_chunk' := overlap_lines ++ [line] in
        match Py.try_sum (fun l => count_tokens self (l +:+ Py.NL))
                current_chunk' with
        | inl e => inl e
        | inr current_tokens' =>
            inr (mkLocals chunks' current_chunk' current_tokens'
                   (i - Py.len overlap_lines))
        end
      else
        inr (mkLocals (chunks st) (current_chunk st ++ [line])
               (current_tokens st + line_tokens) (cur_start_line st))
  end.

Definition chunk_by_lines (self : CodeChunker)
    (text fp own rp : string) : Result (list Chunk) :=
  let lines := Py.split Py.nl text in
  match for_loop (chunk_step self fp own rp) (Py.enumerate 1 lines)
          (mkLocals [] [] 0 1) with
  | inl e => inl e
  | inr st =>
      inr (if Py.truthy (current_chunk st)
           then chunks st ++
                [mkChunk (Py.join Py.NL (current_chunk st)) fp
                   (cur_start_line st) (Py.len lines) own rp]
           else chunks st)
  end.

(** A stand-in encoder for running examples: one token per character,
    no text refused. *)
Definition char_encoding (s : string) : Result (list N) :=
  inr (map (fun c => N_of_ascii c) (list_ascii_of_string s)).

Definition demo_chunker : CodeChunker := mkCodeChunker 10 100 char_encoding.

(** A stand-in for an encoder with special tokens: like [encode] of
    tiktoken called with its default arguments, it raises on a text that
    holds the text of one of them, with a message that names a token
    found (the library's message goes on with advice). *)
Definition special_tokens : list string := ["<|endoftext|>"; "<|endofprompt|>"].

Definition guarded_encoding (s : string) : Result (list N) :=
  match List.find (fun token => Py.str_in token s) special_tokens with
  | Some token =>
      inl ("Encountered text corresponding to disallowed special token '"
           +:+ token +:+ "'.")
  | None => char_encoding s
  end.

(** The spec's reading of "removing the overlap-duplicated leading lines":
    a chunk that starts at or before the previous chunk's [end_line]
    repeats the lines [start_line .. prev_end]; they are dropped. *)
Definition fresh_lines (prev_end : Z) (c : Chunk) : list string :=
  skipn (Z.to_nat (prev_end - start_line c + 1)) (Py.split Py.nl (content c)).

Fixpoint dedup_concat (prev_end : Z) (cs : list Chunk) : list string :=
  match cs with
  | [] => []
  | c :: cs' => fresh_lines prev_end c ++ dedup_concat (end_line c) cs'
  end.

(** Lines [a .. b] (1-based, inclusive) of a file. *)
Definition line_range (lines : list string) (a b : Z) : list string :=
  Py.slice (a - 1) b lines.

(** [tokens(line + newline)] summed over lines, the way the loop sums
    them. *)
Definition lines_tokens (self : CodeChunker) (lines : list string) : Result Z :=
  Py.try_sum (fun l => count_tokens self (l +:+ Py.NL)) lines.

(** The per-line-summed token measure of a chunk's content. *)
Definition chunk_tokens (self : CodeChunker) (c : Chunk) : Result Z :=
  lines_tokens self (Py.split Py.nl (content c)).

(** ** Effects

    Code that talks to an external service runs in [M]: it may raise,
    and every call it makes to a service is appended to a trace. *)

Definition M (Ev A : Type) : Type := list Ev -> Result A * list Ev.

Definition ret {Ev A} (x : A) : M Ev A := fun t => (inr x, t).
Definition raise {Ev A} (e : Exn) : M Ev A := fun t => (inl e, t).
Definition lift {Ev A} (r : Result A) : M Ev A := fun t => (r, t).
Definition bind {Ev A B} (m : M Ev A) (k : A -> M Ev B) : M Ev B :=
  fun t =>
    match m t with
    | (inl e, t') => (inl e, t')
    | (inr x, t') => k x t'
    end.

(** A call to an external service: the event is recorded, the service's
    answer (a value or an exception) is the outcome. *)
Definition call {Ev A} (ev : Ev) (r : Result A) : M Ev A :=
  fun t => (r, t ++ [ev]).

(** [try: body except Exception as e: handler(e)]. *)
Definition try_except {Ev A} (body : M Ev A) (handler : Exn -> M Ev A) : M Ev A :=
  fun t =>
    match body t with
    | (inl e, t') => handler e t'
    | (inr x, t') => (inr x, t')
    end.

Declare Scope py_scope.
Delimit Scope py_scope with py.
Notation "x <- m ;; k" := (bind m (fun x => k))
  (at level 100, m at next level, right associativity) : py_scope.

(** [range(start, stop, step)]; a zero step raises [ValueError]. *)
Definition range (start stop step : Z) : Result (list Z) :=
  if step =? 0 then inl "range() arg 3 must not be zero"
  else
    let n := if 0 <? step then (stop - start + step - 1) / step
             else (start - stop - step - 1) / (- step) in
    inr (map (fun k => start + Z.of_nat k * step) (seq 0 (Z.to_nat n))).

(** ** Requests to the external services *)

(** The [input] argument of [client.embeddings.create]: a string or a
    list of strings. *)
Inductive EmbInput :=
| InputStr (text : string)
| InputList (texts : list string).

(** A conversation turn [{"role": ..., "content": ...}]. *)
Module Msg.
Record t := mk { role : string; content : string }.
End Msg.

(** The arguments of [client.chat.completions.create]. *)
Record ChatRequest := mkChatRequest {
  chat_model : string;
  messages : list Msg.t;
  temperature : Q;
  max_tokens : Z
}.

Inductive Event (E : Type) :=
| EvEmbeddingsCreate (model : string) (input : EmbInput)
| EvGetCollection (name : string)
| EvCreateCollection (name : string)
| EvCollectionQuery (query_embeddings : list E) (n_results : Z)
| EvChatCompletionsCreate (req : ChatRequest).
Arguments EvEmbeddingsCreate {E}.
Arguments EvGetCollection {E}.
Arguments EvCreateCollection {E}.
Arguments EvCollectionQuery {E}.
Arguments EvChatCompletionsCreate {E}.

(** ** embedder.py *)

(** [client] is the call [client.embeddings.create(model=, input=)]
    followed by reading [item.embedding] off every item of
    [response.data]; it may raise. *)
Record EmbeddingGenerator (E : Type) := mkEmbeddingGenerator {
  client : string -> EmbInput -> Result (list E);
  model : string
}.
Arguments mkEmbeddingGenerator {E}.
Arguments client {E}.
Arguments model {E}.

Definition embeddings_create {E} (self : EmbeddingGenerator E)
    (input : EmbInput) : M (Event E) (list E) :=
  call (EvEmbeddingsCreate (model self) input) (client self (model self) input).

Definition generate_embedding {E} (self : EmbeddingGenerator E)
    (text : string) : M (Event E) E :=
  (data <- embeddings_create self (InputStr text) ;;
   match data with
   | [] => raise "list index out of range"
   | e :: _ => ret e
   end)%py.

(** The loop body of [generate_batch_embeddings], folded over the
    indices of [range(0, len(texts), batch_size)]. *)
Definition batch_step {E} (self : EmbeddingGenerator E)
    (texts : list string) (batch_size : Z)
    (acc : M (Event E) (list E)) (i : Z) : M (Event E) (list E) :=
  (embeddings <- acc ;;
   let batch := Py.slice i (i + batch_size) texts in
   data <- embeddings_create self (InputList batch) ;;
   ret (embeddings ++ data))%py.

Definition generate_batch_embeddings {E} (self : EmbeddingGenerator E)
    (texts : list string) (batch_size : Z) : M (Event E) (list E) :=
  (idx <- lift (range 0 (Py.len texts) batch_size) ;;
   fold_left (batch_step self texts batch_size) idx (ret []))%py.

(** The groups [texts[i:i + batch_size]] in loop order. *)
Definition batches (texts : list string) (batch_size : Z) : list (list string) :=
  match range 0 (Py.len texts) batch_size with
  | inl _ => []
  | inr idx => map (fun i => Py.slice i (i + batch_size) texts) idx
  end.

(** ** vector_store.py *)

Record StoredRecord (E : Type) := mkStoredRecord {
  document : string;
  embedding : E;
  metadata : Chunk
}.
Arguments mkStoredRecord {E}.
Arguments document {E}.
Arguments embedding {E}.
Arguments metadata {E}.

(** A collection: stored records keyed by identifier. *)
Abbreviation Collection E := (gmap string (StoredRecord E)).

Definition count {E} (c : Collection E) : nat := size c.

(** Modelled from the spec: [collection.add] of the vector-store library,
    which is not part of the repository.  The four lists must have the
    same length.  Records are taken in order; a record whose identifier
    is already stored (from an earlier call or earlier in the same
    batch) is rejected without an error and the stored record is kept. *)
Definition add_record {E} (c : Collection E)
    (r : string * StoredRecord E) : Collection E :=
  match c !! r.1 with
  | Some _ => c
  | None => <[r.1 := r.2]> c
  end.

Definition collection_add {E} (c : Collection E)
    (ids documents : list string) (embeddings : list E)
    (metadatas : list Chunk) : Result (Collection E) :=
  if (length ids =? length documents)%nat
     && (length ids =? length embeddings)%nat
     && (length ids =? length metadatas)%nat
  then
    let recs := zip ids (zip_with (fun d em => mkStoredRecord d em.1 em.2)
                           documents (zip embeddings metadatas)) in
    inr (fold_left add_record recs c)
  else inl "Unequal lengths for fields".

Definition chunk_id (chunk : Chunk) : string :=
  file_path chunk +:+ "_" +:+ Py.str_of_int (start_line chunk)
    +:+ "_" +:+ Py.str_of_int (end_line chunk).

(** [store_chunks] mutates the collection in place; here it returns the
    collection after the call. *)
Definition store_chunks {E} (collection : Collection E)
    (chunks : list Chunk) (embeddings : list E) : Result (Collection E) :=
  let ids := map chunk_id chunks in
  let documents := map content chunks in
  let metadatas := chunks in
  collection_add collection ids documents embeddings metadatas.

(** The result of [collection.query]: the field the code reads. *)
Record QueryResult := mkQueryResult { documents : list (list string) }.

(** The vector-store client held by the manager: lookups, creation and
    nearest-neighbour search are answered by the library. *)
Record ChromaDBManager (E : Type) := mkChromaDBManager {
  get_collection : string -> Result (Collection E);
  create_collection : string -> Result (Collection E);
  collection_query : Collection E -> list E -> Z -> Result QueryResult
}.
Arguments mkChromaDBManager {E}.
Arguments get_collection {E}.
Arguments create_collection {E}.
Arguments collection_query {E}.

Definition create_or_get_collection {E} (self : ChromaDBManager E)
    (collection_name : string) : M (Event E) (Collection E) :=
  try_except
    (call (EvGetCollection collection_name) (get_collection self collection_name))
    (fun _ => call (EvCreateCollection collection_name)
                (create_collection self collection_name)).

Definition query_similar_code {E} (self : ChromaDBManager E)
    (collection : Collection E) (query_embedding : E) (n_results : Z)
    : M (Event E) QueryResult :=
  call (EvCollectionQuery [query_embedding] n_results)
       (collection_query self collection [query_embedding] n_results).

(** ** agent.py *)

Module RAGState.
(** The state dictionary; a key that is absent is [None].  The partial
    dictionaries returned by the nodes have the same shape. *)
Record t (E : Type) := mk {
  repo_url : option string;
  valid : option bool;
  error : option string;
  chunks : option (list Chunk);
  embeddings : option (list E);
  collection_name : option string;
  chat_history : option (list Msg.t);
  answer : option string;
  owner : option string;
  repo : option string;
  mode : option string;
  processed : option bool
}.
Arguments mk {E}.
Arguments repo_url {E}.
Arguments valid {E}.
Arguments error {E}.
Arguments chunks {E}.
Arguments embeddings {E}.
Arguments collection_name {E}.
Arguments chat_history {E}.
Arguments answer {E}.
Arguments owner {E}.
Arguments repo {E}.
Arguments mode {E}.
Arguments processed {E}.

(** The graph runtime writes a node's result into the state: every key
    the result has replaces the state's value, the others are kept. *)
Definition update {E} (state result : t E) : t E :=
  let pick {A} (new old : option A) : option A :=
    match new with Some _ => new | None => old end in
  mk (pick (repo_url result) (repo_url state))
     (pick (valid result) (valid state))
     (pick (error result) (error state))
     (pick (chunks result) (chunks state))
     (pick (embeddings result) (embeddings state))
     (pick (collection_name result) (collection_name state))
     (pick (chat_history result) (chat_history state))
     (pick (answer result) (answer state))
     (pick (owner result) (owner state))
     (pick (repo result) (repo state))
     (pick (mode result) (mode state))
     (pick (processed result) (processed state)).
End RAGState.

Definition sanitize_collection_name (uni : ascii -> bool)
    (owner repo : string) : string :=
  let raw_name := owner +:+ "_" +:+ repo in
  let sanitized := Py.replace_char "-" "_" raw_name in
  let sanitized :=
    Py.str_filter (fun c => Py.isalnum uni c || Ascii.eqb c "_") sanitized in
  let sanitized := Py.strip "_" sanitized in
  let sanitized :=
    if Py.str_len sanitized >? 60 then Py.str_take 60 sanitized else sanitized in
  let sanitized :=
    if Py.str_len sanitized <? 3 then sanitized +:+ "_collection" else sanitized in
  let sanitized :=
    if Py.endswith "_" sanitized then Py.drop_last sanitized +:+ "x" else sanitized in
  sanitized.

(** *** The regular expression of [validate_url_node]

    The fragment of Python's [re] syntax that the pattern uses: literal
    characters, [.] (any character but a newline), a leading [^], and
    capturing groups of the form [([^c]+)]. *)
Inductive Re :=
| Lit (c : ascii)
| Dot
| GroupPlusNot (c : ascii).

Fixpoint re_compile (p : string) : list Re :=
  match p with
  | EmptyString => []
  | String "(" (String "[" (String "^" (String c
      (String "]" (String "+" (String ")" rest)))))) =>
      GroupPlusNot c :: re_compile rest
  | String "." rest => Dot :: re_compile rest
  | String c rest => Lit c :: re_compile rest
  end.

(** [[^c]+], greedy with backtracking: the longest run is tried first;
    [k] continues with the captured text and the remaining input. *)
Fixpoint greedy_plus_not {R} (c : ascii) (k : string -> string -> option R)
    (s : string) : option R :=
  match s with
  | EmptyString => None
  | String a s' =>
      if Ascii.eqb a c then None
      else match greedy_plus_not c (fun cap rest => k (String a cap) rest) s' with
           | Some r => Some r
           | None => k (String a EmptyString) s'
           end
  end.

(** Match at the start of [s]; the result is the list of groups. *)
Fixpoint re_match_at (p : list Re) (s : string) (groups : list string)
    : option (list string) :=
  match p with
  | [] => Some groups
  | Lit c :: p' =>
      match s with
      | String a s' => if Ascii.eqb a c then re_match_at p' s' groups else None
      | EmptyString => None
      end
  | Dot :: p' =>
      match s with
      | String a s' => if Ascii.eqb a Py.nl then None else re_match_at p' s' groups
      | EmptyString => None
      end
  | GroupPlusNot c :: p' =>
      greedy_plus_not c (fun cap rest => re_match_at p' rest (groups ++ [cap])) s
  end.

(** [re.match(pattern, s)]: anchored at the start, so a leading [^] adds
    nothing. *)
Definition re_match (pattern s : string) : option (list string) :=
  let p := match pattern with
           | String "^" rest => rest
           | _ => pattern
           end in
  re_match_at (re_compile p) s [].

Definition KeyError {A} (key : string) : Result A := inl ("'" +:+ key +:+ "'").

Definition validate_url_node {E} (state : RAGState.t E) : Result (RAGState.t E) :=
  match RAGState.repo_url state with
  | None => KeyError "repo_url"
  | Some url =>
      let pattern := "^https://github.com/([^/]+)/([^/]+)" in
      match re_match pattern url with
      | Some [group1; group2] =>
          inr (RAGState.mk None (Some true) (Some "") None None None None None
                 (Some group1) (Some group2) None None)
      | Some _ => inl "no such group" (* not reached: the pattern has two groups *)
      | None =>
          inr (RAGState.mk None (Some false) (Some "Invalid GitHub URL")
                 None None None None None None None None None)
      end
  end.

(** The module-level collaborators of [chat_node]: the embedding
    endpoint behind [EmbeddingGenerator(api_key=OPENAI_API_KEY)], the
    store behind [ChromaDBManager(persist_directory=CHROMA_DB_DIR)] and
    the chat endpoint behind [OpenAI(api_key=OPENAI_API_KEY)], which
    answers with the [message.content] of every choice.  Building the
    three client objects calls no service. *)
Record Services (E : Type) := mkServices {
  openai_embeddings : string -> EmbInput -> Result (list E);
  chroma_db : ChromaDBManager E;
  openai_chat : ChatRequest -> Result (list string)
}.
Arguments mkServices {E}.
Arguments openai_embeddings {E}.
Arguments chroma_db {E}.
Arguments openai_chat {E}.

Definition chat_completions_create {E} (sv : Services E)
    (req : ChatRequest) : M (Event E) (list string) :=
  call (EvChatCompletionsCreate req) (openai_chat sv req).

(** [l[0]]. *)
Definition first {Ev A} (l : list A) : M Ev A :=
  match l with
  | [] => raise "list index out of range"
  | x :: _ => ret x
  end.

(** [state[key]]. *)
Definition getitem {Ev A} (key : string) (v : option A) : M Ev A :=
  match v with
  | None => raise ("'" +:+ key +:+ "'")
  | Some x => ret x
  end.

Definition welcome (owner repo : string) : string :=
  "Hello! I'm ready to help you with questions about the " +:+ owner +:+ "/"
    +:+ repo +:+ " repository. What would you like to know?".

(** The loop that formats the earlier turns. *)
Definition context_step (conversation_context : string) (msg : Msg.t) : string :=
  if String.eqb (Msg.role msg) "user"
  then conversation_context +:+ "Previous Question: " +:+ Msg.content msg +:+ Py.NL
  else if String.eqb (Msg.role msg) "assistant"
  then conversation_context +:+ "Previous Answer: " +:+ Msg.content msg +:+ Py.NL
  else conversation_context.

Definition system_prompt (owner repo : string) : string :=
  "You are a helpful codebase assistant for the GitHub repository " +:+ owner
  +:+ "/" +:+ repo +:+ ". 
        
Your task is to answer questions about the codebase using the provided context from the repository's code.

Guidelines:
- Provide clear, concise answers based on the code context
- Include relevant code snippets when helpful
- If the context doesn't contain enough information to answer the question, say so
- Reference specific files or functions when relevant
- Be conversational and helpful
- Consider the conversation history when providing context-aware responses".

Definition user_prompt (context conversation_context query : string) : string :=
  "Context from codebase:
" +:+ context +:+ "

" +:+ conversation_context +:+ "

Current Question: " +:+ query +:+ "

Please provide a helpful answer based on the codebase context.".

Definition apology : string :=
  "Sorry, I encountered an error while processing your question.".

(** [conversation_context] as built from the history. *)
Definition conversation_context (history : list Msg.t) : string :=
  if Py.len history >? 1
  then
    let recent_history := Py.slice_from (-6) history in
    fold_left context_step (Py.slice_to (-1) recent_history) EmptyString
  else EmptyString.

(** The request sent to the chat endpoint. *)
Definition chat_request {E} (state : RAGState.t E) (docs : list string)
    (history : list Msg.t) (query : string) : ChatRequest :=
  let context := Py.join (Py.NL +:+ Py.NL) docs in
  let owner := default EmptyString (RAGState.owner state) in
  let repo := default EmptyString (RAGState.repo state) in
  mkChatRequest "gpt-4o-mini"
    [Msg.mk "system" (system_prompt owner repo);
     Msg.mk "user" (user_prompt context (conversation_context history) query)]
    (Qmake 7 10) 1000.

(** The body of the [try] block once the history is known to be
    non-empty; [last_msg] is [state["chat_history"][-1]]. *)
Definition chat_turn {E} (sv : Services E) (state : RAGState.t E)
    (history : list Msg.t) (last_msg : Msg.t) : M (Event E) (RAGState.t E) :=
  (let query := Msg.content last_msg in
   let embedder := mkEmbeddingGenerator (openai_embeddings sv) "text-embedding-3-small" in
   query_embedding <- generate_embedding embedder query ;;
   let chroma := chroma_db sv in
   collection_name <- getitem "collection_name" (RAGState.collection_name state) ;;
   collection <- create_or_get_collection chroma collection_name ;;
   results <- query_similar_code chroma collection query_embedding 5 ;;
   docs <- first (documents results) ;;
   choices <- chat_completions_create sv (chat_request state docs history query) ;;
   answer <- first choices ;;
   let updated_history := history ++ [Msg.mk "assistant" answer] in
   ret (RAGState.mk None None (Some EmptyString) None None None
          (Some updated_history) (Some answer) None None None None))%py.

Definition chat_node {E} (sv : Services E) (state : RAGState.t E)
    : M (Event E) (RAGState.t E) :=
  try_except
    (match RAGState.chat_history state with
     | None | Some [] =>
         let welcome_message :=
           welcome (default EmptyString (RAGState.owner state))
                   (default EmptyString (RAGState.repo state)) in
         ret (RAGState.mk None None (Some EmptyString) None None None
                (Some [Msg.mk "assistant" welcome_message])
                (Some welcome_message) None None None None)
     | Some (m :: ms) => chat_turn sv state (m :: ms) (List.last ms m)
     end)
    (fun e =>
       ret (RAGState.mk None None (Some ("Error in chat: " +:+ e)) None None None
              None (Some apology) None None None None)).

(** *** Stand-ins for running examples *)

Definition demo_services : Services nat :=
  mkServices
    (fun _ input => match input with
                    | InputStr t => inr [String.length t]
                    | InputList ts => inr (map String.length ts)
                    end)
    (mkChromaDBManager
       (fun _ => inl "Collection does not exist")
       (fun _ => inr ∅)
       (fun _ _ _ => inr (mkQueryResult [["def f(): pass"; "x = 1"]])))
    (fun _ => inr ["It defines f."]).

Definition failing_chat_services : Services nat :=
  mkServices (openai_embeddings demo_services) (chroma_db demo_services)
    (fun _ => inl "Connection error.").

Definition demo_state (history : option (list Msg.t)) : RAGState.t nat :=
  RAGState.mk (Some "https://github.com/foo/bar") (Some true) (Some EmptyString)
    (Some []) (Some []) (Some "foo_bar") history (Some EmptyString)
    (Some "foo") (Some "bar") (Some "chat_only") (Some true).

(** ** Auxiliary notions used to state the properties *)

(** A line of 399 characters; with its newline it is 400 tokens for
    [char_encoding]. *)
Definition demo_long_line : string := Py.str_repeat "x" 399.

(** The characters a collection name may contain. *)
Definition name_char (uni : ascii -> bool) (c : ascii) : bool :=
  Py.isalnum uni c || Ascii.eqb c "_".

(** The intermediate value of [sanitize_collection_name] after
    [strip('_')]. *)
Definition stripped_name (uni : ascii -> bool) (owner repo : string) : string :=
  Py.strip "_" (Py.str_filter (fun c => Py.isalnum uni c || Ascii.eqb c "_")
                  (Py.replace_char "-" "_" (owner +:+ "_" +:+ repo))).

(** A line holds no newline. *)
Definition no_nl (w : string) : Prop := Py.contains Py.nl w = false.

(** [end_line] of the last chunk of [cs], or [p] when there is none. *)
Definition last_end (p : Z) (cs : list Chunk) : Z :=
  fold_left (fun _ c => end_line c) cs p.

(** A chunk is well placed in a file whose lines are [lines]. *)
Definition chunk_ok (lines : list string) (c : Chunk) : Prop :=
  1 <= start_line c /\ start_line c <= end_line c /\ end_line c <= Py.len lines /\
  content c = Py.join Py.NL (line_range lines (start_line c) (end_line c)).

(** The loop invariant of [chunk_by_lines] after the lines [pre] have
    been consumed. *)
Definition chunk_inv (pre : list string) (st : Locals) : Prop :=
  exists k e : nat,
    cur_start_line st = Z.of_nat k + 1 /\
    (k <= length pre)%nat /\
    current_chunk st = skipn k pre /\
    (pre <> [] -> (k < length pre)%nat) /\
    Forall (chunk_ok pre) (chunks st) /\
    last_end 0 (chunks st) = Z.of_nat e /\
    (e <= length pre)%nat /\
    (k <= e)%nat /\
    dedup_concat 0 (chunks st) = firstn e pre.

(** The longest prefix of [s] without the character [c], and what
    follows it. *)
Fixpoint span_not (c : ascii) (s : string) : string * string :=
  match s with
  | EmptyString => (EmptyString, EmptyString)
  | String a s' =>
      if Ascii.eqb a c then (EmptyString, s)
      else let '(run, rest) := span_not c s' in (String a run, rest)
  end.

(** A path segment: non-empty and without a slash. *)
Definition segment (s : string) : Prop :=
  s <> EmptyString /\ Py.contains "/" s = false.

(** What may follow the second segment: nothing, or a slash and anything. *)
Definition trailing (rest : string) : Prop :=
  rest = EmptyString \/ Py.startswith "/" rest = true.

(** The node's answer for an accepted and for a rejected URL. *)
Definition url_accepted {E} (owner repo : string) : RAGState.t E :=
  RAGState.mk None (Some true) (Some EmptyString) None None None None None
    (Some owner) (Some repo) None None.

Definition url_rejected {E} : RAGState.t E :=
  RAGState.mk None (Some false) (Some "Invalid GitHub URL")
    None None None None None None None None None.

Definition url_state (url : string) : RAGState.t unit :=
  RAGState.mk (Some url) None None None None None None None None None None None.

(** The embedding service answers with one vector per input, in input
    order: [emb] is the vector of a text. *)
Definition api_returns {E} (self : EmbeddingGenerator E) (emb : string -> E) : Prop :=
  (forall text, client self (model self) (InputStr text) = inr [emb text])
  /\ (forall texts, client self (model self) (InputList texts) = inr (map emb texts)).

(** A computation that returns [x] after making the calls [evs]. *)
Definition returns {Ev A} (m : M Ev A) (x : A) (evs : list Ev) : Prop :=
  forall t, m t = (inr x, t ++ evs).

(** A stand-in embedding service: the vector of a text is its length. *)
Definition demo_embedder : EmbeddingGenerator nat :=
  mkEmbeddingGenerator
    (fun _ input => match input with
                    | InputStr t => inr [String.length t]
                    | InputList ts => inr (map String.length ts)
                    end)
    "text-embedding-3-small".

(** What [create_or_get_collection] ends up with. *)
Definition found_collection {E} (chroma : ChromaDBManager E)
    (name : string) : Result (Collection E) :=
  match get_collection chroma name with
  | inr coll => inr coll
  | inl _ => create_collection chroma name
  end.

(** One of the three service steps of a chat turn raises [e]: the
    embedding of the query, the retrieval (finding the collection or
    querying it), or the call to the language model. *)
Inductive step_raises {E} (sv : Services E) (state : RAGState.t E)
    (history : list Msg.t) (query : string) (e : Exn) : Prop :=
| embedding_raises :
    openai_embeddings sv "text-embedding-3-small" (InputStr query) = inl e ->
    step_raises sv state history query e
| retrieval_raises x xs name :
    openai_embeddings sv "text-embedding-3-small" (InputStr query) = inr (x :: xs) ->
    RAGState.collection_name state = Some name ->
    (found_collection (chroma_db sv) name = inl e
     \/ exists coll, found_collection (chroma_db sv) name = inr coll
                     /\ collection_query (chroma_db sv) coll [x] 5 = inl e) ->
    step_raises sv state history query e
| generation_raises x xs name coll docs more :
    openai_embeddings sv "text-embedding-3-small" (InputStr query) = inr (x :: xs) ->
    RAGState.collection_name state = Some name ->
    found_collection (chroma_db sv) name = inr coll ->
    collection_query (chroma_db sv) coll [x] 5 = inr (mkQueryResult (docs :: more)) ->
    openai_chat sv (chat_request state docs history query) = inl e ->
    step_raises sv state history query e.

(** The dictionaries [chat_node] returns on failure and for an empty
    history. *)
Definition chat_error_result {E} (e : Exn) : RAGState.t E :=
  RAGState.mk None None (Some ("Error in chat: " +:+ e)) None None None
    None (Some apology) None None None None.

Definition greeting_result {E} (owner repo : string) : RAGState.t E :=
  RAGState.mk None None (Some EmptyString) None None None
    (Some [Msg.mk "assistant" (welcome owner repo)])
    (Some (welcome owner repo)) None None None None.

Definition demo_chunk_a : Chunk := mkChunk "import os" "a.py" 1 1 "foo" "bar".
Definition demo_chunk_b : Chunk := mkChunk "x = 1" "b.py" 1 1 "foo" "bar".

(** ** repo_crawler.py *)

(** An entry of the tree listing. *)
Module TreeItem.
Record t := mk { path : string; type : string }.
End TreeItem.

(** What the code reads off a response: the outcome of
    [resp.raise_for_status()], of [resp.json()['tree']], and
    [resp.text]. *)
Record Response := mkResponse {
  raise_for_status : Result unit;
  json_tree : Result (list TreeItem.t);
  text : string
}.

(** [session.headers] and the transport behind [session.get]. *)
Record GitHubRepoCrawler := mkGitHubRepoCrawler {
  session_headers : gmap string string;
  session_get : gmap string string -> string -> Result Response
}.

Inductive CrawlEvent :=
| EvSessionGet (headers : gmap string string) (url : string).

(** Truthiness of a string. *)
Definition str_truthy (s : string) : bool :=
  match s with EmptyString => false | String _ _ => true end.

(** [GitHubRepoCrawler(token)]: [default_headers] are the headers a new
    session starts with. *)
Definition new_crawler (transport : gmap string string -> string -> Result Response)
    (default_headers : gmap string string) (token : option string)
    : GitHubRepoCrawler :=
  let headers := default_headers in
  let headers :=
    match token with
    | Some tk =>
        if str_truthy tk then <["Authorization" := "token " +:+ tk]> headers
        else headers
    | None => headers
    end in
  let headers := <["Accept" := "application/vnd.github.v3+json"]> headers in
  mkGitHubRepoCrawler headers transport.

Definition get_files (self : GitHubRepoCrawler) (owner repo branch : string)
    : M CrawlEvent (list TreeItem.t) :=
  (let url := "https://api.github.com/repos/" +:+ owner +:+ "/" +:+ repo
              +:+ "/git/trees/" +:+ branch +:+ "?recursive=1" in
   resp <- call (EvSessionGet (session_headers self) url)
             (session_get self (session_headers self) url) ;;
   _ <- lift (raise_for_status resp) ;;
   tree <- lift (json_tree resp) ;;
   ret (List.filter (fun item => String.eqb (TreeItem.type item) "blob") tree))%py.

Definition get_file_content (self : GitHubRepoCrawler)
    (owner repo file_path branch : string) : M CrawlEvent string :=
  (let url := "https://raw.githubusercontent.com/" +:+ owner +:+ "/" +:+ repo
              +:+ "/" +:+ branch +:+ "/" +:+ file_path in
   resp <- call (EvSessionGet (session_headers self) url)
             (session_get self (session_headers self) url) ;;
   _ <- lift (raise_for_status resp) ;;
   ret (text resp))%py.

(** ** agent.py: processing a repository and the graph *)

(** The calls a whole run can make: to the hosting service, to the
    services of a chat turn, and [collection.add]. *)
Inductive PipelineEvent (E : Type) :=
| EvCrawl (ev : CrawlEvent)
| EvService (ev : Event E)
| EvCollectionAdd (ids documents : list string) (embeddings : list E)
    (metadatas : list Chunk).
Arguments EvCrawl {E}.
Arguments EvService {E}.
Arguments EvCollectionAdd {E}.

(** A computation over one kind of event run inside a trace of another
    kind: its calls are appended in order. *)
Definition within {Ev Ev' A} (f : Ev -> Ev') (m : M Ev A) : M Ev' A :=
  fun t => let '(r, evs) := m [] in (r, t ++ map f evs).

(** The module-level collaborators of [process_repo_node], besides those
    of [chat_node]: the transport and default headers of
    [requests.Session], [GITHUB_TOKEN], the [o200k_base] encoder behind
    [CodeChunker()], and the Unicode table of [str.isalnum]. *)
Record Pipeline (E : Type) := mkPipeline {
  services : Services E;
  transport : gmap string string -> string -> Result Response;
  default_headers : gmap string string;
  GITHUB_TOKEN : option string;
  o200k_base : string -> Result (list N);
  unicode_alnum : ascii -> bool
}.
Arguments mkPipeline {E}.
Arguments services {E}.
Arguments transport {E}.
Arguments default_headers {E}.
Arguments GITHUB_TOKEN {E}.
Arguments o200k_base {E}.
Arguments unicode_alnum {E}.

(** The body of [for file_info in code_files]. *)
Definition file_step (crawler : GitHubRepoCrawler) (chunker : CodeChunker)
    (owner repo : string) (acc : M CrawlEvent (list Chunk))
    (file_info : TreeItem.t) : M CrawlEvent (list Chunk) :=
  (all_chunks <- acc ;;
   content <- get_file_content crawler owner repo (TreeItem.path file_info) "main" ;;
   if str_truthy content
   then
     chunks <- lift (chunk_by_lines chunker content (TreeItem.path file_info)
                       owner repo) ;;
     ret (all_chunks ++ chunks)
   else ret all_chunks)%py.

Definition process_error {E} (msg : string) : RAGState.t E :=
  RAGState.mk None (Some false) (Some msg) None None None None None
    None None None None.

Definition process_repo_node {E} (pl : Pipeline E) (state : RAGState.t E)
    : M (PipelineEvent E) (RAGState.t E) :=
  try_except
    (owner <- getitem "owner" (RAGState.owner state) ;;
     repo <- getitem "repo" (RAGState.repo state) ;;
     let crawler := new_crawler (transport pl) (default_headers pl) (GITHUB_TOKEN pl) in
     files <- within EvCrawl (get_files crawler owner repo "main") ;;
     let code_files := files in
     if negb (Py.truthy code_files)
     then ret (process_error "No code files found in the repository")
     else
       let chunker := mkCodeChunker 1000 100 (o200k_base pl) in
       all_chunks <- within EvCrawl
                       (fold_left (file_step crawler chunker owner repo)
                          code_files (ret [])) ;;
       if negb (Py.truthy all_chunks)
       then ret (process_error "No content could be extracted from the repository")
       else
         let embedder :=
           mkEmbeddingGenerator (openai_embeddings (services pl))
             "text-embedding-3-small" in
         embeddings <- within EvService
                         (generate_batch_embeddings embedder
                            (map content all_chunks) 20) ;;
         let chroma := chroma_db (services pl) in
         let collection_name :=
           sanitize_collection_name (unicode_alnum pl) owner repo in
         collection <- within EvService
                         (create_or_get_collection chroma collection_name) ;;
         _ <- call (EvCollectionAdd (map chunk_id all_chunks)
                      (map content all_chunks) embeddings all_chunks)
                (store_chunks collection all_chunks embeddings) ;;
         ret (RAGState.mk None None (Some EmptyString) (Some all_chunks)
                (Some embeddings) (Some collection_name) None None None None
                None (Some true)))%py
    (fun e => ret (process_error ("Error processing repository: " +:+ e))).

Inductive Route := END | ToChat | ToProcessRepo.

Definition route_after_validation {E} (state : RAGState.t E) : Route :=
  if negb (default false (RAGState.valid state)) then END
  else
    match RAGState.mode state with
    | Some mode => if String.eqb mode "chat_only" then ToChat else ToProcessRepo
    | None => ToProcessRepo
    end.

Definition route_after_processing {E} (state : RAGState.t E) : Route :=
  match RAGState.error state with
  | Some err => if str_truthy err then END else ToChat
  | None => ToChat
  end.

(** The graph of [build_graph], run from [START]: each node's result is
    written into the state before the next edge is chosen; an exception
    raised by a node leaves the run. *)
Definition invoke {E} (pl : Pipeline E) (state : RAGState.t E)
    : M (PipelineEvent E) (RAGState.t E) :=
  (validated <- lift (validate_url_node state) ;;
   let state := RAGState.update state validated in
   match route_after_validation state with
   | END => ret state
   | ToChat =>
       answered <- within EvService (chat_node (services pl) state) ;;
       ret (RAGState.update state answered)
   | ToProcessRepo =>
       processed <- process_repo_node pl state ;;
       let state := RAGState.update state processed in
       match route_after_processing state with
       | END => ret state
       | _ =>
           answered <- within EvService (chat_node (services pl) state) ;;
           ret (RAGState.update state answered)
       end
   end)%py.

Definition create_chat_only_state {E} (collection_name owner repo : string)
    (chat_history : list Msg.t) : RAGState.t E :=
  RAGState.mk (Some ("https://github.com/" +:+ owner +:+ "/" +:+ repo))
    (Some true) (Some EmptyString) (Some []) (Some []) (Some collection_name)
    (Some chat_history) (Some EmptyString) (Some owner) (Some repo)
    (Some "chat_only") (Some true).

(** ** Further notions used to state the properties *)

(** Adjacent chunks: [R c z] relates every chunk [c] to [key] of the chunk
    that follows it, and the last chunk to [nxt]. *)
Fixpoint linked (key : Chunk -> Z) (R : Chunk -> Z -> Prop)
    (cs : list Chunk) (nxt : Z) : Prop :=
  match cs with
  | [] => True
  | c :: cs' =>
      R c (match cs' with [] => nxt | c' :: _ => key c' end) /\ linked key R cs' nxt
  end.

(** The number of lines carried over from a closed chunk of [n] lines. *)
Definition overlap_len (self : CodeChunker) (n : Z) : Z :=
  if chunk_overlap self =? 0 then 0
  else if - chunk_overlap self <? 0 then n - Z.max (n + - chunk_overlap self) 0
  else n - Z.min (- chunk_overlap self) n.

Definition starts_after (self : CodeChunker) (c : Chunk) (z : Z) : Prop :=
  z = end_line c + 1 - overlap_len self (end_line c - start_line c + 1).

Definition ends_before (c : Chunk) (z : Z) : Prop := end_line c < z.

(** The tokenizer answers on [line + newline]. *)
Definition encodes (self : CodeChunker) (line : string) : Prop :=
  exists n, count_tokens self (line +:+ Py.NL) = inr n.

(** Within the budget, or a single line. *)
Definition within_budget (self : CodeChunker) (lines : list string) : Prop :=
  (exists n, lines_tokens self lines = inr n /\ n <= max_chunk_size self)
  \/ length lines = 1%nat.

(** The second invariant of the loop of [chunk_by_lines]. *)
Definition chunk_inv2 (self : CodeChunker) (fp own rp : string)
    (pre : list string) (st : Locals) : Prop :=
  1 <= cur_start_line st
  /\ Py.len (current_chunk st) = Py.len pre - cur_start_line st + 1
  /\ Forall no_nl (current_chunk st)
  /\ (pre <> [] -> current_chunk st <> [])
  /\ lines_tokens self (current_chunk st) = inr (current_tokens st)
  /\ match chunks st with
     | [] => cur_start_line st = 1
     | c :: _ => start_line c = 1
     end
  /\ linked start_line (starts_after self) (chunks st) (cur_start_line st)
  /\ linked end_line ends_before (chunks st) (Py.len pre)
  /\ Forall (fun c => file_path c = fp /\ owner c = own /\ repo c = rp) (chunks st)
  /\ (chunk_overlap self = 0 ->
      (pre <> [] -> within_budget self (current_chunk st))
      /\ Forall (fun c => within_budget self (Py.split Py.nl (content c)))
           (chunks st)).

(** The two URLs the crawler requests, for the default branch. *)
Definition listing_url (owner repo : string) : string :=
  "https://api.github.com/repos/" +:+ owner +:+ "/" +:+ repo
    +:+ "/git/trees/" +:+ "main" +:+ "?recursive=1".

Definition raw_url (owner repo file_path : string) : string :=
  "https://raw.githubusercontent.com/" +:+ owner +:+ "/" +:+ repo
    +:+ "/" +:+ "main" +:+ "/" +:+ file_path.

(** The crawler and the chunker that [process_repo_node] builds. *)
Definition crawler_of {E} (pl : Pipeline E) : GitHubRepoCrawler :=
  new_crawler (transport pl) (default_headers pl) (GITHUB_TOKEN pl).

Definition chunker_of {E} (pl : Pipeline E) : CodeChunker :=
  mkCodeChunker 1000 100 (o200k_base pl).

(** The hosting service answers the listing request with [tree]. *)
Definition listed {E} (pl : Pipeline E) (owner repo : string)
    (tree : list TreeItem.t) : Prop :=
  exists resp,
    transport pl (session_headers (crawler_of pl)) (listing_url owner repo) = inr resp
    /\ raise_for_status resp = inr tt
    /\ json_tree resp = inr tree.

(** The listing request fails with [e]: in the transport or in the status
    check. *)
Definition listing_fails {E} (pl : Pipeline E) (owner repo : string)
    (e : Exn) : Prop :=
  transport pl (session_headers (crawler_of pl)) (listing_url owner repo) = inl e
  \/ exists resp,
       transport pl (session_headers (crawler_of pl)) (listing_url owner repo)
         = inr resp
       /\ raise_for_status resp = inl e.

(** The hosting service answers the request for a file with [body]. *)
Definition served {E} (pl : Pipeline E) (owner repo file_path body : string) : Prop :=
  exists resp,
    transport pl (session_headers (crawler_of pl)) (raw_url owner repo file_path)
      = inr resp
    /\ raise_for_status resp = inr tt
    /\ text resp = body.

Definition blobs (tree : list TreeItem.t) : list TreeItem.t :=
  List.filter (fun item => String.eqb (TreeItem.type item) "blob") tree.

(** The chunks of the files [files] whose bodies are given by [fetch],
    the empty files left out; the first file the chunker raises on ends
    it. *)
Fixpoint chunks_of_files {E} (pl : Pipeline E) (owner repo : string)
    (fetch : string -> string) (files : list TreeItem.t) : Result (list Chunk) :=
  match files with
  | [] => inr []
  | f :: files' =>
      match (if str_truthy (fetch (TreeItem.path f))
             then chunk_by_lines (chunker_of pl) (fetch (TreeItem.path f))
                    (TreeItem.path f) owner repo
             else inr []) with
      | inl e => inl e
      | inr cs =>
          match chunks_of_files pl owner repo fetch files' with
          | inl e => inl e
          | inr rest => inr (cs ++ rest)
          end
      end
  end.

(** Every line of every non-empty file is one the tokenizer answers on. *)
Definition files_encode {E} (pl : Pipeline E) (fetch : string -> string)
    (files : list TreeItem.t) : Prop :=
  Forall (fun f => fetch (TreeItem.path f) <> EmptyString ->
                   Forall (encodes (chunker_of pl))
                     (Py.split Py.nl (fetch (TreeItem.path f))))
    files.

(** A computation that raises [e] after making the calls [evs]. *)
Definition raises_after {Ev A} (m : M Ev A) (e : Exn) (evs : list Ev) : Prop :=
  forall t, m t = (inl e, t ++ evs).

(** *** Further stand-ins for running examples *)

(** An embedding service that rejects a request holding an empty text. *)
Definition strict_embedder : EmbeddingGenerator nat :=
  mkEmbeddingGenerator
    (fun _ input =>
       match input with
       | InputStr t => if str_truthy t then inr [String.length t]
                       else inl "Invalid input"
       | InputList ts =>
           if forallb str_truthy ts then inr (map String.length ts)
           else inl "Invalid input"
       end)
    "text-embedding-3-small".

(** A hosting service for the repository [foo/bar] with the given files
    (path and body) under a directory entry. *)
Definition demo_transport (files : list (string * string))
    (headers : gmap string string) (url : string) : Result Response :=
  if String.eqb url (listing_url "foo" "bar")
  then inr (mkResponse (inr tt)
              (inr (TreeItem.mk "src" "tree"
                    :: map (fun f => TreeItem.mk f.1 "blob") files))
              EmptyString)
  else
    match List.find (fun f => String.eqb url (raw_url "foo" "bar" f.1)) files with
    | Some f => inr (mkResponse (inr tt) (inl "Expecting value") f.2)
    | None => inr (mkResponse (inl "404 Client Error: Not Found")
                     (inl "Expecting value") "404: Not Found")
    end.

Definition demo_pipeline (files : list (string * string)) : Pipeline nat :=
  mkPipeline demo_services (demo_transport files) ∅ None guarded_encoding
    (fun _ => false).

Definition offline_pipeline : Pipeline nat :=
  mkPipeline demo_services (fun _ _ => inl "Connection refused") ∅ None
    guarded_encoding (fun _ => false).

Definition demo_fetch (files : list (string * string)) (path : string) : string :=
  match List.find (fun f => String.eqb path f.1) files with
  | Some f => f.2
  | None => EmptyString
  end.

(** The state [process_repository] of the user interface starts a run
    with. *)
Definition process_state (url : string) : RAGState.t nat :=
  RAGState.mk (Some url) (Some false) (Some EmptyString) None None None
    (Some []) None None None (Some "process_repo") (Some false).

(** * Properties *)

(** ** split and join *)

Lemma split_not_nil sep s : Py.split sep s <> [].
Proof.
  destruct s as [|c s]; simpl; [discriminate|].
  destruct (Ascii.eqb c sep); [discriminate|].
  destruct (Py.split sep s); discriminate.
Qed.

Lemma split_no_sep sep s :
  Forall (fun w => Py.contains sep w = false) (Py.split sep s).
Proof.
  induction s as [|c s IH]; simpl.
  - repeat constructor.
  - destruct (Ascii.eqb c sep) eqn:Hc.
    + constructor; [reflexivity | exact IH].
    + destruct (Py.split sep s) as [|w ws]; simpl.
      * repeat constructor. simpl. now rewrite Hc.
      * inversion IH; subst. constructor; [|assumption].
        simpl. rewrite Hc. assumption.
Qed.

Lemma join_cons sep x l :
  l <> [] -> Py.join sep (x :: l) = x +:+ sep +:+ Py.join sep l.
Proof. destruct l; [congruence | reflexivity]. Qed.

Lemma join_split sep s : Py.join (String sep EmptyString) (Py.split sep s) = s.
Proof.
  induction s as [|c s IH]; simpl; [reflexivity|].
  pose proof (split_not_nil sep s) as Hne.
  destruct (Ascii.eqb c sep) eqn:Hc.
  - apply Ascii.eqb_eq in Hc. subst c.
    rewrite join_cons, IH by assumption. reflexivity.
  - destruct (Py.split sep s) as [|w ws]; [congruence|].
    rewrite <- IH. destruct ws; reflexivity.
Qed.

Lemma split_word sep w :
  Py.contains sep w = false -> Py.split sep w = [w].
Proof.
  induction w as [|c w IH]; simpl; [reflexivity|].
  intros H. apply orb_false_iff in H as [Hc Hw].
  rewrite Hc, (IH Hw). reflexivity.
Qed.

Lemma split_word_sep sep w rest :
  Py.contains sep w = false ->
  Py.split sep (w +:+ String sep rest) = w :: Py.split sep rest.
Proof.
  induction w as [|c w IH]; simpl; intros H.
  - now rewrite Ascii.eqb_refl.
  - apply orb_false_iff in H as [Hc Hw].
    rewrite Hc, (IH Hw). reflexivity.
Qed.

Lemma split_join sep l :
  l <> [] -> Forall (fun w => Py.contains sep w = false) l ->
  Py.split sep (Py.join (String sep EmptyString) l) = l.
Proof.
  induction l as [|w l IH]; [congruence|].
  intros _ Hall. inversion Hall as [|? ? Hw Hl]; subst.
  destruct l as [|w' l].
  - simpl. now apply split_word.
  - change (Py.join (String sep EmptyString) (w :: w' :: l))
      with (w +:+ String sep (Py.join (String sep EmptyString) (w' :: l))).
    rewrite split_word_sep by assumption.
    rewrite IH; [reflexivity | discriminate | assumption].
Qed.

(** ** List slices *)

Lemma slice_from_suffix {A} z (l : list A) :
  exists j, (j <= length l)%nat /\ Py.slice_from z l = skipn j l.
Proof.
  unfold Py.slice_from, Py.len. cbv zeta.
  destruct (Z.ltb_spec z 0); (eexists; split; [|reflexivity]); lia.
Qed.

Lemma line_range_spec {A} (l : list A) (k n : nat) :
  Py.slice (Z.of_nat k + 1 - 1) (Z.of_nat (k + n)) l = firstn n (skipn k l).
Proof.
  unfold Py.slice. f_equal; [lia|]. f_equal. lia.
Qed.

Lemma firstn_skipn_prefix {A} (pre post : list A) (k n : nat) :
  (k + n <= length pre)%nat ->
  firstn n (skipn k (pre ++ post)) = firstn n (skipn k pre).
Proof.
  intros H. rewrite skipn_app, firstn_app, length_skipn.
  replace (n - (length pre - k))%nat with 0%nat by lia.
  simpl. now rewrite app_nil_r.
Qed.

Lemma last_end_snoc p cs c : last_end p (cs ++ [c]) = end_line c.
Proof. unfold last_end. now rewrite fold_left_app. Qed.

Lemma dedup_concat_snoc cs : forall p c,
  dedup_concat p (cs ++ [c]) = dedup_concat p cs ++ fresh_lines (last_end p cs) c.
Proof.
  induction cs as [|c0 cs IH]; intros p c; simpl.
  - now rewrite app_nil_r.
  - rewrite IH. now rewrite app_assoc.
Qed.

Lemma chunk_ok_mono pre post c : chunk_ok pre c -> chunk_ok (pre ++ post) c.
Proof.
  unfold chunk_ok, line_range, Py.len. intros (H1 & H2 & H3 & H4).
  rewrite length_app. repeat split; try lia.
  rewrite H4. f_equal. unfold Py.slice.
  apply eq_sym, firstn_skipn_prefix. lia.
Qed.

(** ** The chunker loop *)

Lemma try_sum_from_snoc {A} (f : A -> Result Z) (l : list A) : forall acc x,
  Py.try_sum_from f (l ++ [x]) acc
  = match Py.try_sum_from f l acc with
    | inl e => inl e
    | inr n => match f x with inl e => inl e | inr m => inr (n + m) end
    end.
Proof.
  induction l as [|y l IH]; intros acc x; simpl.
  - destruct (f x); reflexivity.
  - destruct (f y); [reflexivity | apply IH].
Qed.

Lemma count_tokens_nonneg self s n : count_tokens self s = inr n -> 0 <= n.
Proof.
  unfold count_tokens. destruct (encoding self s); [discriminate|].
  intros [= <-]. unfold Py.len. lia.
Qed.

Lemma lines_tokens_snoc self lines line n m :
  lines_tokens self lines = inr n ->
  count_tokens self (line +:+ Py.NL) = inr m ->
  lines_tokens self (lines ++ [line]) = inr (n + m).
Proof.
  unfold lines_tokens, Py.try_sum. intros Hn Hm.
  now rewrite try_sum_from_snoc, Hn, Hm.
Qed.

Lemma lines_tokens_snoc_inv self lines line k :
  lines_tokens self (lines ++ [line]) = inr k ->
  exists n m,
    lines_tokens self lines = inr n
    /\ count_tokens self (line +:+ Py.NL) = inr m
    /\ k = n + m.
Proof.
  unfold lines_tokens, Py.try_sum. rewrite try_sum_from_snoc.
  destruct (Py.try_sum_from _ lines 0) as [e|n]; [discriminate|].
  destruct (count_tokens self (line +:+ Py.NL)) as [e|m]; [discriminate|].
  intros [= <-]. now exists n, m.
Qed.

(** The sum exists exactly when the tokenizer answers on every line. *)
Lemma lines_tokens_encodes self lines :
  Forall (encodes self) lines -> exists n, lines_tokens self lines = inr n.
Proof.
  unfold lines_tokens, Py.try_sum. generalize 0.
  induction lines as [|l lines IH]; intros acc H; simpl.
  - eauto.
  - apply Forall_cons in H as [[n Hn] H]. rewrite Hn. apply IH, H.
Qed.

Lemma lines_tokens_inr self lines n :
  lines_tokens self lines = inr n -> Forall (encodes self) lines.
Proof.
  unfold lines_tokens, Py.try_sum. generalize 0.
  induction lines as [|l lines IH]; intros acc H; simpl in H.
  - constructor.
  - destruct (count_tokens self (l +:+ Py.NL)) as [e|m] eqn:Hm; [discriminate|].
    constructor; [now exists m | exact (IH _ H)].
Qed.

Section ChunkerLoop.

Variables (self : CodeChunker) (fp own rp : string).

Lemma chunk_inv_init : chunk_inv [] (mkLocals [] [] 0 1).
Proof.
  exists 0%nat, 0%nat. simpl. repeat split; auto; try lia. congruence.
Qed.

Lemma truthy_length {A} (l : list A) : Py.truthy l = true -> (0 < length l)%nat.
Proof. destruct l; simpl; [discriminate | lia]. Qed.

Lemma overlap_suffix (cc : list string) :
  exists j, (j <= length cc)%nat /\
    (if chunk_overlap self =? 0 then []
     else Py.slice_from (- chunk_overlap self) cc) = skipn j cc.
Proof.
  destruct (chunk_overlap self =? 0).
  - exists (length cc). split; [lia|]. now rewrite skipn_all.
  - apply slice_from_suffix.
Qed.

(** An iteration returns when the tokenizer has answered on the line and,
    if a chunk is closed, on the lines carried over; this is what it
    returns then. *)
Lemma chunk_step_inr st i line st' :
  chunk_step self fp own rp st (i, line) = inr st' ->
  exists n,
    count_tokens self (line +:+ Py.NL) = inr n
    /\ (((current_tokens st + n >? max_chunk_size self)
           && Py.truthy (current_chunk st) = true
         /\ exists k,
              lines_tokens self
                ((if chunk_overlap self =? 0 then []
                  else Py.slice_from (- chunk_overlap self) (current_chunk st))
                 ++ [line]) = inr k
              /\ st' = mkLocals
                         (chunks st ++ [mkChunk (Py.join Py.NL (current_chunk st)) fp
                                          (cur_start_line st) (i - 1) own rp])
                         ((if chunk_overlap self =? 0 then []
                           else Py.slice_from (- chunk_overlap self)
                                  (current_chunk st)) ++ [line])
                         k
                         (i - Py.len
                                (if chunk_overlap self =? 0 then []
                                 else Py.slice_from (- chunk_overlap self)
                                        (current_chunk st))))
        \/ ((current_tokens st + n >? max_chunk_size self)
              && Py.truthy (current_chunk st) = false
            /\ st' = mkLocals (chunks st) (current_chunk st ++ [line])
                       (current_tokens st + n) (cur_start_line st))).
Proof.
  unfold chunk_step. intros H.
  destruct (count_tokens self (line +:+ Py.NL)) as [e|n]; [discriminate|].
  exists n. split; [reflexivity|].
  destruct ((current_tokens st + n >? max_chunk_size self)
            && Py.truthy (current_chunk st)).
  - left. split; [reflexivity|]. cbv zeta in H. unfold lines_tokens.
    destruct (Py.try_sum _ _) as [e|k]; [discriminate|].
    injection H as <-. now exists k.
  - right. split; [reflexivity|]. now injection H as <-.
Qed.

Lemma chunk_step_keep st i line n :
  count_tokens self (line +:+ Py.NL) = inr n ->
  (current_tokens st + n >? max_chunk_size self)
    && Py.truthy (current_chunk st) = false ->
  chunk_step self fp own rp st (i, line) =
    inr (mkLocals (chunks st) (current_chunk st ++ [line])
           (current_tokens st + n) (cur_start_line st)).
Proof. intros Hn H. unfold chunk_step. now rewrite Hn, H. Qed.

Lemma chunk_step_close st i line n k :
  count_tokens self (line +:+ Py.NL) = inr n ->
  (current_tokens st + n >? max_chunk_size self)
    && Py.truthy (current_chunk st) = true ->
  lines_tokens self
    ((if chunk_overlap self =? 0 then []
      else Py.slice_from (- chunk_overlap self) (current_chunk st)) ++ [line])
  = inr k ->
  chunk_step self fp own rp st (i, line) =
    inr (mkLocals
           (chunks st ++ [mkChunk (Py.join Py.NL (current_chunk st)) fp
                            (cur_start_line st) (i - 1) own rp])
           ((if chunk_overlap self =? 0 then []
             else Py.slice_from (- chunk_overlap self) (current_chunk st))
            ++ [line])
           k
           (i - Py.len (if chunk_overlap self =? 0 then []
                        else Py.slice_from (- chunk_overlap self)
                               (current_chunk st)))).
Proof.
  intros Hn H Hk. unfold chunk_step. rewrite Hn, H. cbv zeta.
  unfold lines_tokens in Hk. now rewrite Hk.
Qed.

(** An iteration returns when the tokenizer answers on its line: the
    lines carried over have been answered on before. *)
Lemma chunk_step_returns st i line :
  encodes self line ->
  Forall (encodes self) (current_chunk st) ->
  exists st',
    chunk_step self fp own rp st (i, line) = inr st'
    /\ Forall (encodes self) (current_chunk st').
Proof.
  intros [n Hn] Hcc.
  destruct ((current_tokens st + n >? max_chunk_size self)
            && Py.truthy (current_chunk st)) eqn:Hcond.
  - assert (Hov : Forall (encodes self)
                    ((if chunk_overlap self =? 0 then []
                      else Py.slice_from (- chunk_overlap self) (current_chunk st))
                     ++ [line])).
    { apply Forall_app. split.
      - destruct (overlap_suffix (current_chunk st)) as (j & _ & ->).
        now apply Forall_drop.
      - apply Forall_singleton. now exists n. }
    destruct (lines_tokens_encodes self _ Hov) as [k Hk].
    eexists. split; [exact (chunk_step_close st i line n k Hn Hcond Hk)|].
    exact Hov.
  - eexists. split; [exact (chunk_step_keep st i line n Hn Hcond)|].
    cbn [current_chunk]. apply Forall_app. split; [exact Hcc|].
    apply Forall_singleton. now exists n.
Qed.

Lemma chunk_loop_returns : forall lines i st,
  Forall (encodes self) lines ->
  Forall (encodes self) (current_chunk st) ->
  exists st',
    for_loop (chunk_step self fp own rp) (Py.enumerate i lines) st = inr st'.
Proof.
  induction lines as [|line lines IH]; intros i st Hl Hcc;
    cbn [Py.enumerate for_loop].
  - eauto.
  - apply Forall_cons in Hl as [Hline Hl].
    destruct (chunk_step_returns st i line Hline Hcc) as (st1 & -> & Hcc1).
    now apply IH.
Qed.

(** The loop is left at the first line the tokenizer raises on. *)
Lemma chunk_loop_raises before bad after e : forall i st,
  Forall (encodes self) before ->
  count_tokens self (bad +:+ Py.NL) = inl e ->
  Forall (encodes self) (current_chunk st) ->
  for_loop (chunk_step self fp own rp) (Py.enumerate i (before ++ bad :: after)) st
  = inl e.
Proof.
  induction before as [|line before IH]; intros i st Hb Hbad Hcc;
    cbn [app Py.enumerate for_loop].
  - unfold chunk_step. now rewrite Hbad.
  - apply Forall_cons in Hb as [Hline Hb].
    destruct (chunk_step_returns st i line Hline Hcc) as (st1 & -> & Hcc1).
    now apply IH.
Qed.

(** A property kept by every iteration that returns holds when the loop
    returns. *)
Lemma chunk_loop_gen (I : list string -> Locals -> Prop) :
  (forall pre line st st',
     Forall no_nl (pre ++ [line]) -> I pre st ->
     chunk_step self fp own rp st (Py.len pre + 1, line) = inr st' ->
     I (pre ++ [line]) st') ->
  forall post pre st st',
    Forall no_nl (pre ++ post) -> I pre st ->
    for_loop (chunk_step self fp own rp) (Py.enumerate (Py.len pre + 1) post) st
    = inr st' ->
    I (pre ++ post) st'.
Proof.
  intros Hstep. induction post as [|line post IH]; intros pre st st' Hnl Hinv Hrun;
    cbn [Py.enumerate for_loop] in Hrun.
  - injection Hrun as <-. now rewrite app_nil_r.
  - destruct (chunk_step self fp own rp st (Py.len pre + 1, line)) as [e|st1] eqn:H1;
      [discriminate|].
    replace (pre ++ line :: post) with ((pre ++ [line]) ++ post) in *
      by now rewrite <- app_assoc.
    replace (Py.len pre + 1 + 1) with (Py.len (pre ++ [line]) + 1) in Hrun
      by (unfold Py.len; rewrite length_app; simpl; lia).
    apply (IH _ st1); [exact Hnl | | exact Hrun].
    apply (Hstep pre line st); [|exact Hinv | exact H1].
    now apply Forall_app in Hnl as [Hnl _].
Qed.

Lemma chunk_step_inv pre line st st' :
  Forall no_nl (pre ++ [line]) ->
  chunk_inv pre st ->
  chunk_step self fp own rp st (Py.len pre + 1, line) = inr st' ->
  chunk_inv (pre ++ [line]) st'.
Proof.
  intros Hnl0 (k & e & Hs & Hk & Hcc & Hne & Hok & Hle & He & Hke & Hd) Hstep.
  assert (Hnl : Forall no_nl pre) by now apply Forall_app in Hnl0 as [Hnl0 _].
  apply chunk_step_inr in Hstep as (n & _ & [(Hcond & ct & _ & ->) | (_ & ->)]).
  - apply andb_true_iff in Hcond as [_ Htr].
    apply truthy_length in Htr. rewrite Hcc, length_skipn in Htr.
    destruct (overlap_suffix (current_chunk st)) as (j & Hj & Hov).
    rewrite Hov. clear Hov.
    rewrite Hcc in *. rewrite length_skipn in Hj. rewrite skipn_skipn.
    exists (j + k)%nat, (length pre). simpl.
    rewrite last_end_snoc, dedup_concat_snoc, Hle, Hd. simpl.
    unfold Py.len. rewrite length_skipn, length_app. simpl.
    repeat split; try lia.
    + rewrite skipn_app. f_equal.
      replace (j + k - length pre)%nat with 0%nat by lia. reflexivity.
    + apply Forall_app. split.
      * eapply Forall_impl; [exact Hok|]. intros c. apply chunk_ok_mono.
      * constructor; [|constructor].
        unfold chunk_ok, line_range, Py.len. simpl. rewrite length_app. simpl.
        repeat split; try lia.
        f_equal. rewrite Hs.
        replace (Z.of_nat (length pre) + 1 - 1) with (Z.of_nat (k + (length pre - k))) by lia.
        rewrite line_range_spec, firstn_skipn_prefix by lia.
        symmetry. apply firstn_all2. rewrite length_skipn. lia.
    + unfold fresh_lines. simpl.
      change (String Py.nl EmptyString) with Py.NL.
      unfold Py.NL. rewrite split_join.
      * rewrite skipn_skipn, Hs.
        replace (Z.to_nat (Z.of_nat e - (Z.of_nat k + 1) + 1) + k)%nat with e by lia.
        rewrite firstn_skipn. rewrite firstn_app.
        replace (length pre - length pre)%nat with 0%nat by lia.
        simpl. rewrite app_nil_r. symmetry. apply firstn_all.
      * intros Hnil. apply (f_equal (@length _)) in Hnil.
        rewrite length_skipn in Hnil. simpl in Hnil. lia.
      * apply Forall_drop. exact Hnl.
  - exists k, e. simpl. rewrite length_app. simpl.
    repeat split; try lia; try assumption.
    + rewrite Hcc, skipn_app.
      replace (k - length pre)%nat with 0%nat by lia. reflexivity.
    + eapply Forall_impl; [exact Hok|]. intros c. apply chunk_ok_mono.
    + rewrite Hd. rewrite firstn_app.
      replace (e - length pre)%nat with 0%nat by lia.
      simpl. now rewrite app_nil_r.
Qed.

(** When [chunk_by_lines] returns, the state after the loop satisfies the
    invariant for the whole file, and the final chunk has been emitted. *)
Lemma chunk_by_lines_unfold text cs :
  let lines := Py.split Py.nl text in
  chunk_by_lines self text fp own rp = inr cs ->
  exists st,
    chunk_inv lines st /\ current_chunk st <> [] /\
    cs = chunks st ++ [mkChunk (Py.join Py.NL (current_chunk st)) fp
                         (cur_start_line st) (Py.len lines) own rp].
Proof.
  intros lines. unfold chunk_by_lines. fold lines.
  destruct (for_loop _ _ _) as [e|st] eqn:Hrun; [discriminate|].
  intros [= <-].
  assert (Hinv : chunk_inv lines st).
  { apply (chunk_loop_gen chunk_inv chunk_step_inv lines [] (mkLocals [] [] 0 1)).
    - apply split_no_sep.
    - apply chunk_inv_init.
    - exact Hrun. }
  assert (Hne : current_chunk st <> []).
  { destruct Hinv as (k & e & _ & _ & Hcc & Hlt & _).
    specialize (Hlt (split_not_nil _ _)).
    intros Hnil. rewrite Hcc in Hnil. apply (f_equal (@length _)) in Hnil.
    rewrite length_skipn in Hnil. simpl in Hnil. lia. }
  exists st. repeat split; try assumption.
  destruct (current_chunk st); [congruence | reflexivity].
Qed.

Lemma chunk_by_lines_ok text cs :
  let lines := Py.split Py.nl text in
  chunk_by_lines self text fp own rp = inr cs ->
  Forall (chunk_ok lines) cs /\ dedup_concat 0 cs = lines.
Proof.
  intros lines Hcs.
  destruct (chunk_by_lines_unfold text cs Hcs) as (st & Hinv & Hne & ->).
  fold lines in Hinv |- *.
  destruct Hinv as (k & e & Hs & Hk & Hcc & Hlt & Hok & Hle & He & Hke & Hd).
  specialize (Hlt (split_not_nil _ _)).
  split.
  - apply Forall_app. split; [exact Hok|].
    constructor; [|constructor].
    unfold chunk_ok, line_range, Py.len. simpl.
    repeat split; try lia.
    f_equal. rewrite Hcc, Hs.
    replace (Z.of_nat (length lines)) with (Z.of_nat (k + (length lines - k))) by lia.
    rewrite line_range_spec.
    symmetry. apply firstn_all2. rewrite length_skipn. lia.
  - rewrite dedup_concat_snoc, Hd, Hle. unfold fresh_lines. simpl.
    unfold Py.NL. rewrite split_join.
    + rewrite Hcc, skipn_skipn, Hs.
      replace (Z.to_nat (Z.of_nat e - (Z.of_nat k + 1) + 1) + k)%nat with e by lia.
      apply firstn_skipn.
    + exact Hne.
    + rewrite Hcc. apply Forall_drop, split_no_sep.
Qed.

(** [chunk_by_lines] returns when the tokenizer answers on every line. *)
Lemma chunk_by_lines_returns text :
  Forall (encodes self) (Py.split Py.nl text) ->
  exists cs, chunk_by_lines self text fp own rp = inr cs.
Proof.
  intros H. unfold chunk_by_lines.
  destruct (chunk_loop_returns _ 1 (mkLocals [] [] 0 1) H) as [st ->];
    [constructor | eauto].
Qed.

(** It raises what the tokenizer raises on the first line it refuses. *)
Lemma chunk_by_lines_raises text before bad after e :
  Py.split Py.nl text = before ++ bad :: after ->
  Forall (encodes self) before ->
  count_tokens self (bad +:+ Py.NL) = inl e ->
  chunk_by_lines self text fp own rp = inl e.
Proof.
  intros Hsplit Hb Hbad. unfold chunk_by_lines. rewrite Hsplit.
  rewrite (chunk_loop_raises before bad after e 1 (mkLocals [] [] 0 1) Hb Hbad);
    [reflexivity | constructor].
Qed.

End ChunkerLoop.

Lemma line_range_length lines a b :
  1 <= a -> a <= b -> b <= Py.len lines ->
  Py.len (line_range lines a b) = b - a + 1.
Proof.
  unfold line_range, Py.slice, Py.len. intros Ha Hab Hb.
  rewrite length_firstn, length_skipn. lia.
Qed.

(** C1 (chunker round-trip).  Every chunk that [chunk_by_lines] returns
    has as [content] the newline-join of the file's lines
    [start_line .. end_line]; dropping from each chunk the leading lines it
    repeats from its predecessor and concatenating gives back the file's
    line sequence, hence the text itself. *)
Theorem chunk_by_lines_round_trip (self : CodeChunker) (text fp own rp : string)
    (cs : list Chunk) :
  chunk_by_lines self text fp own rp = inr cs ->
  let lines := Py.split Py.nl text in
  Forall (fun c => content c
                   = Py.join Py.NL (line_range lines (start_line c) (end_line c))) cs
  /\ dedup_concat 0 cs = lines
  /\ Py.join Py.NL (dedup_concat 0 cs) = text.
Proof.
  intros Hcs lines.
  destruct (chunk_by_lines_ok self fp own rp text cs Hcs) as [Hok Hd].
  fold lines in Hok, Hd.
  split; [|split].
  - eapply Forall_impl; [exact Hok|]. intros c (_ & _ & _ & Hc). exact Hc.
  - exact Hd.
  - rewrite Hd. apply join_split.
Qed.

Lemma chunk_by_lines_round_trip_witness :
  let text := Py.join Py.NL ["abc"; "abc"; "abc"; "abc"] in
  let cs := [mkChunk (Py.join Py.NL ["abc"; "abc"]) "a.py" 1 2 "o" "r";
             mkChunk (Py.join Py.NL ["abc"; "abc"; "abc"]) "a.py" 1 3 "o" "r";
             mkChunk (Py.join Py.NL ["abc"; "abc"; "abc"; "abc"]) "a.py" 1 4 "o" "r"] in
  chunk_by_lines demo_chunker text "a.py" "o" "r" = inr cs
  /\ dedup_concat 0 cs = Py.split Py.nl text
  /\ Py.join Py.NL (dedup_concat 0 cs) = text.
Proof.
  intros text cs.
  assert (H : chunk_by_lines demo_chunker text "a.py" "o" "r" = inr cs)
    by (vm_compute; reflexivity).
  split; [exact H|].
  exact (proj2 (chunk_by_lines_round_trip demo_chunker text "a.py" "o" "r" cs H)).
Defined.

(** C9 (chunker totality), as it holds of the code.  When the tokenizer
    answers on every line of the input, [chunk_by_lines] returns, and
    what it returns holds at least one chunk; for the empty string it is
    exactly one chunk, with empty content, spanning lines 1 to 1. *)
Theorem chunk_by_lines_nonempty (self : CodeChunker) (text fp own rp : string) :
  Forall (encodes self) (Py.split Py.nl text) ->
  exists cs,
    chunk_by_lines self text fp own rp = inr cs
    /\ cs <> []
    /\ (text = EmptyString -> cs = [mkChunk EmptyString fp 1 1 own rp]).
Proof.
  intros Henc.
  destruct (chunk_by_lines_returns self fp own rp text Henc) as [cs Hcs].
  exists cs. split; [exact Hcs|]. split.
  - destruct (chunk_by_lines_unfold self fp own rp text cs Hcs) as (st & _ & _ & ->).
    intros H. apply app_eq_nil in H as [_ H]. discriminate.
  - intros ->. revert Hcs. cbn [Py.split] in Henc.
    apply (proj1 (Forall_singleton _ _)) in Henc as [n Hn].
    unfold chunk_by_lines. cbn [Py.split Py.enumerate for_loop].
    rewrite (chunk_step_keep self fp own rp _ _ _ n Hn) by apply andb_false_r.
    cbn. now intros [= <-].
Qed.

Lemma chunk_by_lines_nonempty_witness :
  Forall (encodes demo_chunker) (Py.split Py.nl EmptyString)
  /\ exists cs,
      chunk_by_lines demo_chunker EmptyString "a.py" "o" "r" = inr cs
      /\ cs <> []
      /\ (EmptyString = EmptyString -> cs = [mkChunk EmptyString "a.py" 1 1 "o" "r"]).
Proof.
  assert (H : Forall (encodes demo_chunker) (Py.split Py.nl EmptyString)).
  { apply Forall_singleton. eexists. vm_compute. reflexivity. }
  split; [exact H|].
  exact (chunk_by_lines_nonempty demo_chunker EmptyString "a.py" "o" "r" H).
Defined.

(** C9, the claim as first stated fails: with an encoder that refuses the
    text of a special token, as the one of tiktoken does, [chunk_by_lines]
    raises on a line holding it and returns no list; so it does not
    return a list for every chunker and every input string. *)
Lemma chunk_by_lines_not_total :
  chunk_by_lines (mkCodeChunker 1000 100 guarded_encoding)
    "print('<|endoftext|>')" "a.py" "o" "r"
  = inl "Encountered text corresponding to disallowed special token '<|endoftext|>'."
  /\ ~ (forall self text fp own rp,
          exists cs, chunk_by_lines self text fp own rp = inr cs /\ cs <> []).
Proof.
  assert (H : chunk_by_lines (mkCodeChunker 1000 100 guarded_encoding)
                "print('<|endoftext|>')" "a.py" "o" "r"
              = inl "Encountered text corresponding to disallowed special token '<|endoftext|>'.")
    by (vm_compute; reflexivity).
  split; [exact H|].
  intros Hall.
  destruct (Hall (mkCodeChunker 1000 100 guarded_encoding)
              "print('<|endoftext|>')" "a.py" "o" "r") as (cs & Hcs & _).
  rewrite H in Hcs. discriminate.
Qed.

(** C10 (line-range invariant).  Every chunk that [chunk_by_lines] returns
    has [1 <= start_line <= end_line <= number of lines of the input], and
    its content splits into [end_line - start_line + 1] lines. *)
Theorem chunk_by_lines_line_range (self : CodeChunker) (text fp own rp : string)
    (cs : list Chunk) :
  chunk_by_lines self text fp own rp = inr cs ->
  let lines := Py.split Py.nl text in
  Forall (fun c =>
            1 <= start_line c /\ start_line c <= end_line c
            /\ end_line c <= Py.len lines
            /\ Py.len (Py.split Py.nl (content c)) = end_line c - start_line c + 1)
    cs.
Proof.
  intros Hcs lines.
  destruct (chunk_by_lines_ok self fp own rp text cs Hcs) as [Hok _].
  fold lines in Hok.
  eapply Forall_impl; [exact Hok|].
  intros c (H1 & H2 & H3 & Hc). repeat split; try assumption.
  rewrite Hc. unfold Py.NL. rewrite split_join.
  - now apply line_range_length.
  - intros Hnil. apply (f_equal Py.len) in Hnil.
    rewrite line_range_length in Hnil by assumption.
    unfold Py.len in Hnil. simpl in Hnil. lia.
  - unfold line_range, Py.slice. apply Forall_take, Forall_drop, split_no_sep.
Qed.

Lemma chunk_by_lines_line_range_witness :
  let text := Py.join Py.NL ["abc"; "abc"; "abc"; "abc"] in
  let cs := [mkChunk (Py.join Py.NL ["abc"; "abc"]) "a.py" 1 2 "o" "r";
             mkChunk (Py.join Py.NL ["abc"; "abc"]) "a.py" 2 3 "o" "r";
             mkChunk (Py.join Py.NL ["abc"; "abc"]) "a.py" 3 4 "o" "r"] in
  chunk_by_lines (mkCodeChunker 10 1 char_encoding) text "a.py" "o" "r" = inr cs
  /\ Forall (fun c =>
               1 <= start_line c /\ start_line c <= end_line c
               /\ end_line c <= Py.len (Py.split Py.nl text)
               /\ Py.len (Py.split Py.nl (content c))
                  = end_line c - start_line c + 1) cs.
Proof.
  intros text cs.
  assert (H : chunk_by_lines (mkCodeChunker 10 1 char_encoding) text "a.py" "o" "r"
              = inr cs) by (vm_compute; reflexivity).
  split; [exact H|].
  exact (chunk_by_lines_line_range (mkCodeChunker 10 1 char_encoding) text
           "a.py" "o" "r" cs H).
Defined.

(** ** The token budget *)

(** C2 (token budget), evaluated on a four-line file.  With the default
    budget of 1000 tokens and the default overlap of 100 lines, four equal
    lines of between 334 and 500 tokens each make [chunk_by_lines] return
    a chunk of three lines whose summed token count exceeds the budget,
    although no single line does. *)
Theorem chunk_by_lines_over_budget (enc : string -> Result (list N))
    (l fp own rp : string) (t : Z) :
  let self := mkCodeChunker 1000 100 enc in
  count_tokens self (l +:+ Py.NL) = inr t ->
  Py.contains Py.nl l = false ->
  334 <= t <= 500 ->
  exists cs c,
    chunk_by_lines self (Py.join Py.NL [l; l; l; l]) fp own rp = inr cs
    /\ In c cs
    /\ Py.split Py.nl (content c) = [l; l; l]
    /\ Forall (fun w => exists n, count_tokens self (w +:+ Py.NL) = inr n
                                  /\ n <= max_chunk_size self)
         (Py.split Py.nl (content c))
    /\ chunk_tokens self c = inr (3 * t)
    /\ max_chunk_size self < 3 * t.
Proof.
  intros self Ht Hnl Hrange.
  assert (Hsplit3 : Py.split Py.nl (Py.join Py.NL [l; l; l]) = [l; l; l]).
  { apply split_join; [discriminate | repeat constructor; assumption]. }
  assert (Hsum3 : lines_tokens self [l; l; l] = inr (0 + t + t + t)).
  { pose proof (lines_tokens_snoc self [] l 0 t eq_refl Ht) as H1.
    pose proof (lines_tokens_snoc self [l] l (0 + t) t H1 Ht) as H2.
    exact (lines_tokens_snoc self [l; l] l (0 + t + t) t H2 Ht). }
  assert (Hsum4 : lines_tokens self [l; l; l; l] = inr (0 + t + t + t + t)).
  { exact (lines_tokens_snoc self [l; l; l] l _ t Hsum3 Ht). }
  assert (Hover : forall n m, n + t > m -> (n + t >? m) && true = true).
  { intros n m H. rewrite Z.gtb_ltb. rewrite andb_true_r. apply Z.ltb_lt. lia. }
  assert (E1 : chunk_step self fp own rp (mkLocals [] [] 0 1) (1, l)
               = inr (mkLocals [] [l] (0 + t) 1)).
  { rewrite (chunk_step_keep self fp own rp _ _ _ t Ht) by apply andb_false_r.
    reflexivity. }
  assert (E2 : chunk_step self fp own rp (mkLocals [] [l] (0 + t) 1) (1 + 1, l)
               = inr (mkLocals [] [l; l] (0 + t + t) 1)).
  { rewrite (chunk_step_keep self fp own rp _ _ _ t Ht); [reflexivity|].
    apply andb_false_iff. left. cbn [current_tokens max_chunk_size self].
    rewrite Z.gtb_ltb. apply Z.ltb_ge. lia. }
  assert (E3 : chunk_step self fp own rp (mkLocals [] [l; l] (0 + t + t) 1)
                 (1 + 1 + 1, l)
               = inr (mkLocals [mkChunk (Py.join Py.NL [l; l]) fp 1 2 own rp]
                        [l; l; l] (0 + t + t + t) 1)).
  { rewrite (chunk_step_close self fp own rp _ _ _ t (0 + t + t + t) Ht);
      [reflexivity | | exact Hsum3].
    cbn [current_tokens current_chunk max_chunk_size self Py.truthy].
    apply Hover. lia. }
  assert (E4 : chunk_step self fp own rp
                 (mkLocals [mkChunk (Py.join Py.NL [l; l]) fp 1 2 own rp]
                    [l; l; l] (0 + t + t + t) 1)
                 (1 + 1 + 1 + 1, l)
               = inr (mkLocals [mkChunk (Py.join Py.NL [l; l]) fp 1 2 own rp;
                                mkChunk (Py.join Py.NL [l; l; l]) fp 1 3 own rp]
                        [l; l; l; l] (0 + t + t + t + t) 1)).
  { rewrite (chunk_step_close self fp own rp _ _ _ t (0 + t + t + t + t) Ht);
      [reflexivity | | exact Hsum4].
    cbn [current_tokens current_chunk max_chunk_size self Py.truthy].
    apply Hover. lia. }
  exists [mkChunk (Py.join Py.NL [l; l]) fp 1 2 own rp;
          mkChunk (Py.join Py.NL [l; l; l]) fp 1 3 own rp;
          mkChunk (Py.join Py.NL [l; l; l; l]) fp 1 4 own rp],
         (mkChunk (Py.join Py.NL [l; l; l]) fp 1 3 own rp).
  split; [|split; [|split; [|split; [|split]]]].
  - unfold chunk_by_lines.
    unfold Py.NL. rewrite split_join
      by (try discriminate; repeat constructor; assumption).
    fold Py.NL. cbn [Py.enumerate for_loop].
    rewrite E1, E2, E3, E4. reflexivity.
  - right. left. reflexivity.
  - exact Hsplit3.
  - cbn [content]. rewrite Hsplit3.
    repeat constructor; exists t; (split; [exact Ht | cbn; lia]).
  - unfold chunk_tokens. cbn [content]. rewrite Hsplit3, Hsum3. f_equal. lia.
  - cbn. lia.
Qed.

Lemma chunk_by_lines_over_budget_witness :
  count_tokens (mkCodeChunker 1000 100 char_encoding) (demo_long_line +:+ Py.NL)
    = inr 400
  /\ Py.contains Py.nl demo_long_line = false
  /\ 334 <= 400 <= 500
  /\ exists cs c,
      chunk_by_lines (mkCodeChunker 1000 100 char_encoding)
        (Py.join Py.NL [demo_long_line; demo_long_line;
                        demo_long_line; demo_long_line]) "a.py" "o" "r" = inr cs
      /\ In c cs
      /\ chunk_tokens (mkCodeChunker 1000 100 char_encoding) c = inr (3 * 400)
      /\ max_chunk_size (mkCodeChunker 1000 100 char_encoding) < 3 * 400.
Proof.
  assert (H0 : count_tokens (mkCodeChunker 1000 100 char_encoding)
                 (demo_long_line +:+ Py.NL) = inr 400) by (vm_compute; reflexivity).
  assert (H1 : Py.contains Py.nl demo_long_line = false) by (vm_compute; reflexivity).
  assert (H2 : 334 <= 400 <= 500) by lia.
  split; [exact H0|]. split; [exact H1|]. split; [exact H2|].
  destruct (chunk_by_lines_over_budget char_encoding demo_long_line "a.py" "o" "r"
              400 H0 H1 H2)
    as (cs & c & Hcs & Hin & _ & _ & Htok & Hgt).
  exists cs, c. repeat split; assumption.
Defined.

(** The same defect on a small scale: a budget of 10 tokens, one token per
    character, four lines of four tokens each.  The second and third
    chunks hold 12 and 16 tokens. *)
Example chunk_by_lines_over_budget_small :
  exists cs,
    chunk_by_lines demo_chunker (Py.join Py.NL ["abc"; "abc"; "abc"; "abc"])
      "a.py" "o" "r" = inr cs
    /\ map (fun c => (start_line c, end_line c, chunk_tokens demo_chunker c)) cs
       = [(1, 2, inr 8); (1, 3, inr 12); (1, 4, inr 16)].
Proof.
  exists [mkChunk (Py.join Py.NL ["abc"; "abc"]) "a.py" 1 2 "o" "r";
          mkChunk (Py.join Py.NL ["abc"; "abc"; "abc"]) "a.py" 1 3 "o" "r";
          mkChunk (Py.join Py.NL ["abc"; "abc"; "abc"; "abc"]) "a.py" 1 4 "o" "r"].
  split; vm_compute; reflexivity.
Qed.

(** ** Collection names *)

Section Sanitize.

Variable uni : ascii -> bool.

Lemma length_append s t :
  String.length (s +:+ t) = (String.length s + String.length t)%nat.
Proof. induction s as [|a s IH]; simpl; [reflexivity | now rewrite IH]. Qed.

Lemma length_str_take n : forall s,
  String.length (Py.str_take n s) = Nat.min n (String.length s).
Proof.
  induction n as [|n IH]; intros [|a s]; simpl; try reflexivity.
  now rewrite IH.
Qed.

Lemma endswith_snoc c s a : Py.endswith c (s +:+ String a EmptyString) = Ascii.eqb a c.
Proof.
  induction s as [|b s IH]; simpl; [reflexivity|].
  destruct (s +:+ String a EmptyString) eqn:Hs; [|exact IH].
  destruct s; discriminate.
Qed.

Lemma length_drop_last s :
  String.length (Py.drop_last s) = (String.length s - 1)%nat.
Proof.
  induction s as [|a s IH]; simpl; [reflexivity|].
  destruct s as [|b s]; [reflexivity|].
  change (String.length (String a (Py.drop_last (String b s))))
    with (S (String.length (Py.drop_last (String b s)))).
  rewrite IH. simpl. lia.
Qed.

Lemma endswith_nonempty c s : Py.endswith c s = true -> (0 < String.length s)%nat.
Proof. destruct s; simpl; [discriminate | lia]. Qed.

Lemma str_all_append p s t :
  Py.str_all p (s +:+ t) = Py.str_all p s && Py.str_all p t.
Proof.
  induction s as [|a s IH]; simpl; [reflexivity|].
  now rewrite IH, andb_assoc.
Qed.

Lemma str_all_filter p s : Py.str_all p (Py.str_filter p s) = true.
Proof.
  induction s as [|a s IH]; simpl; [reflexivity|].
  destruct (p a) eqn:Hp; simpl; [now rewrite Hp|exact IH].
Qed.

Lemma str_all_lstrip p c s :
  Py.str_all p s = true -> Py.str_all p (Py.lstrip c s) = true.
Proof.
  induction s as [|a s IH]; simpl; [reflexivity|].
  intros H. destruct (Ascii.eqb a c); [|exact H].
  apply andb_true_iff in H as [_ H]. now apply IH.
Qed.

Lemma str_all_rstrip p c s :
  Py.str_all p s = true -> Py.str_all p (Py.rstrip c s) = true.
Proof.
  induction s as [|a s IH]; simpl; [reflexivity|].
  intros H. apply andb_true_iff in H as [Ha H]. specialize (IH H).
  destruct (Py.rstrip c s) as [|b r].
  - destruct (Ascii.eqb a c); simpl; [reflexivity | now rewrite Ha].
  - change (p a && Py.str_all p (String b r) = true). now rewrite Ha, IH.
Qed.

Lemma str_all_take p n : forall s,
  Py.str_all p s = true -> Py.str_all p (Py.str_take n s) = true.
Proof.
  induction n as [|n IH]; intros [|a s]; simpl; try reflexivity.
  intros H. apply andb_true_iff in H as [Ha H]. now rewrite Ha, IH.
Qed.

Lemma str_all_drop_last p s :
  Py.str_all p s = true -> Py.str_all p (Py.drop_last s) = true.
Proof.
  induction s as [|a s IH]; simpl; [reflexivity|].
  intros H. apply andb_true_iff in H as [Ha H]. specialize (IH H).
  destruct s as [|b s]; [reflexivity|].
  change (p a && Py.str_all p (Py.drop_last (String b s)) = true).
  now rewrite Ha, IH.
Qed.

Lemma startswith_lstrip c s : Py.startswith c (Py.lstrip c s) = false.
Proof.
  induction s as [|a s IH]; simpl; [reflexivity|].
  destruct (Ascii.eqb a c) eqn:Ha; [exact IH | simpl; exact Ha].
Qed.

Lemma startswith_rstrip c s :
  Py.startswith c s = false -> Py.startswith c (Py.rstrip c s) = false.
Proof.
  destruct s as [|a s]; simpl; [reflexivity|].
  intros Ha. destruct (Py.rstrip c s); [rewrite Ha|]; simpl; exact Ha.
Qed.

Lemma stripped_name_all owner repo :
  Py.str_all (name_char uni) (stripped_name uni owner repo) = true.
Proof.
  unfold stripped_name, Py.strip.
  apply str_all_rstrip, str_all_lstrip.
  apply (str_all_filter (name_char uni)).
Qed.

Lemma stripped_name_start owner repo :
  Py.startswith "_" (stripped_name uni owner repo) = false.
Proof. apply startswith_rstrip, startswith_lstrip. Qed.

(** The steps after [strip('_')], as a function of the stripped name. *)
Lemma sanitize_unfold owner repo :
  sanitize_collection_name uni owner repo =
    let s1 := stripped_name uni owner repo in
    let s2 := if Py.str_len s1 >? 60 then Py.str_take 60 s1 else s1 in
    let s3 := if Py.str_len s2 <? 3 then s2 +:+ "_collection" else s2 in
    if Py.endswith "_" s3 then Py.drop_last s3 +:+ "x" else s3.
Proof. reflexivity. Qed.

(** The three names the specification lists. *)
Lemma sanitize_examples :
  sanitize_collection_name uni "foo" "bar" = "foo_bar"
  /\ sanitize_collection_name uni "a" "b" = "a_b"
  /\ sanitize_collection_name uni "a--b" "c.d" = "a__b_cd".
Proof. repeat split; vm_compute; reflexivity. Qed.

Lemma sanitize_tail_length s1 :
  let s2 := if Py.str_len s1 >? 60 then Py.str_take 60 s1 else s1 in
  let s3 := if Py.str_len s2 <? 3 then s2 +:+ "_collection" else s2 in
  3 <= Py.str_len (if Py.endswith "_" s3 then Py.drop_last s3 +:+ "x" else s3) <= 60.
Proof.
  intros s2 s3.
  assert (H2 : Py.str_len s2 <= 60).
  { subst s2. unfold Py.str_len.
    destruct (Z.gtb_spec (Z.of_nat (String.length s1)) 60);
      [rewrite length_str_take|]; lia. }
  assert (H3 : 3 <= Py.str_len s3 <= 60).
  { subst s3. unfold Py.str_len in *.
    destruct (Z.ltb_spec (Z.of_nat (String.length s2)) 3);
      [rewrite length_append; simpl String.length|]; lia. }
  destruct (Py.endswith "_" s3) eqn:He; [|exact H3].
  unfold Py.str_len in *.
  rewrite length_append, length_drop_last. simpl String.length. lia.
Qed.

(** The result has between 3 and 60 characters. *)
Lemma sanitize_length owner repo :
  3 <= Py.str_len (sanitize_collection_name uni owner repo) <= 60.
Proof. rewrite sanitize_unfold. apply sanitize_tail_length. Qed.

(** The result contains only alphanumeric characters and underscores. *)
Lemma sanitize_charset owner repo :
  Py.str_all (name_char uni) (sanitize_collection_name uni owner repo) = true.
Proof.
  rewrite sanitize_unfold. cbv zeta.
  pose proof (stripped_name_all owner repo) as Hall.
  set (s1 := stripped_name uni owner repo) in *.
  assert (H2 : Py.str_all (name_char uni)
                 (if Py.str_len s1 >? 60 then Py.str_take 60 s1 else s1) = true).
  { destruct (_ >? _); [now apply str_all_take | exact Hall]. }
  set (s2 := if Py.str_len s1 >? 60 then _ else _) in *.
  assert (H3 : Py.str_all (name_char uni)
                 (if Py.str_len s2 <? 3 then s2 +:+ "_collection" else s2) = true).
  { destruct (_ <? _); [|exact H2]. rewrite str_all_append, H2. reflexivity. }
  set (s3 := if Py.str_len s2 <? 3 then _ else _) in *.
  destruct (Py.endswith "_" s3); [|exact H3].
  rewrite str_all_append, str_all_drop_last by exact H3. reflexivity.
Qed.

Lemma fix_trailing_underscore s3 :
  Py.endswith "_" (if Py.endswith "_" s3 then Py.drop_last s3 +:+ "x" else s3) = false.
Proof.
  destruct (Py.endswith "_" s3) eqn:He; [apply endswith_snoc | exact He].
Qed.

(** The result never ends with an underscore. *)
Lemma sanitize_no_trailing_underscore owner repo :
  Py.endswith "_" (sanitize_collection_name uni owner repo) = false.
Proof. rewrite sanitize_unfold. apply fix_trailing_underscore. Qed.

(** When some character survives the filter and the strip, the result
    starts with the first survivor, which is not an underscore. *)
Lemma sanitize_no_leading_underscore owner repo :
  stripped_name uni owner repo <> EmptyString ->
  Py.startswith "_" (sanitize_collection_name uni owner repo) = false.
Proof.
  intros Hne. rewrite sanitize_unfold. cbv zeta.
  pose proof (stripped_name_start owner repo) as Hst.
  destruct (stripped_name uni owner repo) as [|a s1]; [congruence|].
  simpl in Hst.
  assert (H2 : exists r, (if Py.str_len (String a s1) >? 60
                          then Py.str_take 60 (String a s1) else String a s1)
                         = String a r).
  { destruct (_ >? _); eexists; reflexivity. }
  destruct H2 as [r2 ->].
  assert (H3 : exists r, (if Py.str_len (String a r2) <? 3
                          then String a r2 +:+ "_collection" else String a r2)
                         = String a r).
  { destruct (_ <? _); eexists; reflexivity. }
  destruct H3 as [r3 ->].
  destruct (Py.endswith "_" (String a r3)); [|exact Hst].
  destruct r3 as [|b r3]; [reflexivity | exact Hst].
Qed.

(** When nothing survives, the suffix is appended to the empty string. *)
Lemma sanitize_empty owner repo :
  stripped_name uni owner repo = EmptyString ->
  sanitize_collection_name uni owner repo = "_collection".
Proof. intros H. rewrite sanitize_unfold, H. reflexivity. Qed.

End Sanitize.

(** C4 (collection-name postcondition), evaluated on [owner = "-"],
    [repo = "-"].  Every character is turned into an underscore and
    stripped, the suffix [_collection] is appended to the empty string,
    and the returned name starts with an underscore. *)
Theorem sanitize_leading_underscore (uni : ascii -> bool) :
  sanitize_collection_name uni "-" "-" = "_collection"
  /\ Py.startswith "_" (sanitize_collection_name uni "-" "-") = true.
Proof. split; reflexivity. Qed.

(** ** The URL pattern *)

Lemma span_not_app c s : s = (span_not c s).1 +:+ (span_not c s).2.
Proof.
  induction s as [|a s IH]; simpl; [reflexivity|].
  destruct (Ascii.eqb a c); [reflexivity|].
  destruct (span_not c s) as [run rest]. simpl in *. now rewrite <- IH.
Qed.

Lemma span_not_run c s : Py.contains c (span_not c s).1 = false.
Proof.
  induction s as [|a s IH]; simpl; [reflexivity|].
  destruct (Ascii.eqb a c) eqn:Ha; [reflexivity|].
  destruct (span_not c s) as [run rest]. simpl in *. now rewrite Ha.
Qed.

Lemma span_not_rest c s :
  (span_not c s).2 = EmptyString \/ Py.startswith c (span_not c s).2 = true.
Proof.
  induction s as [|a s IH]; simpl; [now left|].
  destruct (Ascii.eqb a c) eqn:Ha; [right; simpl; exact Ha|].
  destruct (span_not c s) as [run rest]. exact IH.
Qed.

Lemma span_not_segment c w rest :
  Py.contains c w = false ->
  rest = EmptyString \/ Py.startswith c rest = true ->
  span_not c (w +:+ rest) = (w, rest).
Proof.
  intros Hw Hrest. induction w as [|a w IH]; simpl in *.
  - destruct Hrest as [->|Hr]; [reflexivity|].
    destruct rest as [|b rest]; [discriminate|]. simpl in *. now rewrite Hr.
  - apply orb_false_iff in Hw as [Ha Hw]. rewrite Ha, (IH Hw). reflexivity.
Qed.

(** A continuation that needs the separator next sees only the longest
    run: every shorter capture leaves a character of the run in front. *)
Lemma greedy_plus_not_sep {R} c s : forall (k : string -> string -> option R),
  (forall cap rest, Py.startswith c rest = false -> k cap rest = None) ->
  greedy_plus_not c k s =
    match span_not c s with
    | (EmptyString, _) => None
    | (run, rest) => k run rest
    end.
Proof.
  induction s as [|a s IH]; intros k Hk; simpl; [reflexivity|].
  destruct (Ascii.eqb a c) eqn:Ha; [reflexivity|].
  rewrite IH by (intros cap rest Hr; now apply Hk).
  pose proof (span_not_app c s) as Happ.
  pose proof (span_not_run c s) as Hrun.
  destruct (span_not c s) as [run rest]. simpl in Happ, Hrun.
  destruct run as [|b run].
  - simpl in Happ. now subst rest.
  - destruct (k (String a (String b run)) rest) eqn:Hkr; [reflexivity|].
    apply Hk. subst s. simpl in *.
    now apply orb_false_iff in Hrun as [Hb _].
Qed.

(** A continuation that always succeeds gets the longest run. *)
Lemma greedy_plus_not_last {R} c s : forall (g : string -> R),
  greedy_plus_not c (fun cap _ => Some (g cap)) s =
    match span_not c s with
    | (EmptyString, _) => None
    | (run, _) => Some (g run)
    end.
Proof.
  induction s as [|a s IH]; intros g; simpl; [reflexivity|].
  destruct (Ascii.eqb a c) eqn:Ha; [reflexivity|].
  rewrite (IH (fun cap => g (String a cap))).
  destruct (span_not c s) as [run rest].
  destruct run; reflexivity.
Qed.

(** What [re.match] computes for the pattern of [validate_url_node], as a
    direct function of the URL [prefix ++ u] once the literal prefix and
    the dot have been consumed. *)
Lemma url_groups_eq (u : string) :
  greedy_plus_not "/"
    (fun cap rest =>
       re_match_at [Lit "/"; GroupPlusNot "/"] rest ([] ++ [cap])) u =
    match span_not "/" u with
    | (EmptyString, _) => None
    | (o, String "/" u') =>
        match span_not "/" u' with
        | (EmptyString, _) => None
        | (r, _) => Some [o; r]
        end
    | (_, _) => None
    end.
Proof.
  rewrite greedy_plus_not_sep.
  - destruct (span_not "/" u) as [o rest].
    destruct o as [|a o]; [reflexivity|].
    pose proof (span_not_rest "/" (String a o +:+ rest)) as Hrest.
    destruct rest as [|b rest]; [reflexivity|].
    cbn [re_match_at].
    destruct (Ascii.eqb_spec b "/") as [->|Hb].
    + cbn [app]. rewrite (greedy_plus_not_last "/" rest (fun cap => [String a o; cap])).
      destruct (span_not "/" rest) as [r rest']. reflexivity.
    + destruct b as [[] [] [] [] [] [] [] []]; try reflexivity. congruence.
  - intros cap [|b rest] Hr; [reflexivity|].
    cbn [re_match_at]. simpl in Hr. now rewrite Hr.
Qed.

Lemma re_match_url_prefix (c : ascii) (u : string) :
  re_match "^https://github.com/([^/]+)/([^/]+)"
    ("https://github" +:+ String c ("com/" +:+ u)) =
    if Ascii.eqb c Py.nl then None
    else greedy_plus_not "/"
           (fun cap rest =>
              re_match_at [Lit "/"; GroupPlusNot "/"] rest ([] ++ [cap])) u.
Proof.
  unfold re_match. cbn [re_compile re_match_at String.append].
  rewrite !Ascii.eqb_refl.
  destruct (Ascii.eqb c Py.nl); reflexivity.
Qed.

Lemma re_match_at_lit c p s g (r : list string) :
  re_match_at (Lit c :: p) s g = Some r ->
  exists s', s = String c s' /\ re_match_at p s' g = Some r.
Proof.
  destruct s as [|a s]; [discriminate|]. cbn [re_match_at].
  destruct (Ascii.eqb_spec a c); [subst a | discriminate]. eauto.
Qed.

Lemma re_match_at_dot p s g (r : list string) :
  re_match_at (Dot :: p) s g = Some r ->
  exists a s', s = String a s' /\ a <> Py.nl /\ re_match_at p s' g = Some r.
Proof.
  destruct s as [|a s]; [discriminate|]. cbn [re_match_at].
  destruct (Ascii.eqb_spec a Py.nl); [discriminate|]. eauto.
Qed.

(** A URL that matches starts with the literal part of the pattern, with
    any character but a newline in the place of the dot. *)
Lemma re_match_url_inv (url : string) (gs : list string) :
  re_match "^https://github.com/([^/]+)/([^/]+)" url = Some gs ->
  exists c u, url = "https://github" +:+ String c ("com/" +:+ u)
              /\ c <> Py.nl.
Proof.
  unfold re_match. cbn [re_compile].
  intros H.
  do 14 (apply re_match_at_lit in H as (? & -> & H)).
  apply re_match_at_dot in H as (c & ? & -> & Hc & H).
  do 4 (apply re_match_at_lit in H as (? & -> & H)).
  eexists c, _. split; [reflexivity | assumption].
Qed.

Lemma segment_run (o : string) : segment o -> exists a o', o = String a o'.
Proof. intros [Hne _]. destruct o as [|a o']; [congruence | eauto]. Qed.

(** The pattern accepts every URL of the shape
    [https://github?com/owner/repo] followed by nothing or by a slash and
    anything, where [?] is any character but a newline; the groups are
    the two segments. *)
Lemma re_match_url_accepts (c : ascii) (o r rest : string) :
  c <> Py.nl -> segment o -> segment r -> trailing rest ->
  re_match "^https://github.com/([^/]+)/([^/]+)"
    ("https://github" +:+ String c ("com/" +:+ o +:+ "/" +:+ r +:+ rest))
  = Some [o; r].
Proof.
  intros Hc Ho Hr Hrest.
  rewrite re_match_url_prefix.
  apply Ascii.eqb_neq in Hc. rewrite Hc.
  rewrite url_groups_eq.
  destruct (segment_run o Ho) as (a & o' & ->).
  destruct Ho as [_ Ho]. destruct Hr as [Hne Hr].
  rewrite span_not_segment; [|exact Ho|right; reflexivity].
  change ("/" +:+ r +:+ rest) with (String "/" (r +:+ rest)). cbv iota.
  rewrite span_not_segment; [|exact Hr|exact Hrest].
  destruct r; [congruence | reflexivity].
Qed.

(** Conversely, a match determines that shape. *)
Lemma re_match_url_sound (url : string) (gs : list string) :
  re_match "^https://github.com/([^/]+)/([^/]+)" url = Some gs ->
  exists c o r rest,
    gs = [o; r] /\ c <> Py.nl /\ segment o /\ segment r /\ trailing rest /\
    url = "https://github" +:+ String c ("com/" +:+ o +:+ "/" +:+ r +:+ rest).
Proof.
  intros H.
  destruct (re_match_url_inv url gs H) as (c & u & -> & Hc).
  rewrite re_match_url_prefix in H.
  pose proof Hc as Hc'. apply Ascii.eqb_neq in Hc'. rewrite Hc' in H.
  rewrite url_groups_eq in H.
  pose proof (span_not_app "/" u) as Happ.
  pose proof (span_not_run "/" u) as Hrun.
  destruct (span_not "/" u) as [o rest1]. simpl in Happ, Hrun.
  destruct o as [|a o]; [discriminate H|].
  destruct rest1 as [|s1 u']; [discriminate H|].
  destruct (Ascii.eqb_spec s1 "/") as [->|Hs1].
  2:{ destruct s1 as [[] [] [] [] [] [] [] []]; try discriminate H. congruence. }
  pose proof (span_not_app "/" u') as Happ'.
  pose proof (span_not_run "/" u') as Hrun'.
  pose proof (span_not_rest "/" u') as Hrest'.
  destruct (span_not "/" u') as [r rest]. simpl in Happ', Hrun', Hrest'.
  destruct r as [|b r]; [discriminate H|].
  injection H as <-.
  exists c, (String a o), (String b r), rest.
  repeat split; try assumption; try discriminate.
  subst u u'. reflexivity.
Qed.

(** A URL [https://github.com/owner/repo], alone or followed by a slash
    and anything, is accepted, and the owner and repository returned are
    exactly its first two path segments. *)
Lemma validate_url_node_accepts {E} (state : RAGState.t E) (o r rest : string) :
  RAGState.repo_url state = Some ("https://github.com/" +:+ o +:+ "/" +:+ r +:+ rest) ->
  segment o -> segment r -> trailing rest ->
  validate_url_node state = inr (url_accepted o r).
Proof.
  intros Hurl Ho Hr Hrest. unfold validate_url_node. rewrite Hurl.
  change ("https://github.com/" +:+ o +:+ "/" +:+ r +:+ rest)
    with ("https://github" +:+ String "." ("com/" +:+ o +:+ "/" +:+ r +:+ rest)).
  rewrite re_match_url_accepts by (assumption || discriminate).
  reflexivity.
Qed.

(** Whatever is accepted has that shape, up to the character in the place
    of the dot: the owner and the repository returned are non-empty, hold
    no slash, and are followed by nothing or by a slash. *)
Lemma validate_url_node_accepted_shape {E} (state : RAGState.t E) (url o r : string) :
  RAGState.repo_url state = Some url ->
  validate_url_node state = inr (url_accepted o r) ->
  exists c rest,
    c <> Py.nl /\ segment o /\ segment r /\ trailing rest /\
    url = "https://github" +:+ String c ("com/" +:+ o +:+ "/" +:+ r +:+ rest).
Proof.
  intros Hurl. unfold validate_url_node. rewrite Hurl.
  destruct (re_match _ url) as [gs|] eqn:Hm; [|discriminate].
  destruct (re_match_url_sound url gs Hm) as (c & o' & r' & rest & -> & Hc & Ho & Hr & Ht & ->).
  intros H. injection H as <- <-. eauto 10.
Qed.

Lemma validate_url_node_rejects {E} (state : RAGState.t E) (url : string) :
  RAGState.repo_url state = Some url ->
  (forall c o r rest,
     c <> Py.nl -> segment o -> segment r -> trailing rest ->
     url <> "https://github" +:+ String c ("com/" +:+ o +:+ "/" +:+ r +:+ rest)) ->
  validate_url_node state = inr url_rejected.
Proof.
  intros Hurl Hno. unfold validate_url_node. rewrite Hurl.
  destruct (re_match _ url) as [gs|] eqn:Hm; [|reflexivity].
  destruct (re_match_url_sound url gs Hm) as (c & o & r & rest & _ & Hc & Ho & Hr & Ht & Heq).
  exfalso. exact (Hno c o r rest Hc Ho Hr Ht Heq).
Qed.

(** C5 (URL validation), evaluated on [https://githubXcom/owner/repo].
    The dot of the pattern is not escaped and stands for any character,
    so a URL whose host is not [github.com] is accepted. *)
Theorem validate_url_node_other_host :
  validate_url_node (url_state "https://githubXcom/owner/repo")
    = inr (url_accepted "owner" "repo")
  /\ String.prefix "https://github.com/" "https://githubXcom/owner/repo" = false.
Proof. split; reflexivity. Qed.

(** What follows the repository name without a slash stays part of the
    second group. *)
Example validate_url_node_keeps_suffix :
  validate_url_node (url_state "https://github.com/owner/repo.git")
    = inr (url_accepted "owner" "repo.git")
  /\ validate_url_node (url_state "https://github.com/owner/repo?tab=readme")
     = inr (url_accepted "owner" "repo?tab=readme").
Proof. split; reflexivity. Qed.

(** ** Batch embedding *)

Lemma firstn_plus {A} (l : list A) (a b : nat) :
  firstn (a + b) l = firstn a l ++ firstn b (skipn a l).
Proof.
  revert l. induction a as [|a IH]; intros [|x l]; simpl; try reflexivity.
  - now rewrite firstn_nil.
  - now rewrite IH.
Qed.

(** The first [m] groups concatenate to the first [m * batch_size] texts. *)
Lemma concat_slices {A} (l : list A) (bs : Z) (m : nat) :
  1 <= bs ->
  concat (map (fun i => Py.slice i (i + bs) l)
            (map (fun k => 0 + Z.of_nat k * bs) (seq 0 m)))
  = firstn (m * Z.to_nat bs) l.
Proof.
  intros Hbs. induction m as [|m IH]; [reflexivity|].
  rewrite seq_S, !map_app, concat_app, IH. simpl.
  rewrite app_nil_r, (Nat.add_comm (Z.to_nat bs)), firstn_plus.
  f_equal. unfold Py.slice. f_equal; [lia|]. f_equal. lia.
Qed.

Lemma range_batches (n bs : Z) :
  1 <= bs -> 0 <= n ->
  exists m : nat,
    range 0 n bs = inr (map (fun k => 0 + Z.of_nat k * bs) (seq 0 m))
    /\ n <= Z.of_nat m * bs /\ (Z.of_nat m - 1) * bs < n.
Proof.
  intros Hbs Hn. unfold range.
  destruct (Z.eqb_spec bs 0); [lia|].
  destruct (Z.ltb_spec 0 bs); [|lia].
  exists (Z.to_nat ((n - 0 + bs - 1) / bs)). split; [reflexivity|].
  assert (Hq : 0 <= (n - 0 + bs - 1) / bs) by (apply Z.div_pos; lia).
  rewrite Z2Nat.id by exact Hq.
  pose proof (Z.mul_div_le (n - 0 + bs - 1) bs ltac:(lia)).
  pose proof (Z.mul_succ_div_gt (n - 0 + bs - 1) bs ltac:(lia)).
  nia.
Qed.

Section BatchEmbeddings.

Context {E : Type}.
Variables (self : EmbeddingGenerator E) (emb : string -> E).
Hypothesis Hapi : api_returns self emb.

Lemma generate_embedding_returns (text : string) :
  returns (generate_embedding self text) (emb text)
    [EvEmbeddingsCreate (model self) (InputStr text)].
Proof.
  intros t. unfold generate_embedding, bind, embeddings_create, call.
  destruct Hapi as [H1 _]. rewrite H1. reflexivity.
Qed.

Lemma batch_step_returns (texts : list string) (bs i : Z) m0 acc evs :
  returns m0 acc evs ->
  returns (batch_step self texts bs m0 i)
    (acc ++ map emb (Py.slice i (i + bs) texts))
    (evs ++ [EvEmbeddingsCreate (model self) (InputList (Py.slice i (i + bs) texts))]).
Proof.
  intros Hm t. unfold batch_step, bind, embeddings_create, call, ret.
  rewrite Hm. destruct Hapi as [_ H2]. rewrite H2. now rewrite app_assoc.
Qed.

Lemma batch_loop_returns (texts : list string) (bs : Z) (idx : list Z) :
  forall m0 acc evs,
  returns m0 acc evs ->
  returns (fold_left (batch_step self texts bs) idx m0)
    (acc ++ map emb (concat (map (fun i => Py.slice i (i + bs) texts) idx)))
    (evs ++ map (fun i => EvEmbeddingsCreate (model self)
                            (InputList (Py.slice i (i + bs) texts))) idx).
Proof.
  induction idx as [|i idx IH]; intros m0 acc evs Hm; simpl.
  - now rewrite !app_nil_r.
  - intros t. rewrite (IH _ _ _ (batch_step_returns texts bs i m0 acc evs Hm)).
    now rewrite map_app, !app_assoc, <- !app_assoc.
Qed.

Lemma batches_partition (texts : list string) (bs : Z) :
  1 <= bs ->
  concat (batches texts bs) = texts
  /\ Forall (fun b => 1 <= Py.len b <= bs) (batches texts bs).
Proof.
  intros Hbs. unfold batches.
  destruct (range_batches (Py.len texts) bs Hbs ltac:(unfold Py.len; lia))
    as (m & -> & Hup & Hlow).
  split.
  - rewrite concat_slices by exact Hbs.
    apply firstn_all2. unfold Py.len in Hup. nia.
  - apply Forall_map, Forall_map, Forall_forall. intros k Hk.
    apply elem_of_seq in Hk. simpl.
    unfold Py.slice, Py.len in *. rewrite length_firstn, length_skipn. nia.
Qed.

End BatchEmbeddings.

(** C6 (batch-embedding order).  When the embedding service answers with
    one vector per input in input order and [batch_size >= 1],
    [generate_batch_embeddings] cuts [texts] into consecutive groups of at
    most [batch_size], calls the service once per group, and returns
    exactly the vectors of [texts] in order: the list that
    [generate_embedding] yields text by text. *)
Theorem generate_batch_embeddings_order {E} (self : EmbeddingGenerator E)
    (emb : string -> E) (texts : list string) (batch_size : Z)
    (t : list (Event E)) :
  api_returns self emb ->
  1 <= batch_size ->
  generate_batch_embeddings self texts batch_size t
    = (inr (map emb texts),
       t ++ map (fun b => EvEmbeddingsCreate (model self) (InputList b))
              (batches texts batch_size))
  /\ concat (batches texts batch_size) = texts
  /\ Forall (fun b => 1 <= Py.len b <= batch_size) (batches texts batch_size)
  /\ length (map emb texts) = length texts
  /\ (forall i text, texts !! i = Some text ->
        map emb texts !! i = Some (emb text)
        /\ (generate_embedding self text t).1 = inr (emb text)).
Proof.
  intros Hapi Hbs.
  destruct (batches_partition texts batch_size Hbs) as [Hcat Hlen].
  split; [|split; [exact Hcat|split; [exact Hlen|split; [apply length_map|]]]].
  - unfold generate_batch_embeddings, bind, lift.
    unfold batches in Hcat |- *.
    destruct (range 0 (Py.len texts) batch_size) as [e|idx] eqn:Hr.
    + destruct (range_batches (Py.len texts) batch_size Hbs
                  ltac:(unfold Py.len; lia)) as (m & Hm & _).
      congruence.
    + rewrite (batch_loop_returns self emb Hapi texts batch_size idx (ret []) [] []).
      * simpl. rewrite Hcat, map_map. reflexivity.
      * intros t'. unfold ret. now rewrite app_nil_r.
  - intros i text Hi. split.
    + rewrite list_lookup_fmap, Hi. reflexivity.
    + now rewrite (generate_embedding_returns self emb Hapi text t).
Qed.

Lemma generate_batch_embeddings_order_witness :
  api_returns demo_embedder String.length
  /\ 1 <= 2
  /\ generate_batch_embeddings demo_embedder ["ab"; "c"; "def"; ""; "ghij"] 2 []
     = (inr [2; 1; 3; 0; 4]%nat,
        [EvEmbeddingsCreate "text-embedding-3-small" (InputList ["ab"; "c"]);
         EvEmbeddingsCreate "text-embedding-3-small" (InputList ["def"; ""]);
         EvEmbeddingsCreate "text-embedding-3-small" (InputList ["ghij"])]).
Proof.
  assert (Hapi : api_returns demo_embedder String.length)
    by (split; intros; reflexivity).
  assert (Hbs : 1 <= 2) by lia.
  split; [exact Hapi|]. split; [exact Hbs|].
  exact (proj1 (generate_batch_embeddings_order demo_embedder String.length
                  ["ab"; "c"; "def"; ""; "ghij"] 2 [] Hapi Hbs)).
Defined.

(** ** Storing chunks *)

Section Store.

Context {E : Type}.
Implicit Types (c : Collection E) (recs : list (string * StoredRecord E)).

Lemma add_record_keeps c x id r :
  c !! id = Some r -> add_record c x !! id = Some r.
Proof.
  intros H. unfold add_record.
  destruct (c !! x.1) eqn:Hx; [exact H|].
  rewrite lookup_insert_ne; [exact H|]. intros Heq. rewrite Heq in Hx. congruence.
Qed.

Lemma add_record_present c x : is_Some (add_record c x !! x.1).
Proof.
  unfold add_record. destruct (c !! x.1) eqn:Hx.
  - rewrite Hx. eauto.
  - rewrite lookup_insert_eq. eauto.
Qed.

Lemma add_records_keep recs : forall c id r,
  c !! id = Some r -> fold_left add_record recs c !! id = Some r.
Proof.
  induction recs as [|x recs IH]; intros c id r H; simpl; [exact H|].
  apply IH. now apply add_record_keeps.
Qed.

Lemma add_records_present recs : forall c id,
  In id (map fst recs) -> is_Some (fold_left add_record recs c !! id).
Proof.
  induction recs as [|x recs IH]; intros c id Hin; cbn [fold_left map In] in *;
    [contradiction|].
  destruct Hin as [<-|Hin]; [|now apply IH].
  destruct (add_record_present c x) as [r Hr].
  exists r. now apply add_records_keep.
Qed.

(** Records whose identifiers are all stored change nothing. *)
Lemma add_records_known recs : forall c,
  (forall id, In id (map fst recs) -> is_Some (c !! id)) ->
  fold_left add_record recs c = c.
Proof.
  induction recs as [|x recs IH]; intros c Hknown; simpl; [reflexivity|].
  assert (Hx : add_record c x = c).
  { unfold add_record. destruct (Hknown x.1) as [r ->]; [now left | reflexivity]. }
  rewrite Hx. apply IH. intros id Hin. apply Hknown. now right.
Qed.

Lemma add_record_count c x : (count c <= count (add_record c x))%nat.
Proof.
  unfold add_record, count. destruct (c !! x.1) eqn:Hx; [lia|].
  rewrite map_size_insert_None by exact Hx. lia.
Qed.

Lemma add_records_count recs : forall c,
  (count c <= count (fold_left add_record recs c))%nat.
Proof.
  induction recs as [|x recs IH]; intros c; simpl; [lia|].
  pose proof (add_record_count c x). pose proof (IH (add_record c x)). lia.
Qed.

Lemma store_chunks_unfold c (chunks : list Chunk) (embeddings : list E) :
  length embeddings = length chunks ->
  exists recs,
    map fst recs = map chunk_id chunks
    /\ store_chunks c chunks embeddings = inr (fold_left add_record recs c).
Proof.
  intros Hlen. unfold store_chunks, collection_add.
  rewrite !length_map, Hlen, !Nat.eqb_refl. simpl.
  eexists. split; [|reflexivity].
  apply fst_zip. rewrite length_zip_with, length_zip, !length_map. lia.
Qed.

End Store.

(** C3 (idempotent ingestion).  Storing a list of chunks never raises,
    whatever the collection holds and whatever identifiers repeat in the
    list; records already stored are kept as they are; and storing the
    same chunks a second time leaves the collection as it is, so the
    record count does not grow. *)
Theorem store_chunks_idempotent {E} (collection : Collection E)
    (chunks : list Chunk) (embeddings embeddings' : list E) :
  length embeddings = length chunks ->
  length embeddings' = length chunks ->
  exists stored again,
    store_chunks collection chunks embeddings = inr stored
    /\ store_chunks stored chunks embeddings' = inr again
    /\ again = stored
    /\ (count again <= count stored)%nat
    /\ (count collection <= count stored)%nat
    /\ (forall id r, collection !! id = Some r -> stored !! id = Some r)
    /\ (forall chunk, In chunk chunks -> is_Some (stored !! chunk_id chunk)).
Proof.
  intros Hlen Hlen'.
  destruct (store_chunks_unfold collection chunks embeddings Hlen)
    as (recs & Hids & Hstore).
  set (stored := fold_left add_record recs collection) in *.
  assert (Hpresent : forall chunk, In chunk chunks ->
            is_Some (stored !! chunk_id chunk)).
  { intros chunk Hin. apply add_records_present. rewrite Hids. now apply in_map. }
  assert (Hagain : store_chunks stored chunks embeddings' = inr stored).
  { destruct (store_chunks_unfold stored chunks embeddings' Hlen')
      as (recs' & Hids' & ->).
    f_equal. apply add_records_known. intros id Hin.
    rewrite Hids' in Hin. apply in_map_iff in Hin as (chunk & <- & Hin).
    now apply Hpresent. }
  exists stored, stored. repeat split.
  - exact Hstore.
  - exact Hagain.
  - lia.
  - apply add_records_count.
  - intros id r. apply add_records_keep.
  - exact Hpresent.
Qed.

Lemma store_chunks_idempotent_witness :
  length [1; 2; 3]%nat = length [demo_chunk_a; demo_chunk_b; demo_chunk_a]
  /\ length [4; 5; 6]%nat = length [demo_chunk_a; demo_chunk_b; demo_chunk_a]
  /\ exists stored again,
      store_chunks ∅ [demo_chunk_a; demo_chunk_b; demo_chunk_a] [1; 2; 3]%nat
        = inr stored
      /\ store_chunks stored [demo_chunk_a; demo_chunk_b; demo_chunk_a] [4; 5; 6]%nat
        = inr again
      /\ again = stored.
Proof.
  split; [reflexivity|]. split; [reflexivity|].
  destruct (store_chunks_idempotent (E:=nat) ∅
              [demo_chunk_a; demo_chunk_b; demo_chunk_a]
              [1; 2; 3]%nat [4; 5; 6]%nat eq_refl eq_refl)
    as (stored & again & H1 & H2 & H3 & _).
  exists stored, again. repeat split; assumption.
Defined.

(** A batch that repeats an identifier stores it once, with the record
    that came first. *)
Example store_chunks_duplicate_in_batch :
  match store_chunks ∅ [demo_chunk_a; demo_chunk_b; demo_chunk_a] [1; 2; 3]%nat with
  | inr stored => (count stored, embedding <$> stored !! "a.py_1_1")
  | inl _ => (0%nat, None)
  end = (2%nat, Some 1%nat).
Proof. vm_compute. reflexivity. Qed.

(** ** Chat turns *)

Section Chat.

Context {E : Type}.
Variable sv : Services E.

(** Whatever the body of the [try] block raises is turned into the
    error dictionary; nothing is raised past the node. *)
Lemma chat_node_body_raises (state : RAGState.t E) m ms t e t1 :
  RAGState.chat_history state = Some (m :: ms) ->
  chat_turn sv state (m :: ms) (List.last ms m) t = (inl e, t1) ->
  chat_node sv state t = (inr (chat_error_result e), t1).
Proof.
  intros Hh Hbody. unfold chat_node, try_except. rewrite Hh, Hbody. reflexivity.
Qed.

Lemma chat_node_never_raises (state : RAGState.t E) t :
  exists result t1, chat_node sv state t = (inr result, t1).
Proof.
  unfold chat_node, try_except.
  destruct (RAGState.chat_history state) as [[|m ms]|]; try (eexists _, _; reflexivity).
  destruct (chat_turn sv state (m :: ms) (List.last ms m) t) as [[e|result] t1]; eauto.
Qed.

Lemma create_or_get_collection_run (name : string) t :
  exists t1,
    create_or_get_collection (chroma_db sv) name t
      = (found_collection (chroma_db sv) name, t1).
Proof.
  unfold create_or_get_collection, try_except, call, found_collection.
  destruct (get_collection (chroma_db sv) name); eauto.
Qed.

Lemma chat_turn_raises (state : RAGState.t E) history last_msg e t :
  step_raises sv state history (Msg.content last_msg) e ->
  exists t1, chat_turn sv state history last_msg t = (inl e, t1).
Proof.
  intros Hstep. unfold chat_turn, generate_embedding, embeddings_create,
    query_similar_code, chat_completions_create, getitem, first, call, ret, raise,
    bind.
  cbn [client model].
  destruct Hstep as [He | x xs name He Hn Hr | x xs name coll docs more He Hn Hc Hq Hchat];
    rewrite He; cbv beta iota.
  - eauto.
  - rewrite Hn.
    destruct (create_or_get_collection_run name
                (t ++ [EvEmbeddingsCreate "text-embedding-3-small"
                         (InputStr (Msg.content last_msg))])) as (t1 & ->).
    destruct Hr as [-> | (coll & -> & ->)]; eauto.
  - rewrite Hn.
    destruct (create_or_get_collection_run name
                (t ++ [EvEmbeddingsCreate "text-embedding-3-small"
                         (InputStr (Msg.content last_msg))])) as (t1 & ->).
    rewrite Hc, Hq. cbn [documents]. rewrite Hchat. eauto.
Qed.

End Chat.

(** C7 (chat-turn error atomicity).  With a non-empty history, when the
    embedding step, the retrieval step or the language-model step raises
    [e], [chat_node] raises nothing: it returns the fixed apology as the
    answer and the non-empty marker ["Error in chat: " + e]; the
    returned dictionary has no [chat_history], so the state's history
    stays as it was. *)
Theorem chat_node_error_atomic {E} (sv : Services E) (state : RAGState.t E)
    (m : Msg.t) (ms : list Msg.t) (e : Exn) (t : list (Event E)) :
  RAGState.chat_history state = Some (m :: ms) ->
  step_raises sv state (m :: ms) (Msg.content (List.last ms m)) e ->
  exists result t1,
    chat_node sv state t = (inr result, t1)
    /\ RAGState.answer result
       = Some "Sorry, I encountered an error while processing your question."
    /\ RAGState.error result = Some ("Error in chat: " +:+ e)
    /\ RAGState.error result <> Some EmptyString
    /\ RAGState.chat_history result = None
    /\ RAGState.chat_history (RAGState.update state result)
       = RAGState.chat_history state.
Proof.
  intros Hh Hstep.
  destruct (chat_turn_raises sv state (m :: ms) (List.last ms m) e t Hstep)
    as (t1 & Hbody).
  exists (chat_error_result e), t1.
  split; [exact (chat_node_body_raises sv state m ms t e t1 Hh Hbody)|].
  repeat split; try reflexivity. discriminate.
Qed.

Lemma chat_node_error_atomic_witness :
  RAGState.chat_history (demo_state (Some [Msg.mk "user" "what is f?"]))
    = Some [Msg.mk "user" "what is f?"]
  /\ step_raises failing_chat_services
       (demo_state (Some [Msg.mk "user" "what is f?"]))
       [Msg.mk "user" "what is f?"] "what is f?" "Connection error."
  /\ exists result t1,
      chat_node failing_chat_services
        (demo_state (Some [Msg.mk "user" "what is f?"])) [] = (inr result, t1)
      /\ RAGState.answer result
         = Some "Sorry, I encountered an error while processing your question."
      /\ RAGState.error result = Some "Error in chat: Connection error."
      /\ RAGState.chat_history result = None.
Proof.
  assert (Hh : RAGState.chat_history (demo_state (Some [Msg.mk "user" "what is f?"]))
               = Some [Msg.mk "user" "what is f?"]) by reflexivity.
  assert (Hstep : step_raises failing_chat_services
                    (demo_state (Some [Msg.mk "user" "what is f?"]))
                    [Msg.mk "user" "what is f?"] "what is f?" "Connection error.").
  { apply (generation_raises _ _ _ _ _ 10%nat [] "foo_bar" ∅
             ["def f(): pass"; "x = 1"] []); reflexivity. }
  split; [exact Hh|]. split; [exact Hstep|].
  destruct (chat_node_error_atomic failing_chat_services
              (demo_state (Some [Msg.mk "user" "what is f?"]))
              (Msg.mk "user" "what is f?") [] "Connection error." [] Hh Hstep)
    as (result & t1 & H1 & H2 & H3 & _ & H5 & _).
  exists result, t1. repeat split; assumption.
Defined.

(** C8 (empty-history greeting).  When [chat_history] is absent or
    empty, [chat_node] returns the greeting, which names
    [owner/repo], as the answer and as the only turn of the returned
    history, and makes no call to the embedding service, the vector store
    or the language model: the trace is unchanged. *)
Theorem chat_node_greeting {E} (sv : Services E) (state : RAGState.t E)
    (t : list (Event E)) :
  RAGState.chat_history state = None \/ RAGState.chat_history state = Some [] ->
  let owner := default EmptyString (RAGState.owner state) in
  let repo := default EmptyString (RAGState.repo state) in
  let greeting :=
    "Hello! I'm ready to help you with questions about the " +:+ owner +:+ "/"
      +:+ repo +:+ " repository. What would you like to know?" in
  exists result,
    chat_node sv state t = (inr result, t)
    /\ RAGState.answer result = Some greeting
    /\ RAGState.chat_history result = Some [Msg.mk "assistant" greeting]
    /\ RAGState.error result = Some EmptyString.
Proof.
  intros Hh owner repo greeting.
  exists (greeting_result owner repo).
  split; [|repeat split].
  unfold chat_node, try_except.
  destruct Hh as [-> | ->]; reflexivity.
Qed.

Lemma chat_node_greeting_witness :
  (RAGState.chat_history (demo_state (Some [])) = None
   \/ RAGState.chat_history (demo_state (Some [])) = Some [])
  /\ exists result,
      chat_node demo_services (demo_state (Some [])) [] = (inr result, [])
      /\ RAGState.answer result
         = Some "Hello! I'm ready to help you with questions about the foo/bar repository. What would you like to know?".
Proof.
  assert (Hh : RAGState.chat_history (demo_state (Some [])) = None
               \/ RAGState.chat_history (demo_state (Some [])) = Some [])
    by (right; reflexivity).
  split; [exact Hh|].
  destruct (chat_node_greeting demo_services (demo_state (Some [])) [] Hh)
    as (result & H1 & H2 & _).
  exists result. split; [exact H1 | exact H2].
Defined.

(** * Further properties *)

(** ** More on the chunker loop *)

Lemma linked_snoc key R cs : forall c nxt,
  linked key R cs (key c) -> R c nxt -> linked key R (cs ++ [c]) nxt.
Proof.
  induction cs as [|c0 cs IH]; intros c nxt Hl Hc; simpl in *.
  - auto.
  - destruct Hl as [H0 Hl]. split; [|now apply IH].
    destruct cs; exact H0.
Qed.

Lemma linked_ends_weaken cs : forall z z',
  z <= z' -> linked end_line ends_before cs z -> linked end_line ends_before cs z'.
Proof.
  induction cs as [|c cs IH]; intros z z' Hz Hl; simpl in *; [exact I|].
  destruct Hl as [Hc Hl]. split; [|now apply (IH z)].
  destruct cs; [unfold ends_before in *; lia | exact Hc].
Qed.

(** Adjacent elements of [cs ++ [c]] are related by [R]. *)
Lemma linked_adjacent key R cs c :
  linked key R cs (key c) ->
  forall i a b, (cs ++ [c]) !! i = Some a -> (cs ++ [c]) !! S i = Some b ->
  R a (key b).
Proof.
  induction cs as [|c0 cs IH]; intros Hl i a b Ha Hb.
  - destruct i; simpl in *; [discriminate Hb | discriminate Ha].
  - simpl in Hl. destruct Hl as [H0 Hl].
    destruct i as [|i]; simpl in Ha, Hb.
    + injection Ha as <-. destruct cs as [|c1 cs]; simpl in *.
      * now injection Hb as <-.
      * now injection Hb as <-.
    + now apply (IH Hl i).
Qed.

Lemma overlap_len_spec self (cc : list string) :
  Py.len (if chunk_overlap self =? 0 then []
          else Py.slice_from (- chunk_overlap self) cc)
  = overlap_len self (Py.len cc).
Proof.
  unfold overlap_len, Py.slice_from, Py.len.
  destruct (chunk_overlap self =? 0); [reflexivity|].
  cbv zeta. rewrite length_skipn.
  destruct (Z.ltb_spec (- chunk_overlap self) 0); lia.
Qed.

(** The sum over a prefix exists when the sum over the whole does, and
    is no larger. *)
Lemma lines_tokens_prefix self (a : list string) : forall b n,
  lines_tokens self (a ++ b) = inr n ->
  exists m, lines_tokens self a = inr m /\ m <= n.
Proof.
  induction b as [|x b IH] using rev_ind; intros n H.
  - rewrite app_nil_r in H. exists n. split; [exact H | lia].
  - rewrite app_assoc in H.
    apply lines_tokens_snoc_inv in H as (n' & k & Hn' & Hk & ->).
    destruct (IH _ Hn') as (m & Hm & Hle).
    apply count_tokens_nonneg in Hk.
    exists m. split; [exact Hm | lia].
Qed.

Lemma chunk_inv2_init self fp own rp :
  chunk_inv2 self fp own rp [] (mkLocals [] [] 0 1).
Proof.
  unfold chunk_inv2, Py.len. simpl.
  repeat split; auto; try lia; try congruence.
Qed.

Lemma chunk_step_inv2 self fp own rp pre line st st' :
  Forall no_nl (pre ++ [line]) ->
  chunk_inv2 self fp own rp pre st ->
  chunk_step self fp own rp st (Py.len pre + 1, line) = inr st' ->
  chunk_inv2 self fp own rp (pre ++ [line]) st'.
Proof.
  intros Hnl (Hs & Hlen & Hcnl & Hne & Htok & Hfirst & Hls & Hle & Hst & Hbud) Hstep.
  apply Forall_app in Hnl as [_ Hline]. apply (proj1 (Forall_singleton _ _)) in Hline.
  assert (Hlen' : Py.len (pre ++ [line]) = Py.len pre + 1)
    by (unfold Py.len; rewrite length_app; simpl; lia).
  apply chunk_step_inr in Hstep as (n & Hn & [(Hcond & k & Hk & ->) | (Hcond & ->)]).
  - (* the chunk is closed *)
    apply andb_true_iff in Hcond as [_ Htr]. apply truthy_length in Htr.
    pose proof (overlap_len_spec self (current_chunk st)) as Hov.
    destruct (overlap_suffix self (current_chunk st)) as (j & Hj & Hsuf).
    set (ovl := if chunk_overlap self =? 0 then []
                else Py.slice_from (- chunk_overlap self) (current_chunk st)) in *.
    assert (Hovle : 0 <= Py.len ovl <= Py.len (current_chunk st)).
    { rewrite Hsuf. unfold Py.len. rewrite length_skipn. lia. }
    assert (Hcc1 : 1 <= Py.len (current_chunk st)) by (unfold Py.len; lia).
    unfold chunk_inv2. cbn [chunks current_chunk current_tokens cur_start_line].
    assert (Hlen2 : Py.len (ovl ++ [line]) = Py.len ovl + 1)
      by (unfold Py.len; rewrite length_app; simpl; lia).
    split; [lia|]. split; [rewrite Hlen2, Hlen'; lia|].
    split; [apply Forall_app; split;
            [rewrite Hsuf; now apply Forall_drop | (apply Forall_singleton; exact Hline)]|].
    split; [intros _ H; now apply app_eq_nil in H as [_ H]|].
    split; [exact Hk|].
    split; [destruct (chunks st); [exact Hfirst | exact Hfirst]|].
    split; [apply linked_snoc; [exact Hls|];
            unfold starts_after; cbn [start_line end_line];
            replace (Py.len pre + 1 - 1 - cur_start_line st + 1)
              with (Py.len (current_chunk st)) by lia;
            rewrite <- Hov; lia|].
    split; [rewrite Hlen'; apply linked_snoc;
            [cbn [end_line]; replace (Py.len pre + 1 - 1) with (Py.len pre) by lia;
             exact Hle
            | unfold ends_before; cbn [end_line]; lia]|].
    split; [apply Forall_app; split; [exact Hst|];
            apply Forall_singleton; cbn; auto|].
    intros Hz. destruct (Hbud Hz) as [Hcur Hcs].
    assert (Hovnil : ovl = []) by (subst ovl; now rewrite Hz).
    split.
    + intros _. rewrite Hovnil. right. reflexivity.
    + apply Forall_app. split; [exact Hcs|]. apply Forall_singleton.
      cbn [content]. unfold Py.NL. rewrite split_join.
      * apply Hcur. intros ->. unfold Py.len in *. simpl in *. lia.
      * intros Hnil. rewrite Hnil in Hcc1. unfold Py.len in Hcc1. simpl in Hcc1. lia.
      * exact Hcnl.
  - (* the line is appended *)
    unfold chunk_inv2. cbn [chunks current_chunk current_tokens cur_start_line].
    split; [exact Hs|].
    split; [unfold Py.len in *; rewrite !length_app; simpl; lia|].
    split; [apply Forall_app; split; [exact Hcnl | (apply Forall_singleton; exact Hline)]|].
    split; [intros _ H; now apply app_eq_nil in H as [_ H]|].
    split; [exact (lines_tokens_snoc self _ line _ n Htok Hn)|].
    split; [exact Hfirst|].
    split; [exact Hls|].
    split; [apply (linked_ends_weaken _ (Py.len pre)); [lia | exact Hle]|].
    split; [exact Hst|].
    intros Hz. destruct (Hbud Hz) as [Hcur Hcs]. split; [|exact Hcs].
    intros _. apply andb_false_iff in Hcond as [Hc|Hc].
    + left. exists (current_tokens st + n).
      split; [exact (lines_tokens_snoc self _ line _ n Htok Hn)|].
      rewrite Z.gtb_ltb in Hc. apply Z.ltb_ge in Hc. exact Hc.
    + right. destruct (current_chunk st); [reflexivity | discriminate].
Qed.

Lemma chunk_by_lines_unfold2 self fp own rp text cs :
  let lines := Py.split Py.nl text in
  chunk_by_lines self text fp own rp = inr cs ->
  exists st,
    chunk_inv2 self fp own rp lines st /\ current_chunk st <> [] /\
    cs = chunks st ++ [mkChunk (Py.join Py.NL (current_chunk st)) fp
                         (cur_start_line st) (Py.len lines) own rp].
Proof.
  intros lines. unfold chunk_by_lines. fold lines.
  destruct (for_loop _ _ _) as [e|st] eqn:Hrun; [discriminate|].
  intros [= <-].
  assert (Hinv : chunk_inv2 self fp own rp lines st).
  { apply (chunk_loop_gen self fp own rp (chunk_inv2 self fp own rp)
             (chunk_step_inv2 self fp own rp) lines [] (mkLocals [] [] 0 1)).
    - apply split_no_sep.
    - apply chunk_inv2_init.
    - exact Hrun. }
  assert (Hne : current_chunk st <> []).
  { destruct Hinv as (_ & _ & _ & Hne & _). apply Hne, split_not_nil. }
  exists st. split; [exact Hinv|]. split; [exact Hne|].
  destruct (current_chunk st); [congruence | reflexivity].
Qed.

(** Every chunk returned carries the path, owner and repository it was
    made for. *)
Theorem chunk_by_lines_stamped (self : CodeChunker) (text fp own rp : string)
    (cs : list Chunk) :
  chunk_by_lines self text fp own rp = inr cs ->
  Forall (fun c => file_path c = fp /\ owner c = own /\ repo c = rp) cs.
Proof.
  intros Hcs.
  destruct (chunk_by_lines_unfold2 self fp own rp text cs Hcs) as (st & Hinv & _ & ->).
  destruct Hinv as (_ & _ & _ & _ & _ & _ & _ & _ & Hst & _).
  apply Forall_app. split; [exact Hst|].
  apply Forall_singleton. cbn. auto.
Qed.

Lemma chunk_by_lines_stamped_witness :
  let text := Py.join Py.NL ["abc"; "abc"; "abc"; "abc"] in
  let cs := [mkChunk (Py.join Py.NL ["abc"; "abc"]) "a.py" 1 2 "o" "r";
             mkChunk (Py.join Py.NL ["abc"; "abc"; "abc"]) "a.py" 1 3 "o" "r";
             mkChunk (Py.join Py.NL ["abc"; "abc"; "abc"; "abc"]) "a.py" 1 4 "o" "r"] in
  chunk_by_lines demo_chunker text "a.py" "o" "r" = inr cs
  /\ Forall (fun c => file_path c = "a.py" /\ owner c = "o" /\ repo c = "r") cs.
Proof.
  intros text cs.
  assert (H : chunk_by_lines demo_chunker text "a.py" "o" "r" = inr cs)
    by (vm_compute; reflexivity).
  split; [exact H|].
  exact (chunk_by_lines_stamped demo_chunker text "a.py" "o" "r" cs H).
Defined.

(** The first chunk returned starts at line 1 and the last one ends at
    the last line. *)
Theorem chunk_by_lines_first_last (self : CodeChunker) (text fp own rp : string)
    (cs : list Chunk) :
  chunk_by_lines self text fp own rp = inr cs ->
  start_line <$> head cs = Some 1
  /\ end_line <$> last cs = Some (Py.len (Py.split Py.nl text)).
Proof.
  intros Hcs.
  destruct (chunk_by_lines_unfold2 self fp own rp text cs Hcs) as (st & Hinv & _ & ->).
  destruct Hinv as (_ & _ & _ & _ & _ & Hfirst & _).
  split.
  - destruct (chunks st) as [|c cs']; simpl in *; now rewrite Hfirst.
  - now rewrite last_snoc.
Qed.

Lemma chunk_by_lines_first_last_witness :
  let text := Py.join Py.NL ["abc"; "abc"; "abc"; "abc"] in
  let cs := [mkChunk (Py.join Py.NL ["abc"; "abc"]) "a.py" 1 2 "o" "r";
             mkChunk (Py.join Py.NL ["abc"; "abc"]) "a.py" 2 3 "o" "r";
             mkChunk (Py.join Py.NL ["abc"; "abc"]) "a.py" 3 4 "o" "r"] in
  chunk_by_lines (mkCodeChunker 10 1 char_encoding) text "a.py" "o" "r" = inr cs
  /\ start_line <$> head cs = Some 1
  /\ end_line <$> last cs = Some (Py.len (Py.split Py.nl text)).
Proof.
  intros text cs.
  assert (H : chunk_by_lines (mkCodeChunker 10 1 char_encoding) text "a.py" "o" "r"
              = inr cs) by (vm_compute; reflexivity).
  split; [exact H|].
  exact (chunk_by_lines_first_last (mkCodeChunker 10 1 char_encoding) text
           "a.py" "o" "r" cs H).
Defined.

(** Consecutive chunks: the end lines strictly increase, and with a
    non-negative [chunk_overlap] the next chunk starts
    [min(chunk_overlap, number of lines of the previous chunk)] lines
    before the line after the previous chunk's end. *)
Theorem chunk_by_lines_adjacent (self : CodeChunker) (text fp own rp : string)
    (cs : list Chunk) (i : nat) (a b : Chunk) :
  0 <= chunk_overlap self ->
  chunk_by_lines self text fp own rp = inr cs ->
  cs !! i = Some a ->
  cs !! S i = Some b ->
  end_line a < end_line b
  /\ start_line b
     = end_line a + 1 - Z.min (chunk_overlap self) (end_line a - start_line a + 1).
Proof.
  intros Hov Hcs Ha0.
  assert (Hrange : start_line a <= end_line a).
  { destruct (chunk_by_lines_ok self fp own rp text cs Hcs) as [Hok _].
    apply (Forall_lookup_1 _ _ _ _ Hok) in Ha0. destruct Ha0 as (_ & H & _). exact H. }
  revert Ha0.
  destruct (chunk_by_lines_unfold2 self fp own rp text cs Hcs) as (st & Hinv & _ & ->).
  destruct Hinv as (_ & _ & _ & _ & _ & _ & Hls & Hle & _).
  intros Ha Hb.
  set (final := mkChunk _ _ _ _ _ _) in *.
  split.
  - exact (linked_adjacent end_line ends_before (chunks st) final Hle i a b Ha Hb).
  - pose proof (linked_adjacent start_line (starts_after self) (chunks st) final
                  Hls i a b Ha Hb) as H.
    unfold starts_after, overlap_len in H. rewrite H.
    destruct (Z.eqb_spec (chunk_overlap self) 0) as [Hz|Hz]; [lia|].
    destruct (Z.ltb_spec (- chunk_overlap self) 0); lia.
Qed.

Lemma chunk_by_lines_adjacent_witness :
  let text := Py.join Py.NL ["abc"; "abc"; "abc"; "abc"] in
  let cs := [mkChunk (Py.join Py.NL ["abc"; "abc"]) "a.py" 1 2 "o" "r";
             mkChunk (Py.join Py.NL ["abc"; "abc"]) "a.py" 2 3 "o" "r";
             mkChunk (Py.join Py.NL ["abc"; "abc"]) "a.py" 3 4 "o" "r"] in
  0 <= chunk_overlap (mkCodeChunker 10 1 char_encoding)
  /\ chunk_by_lines (mkCodeChunker 10 1 char_encoding) text "a.py" "o" "r" = inr cs
  /\ cs !! 0%nat = Some (mkChunk (Py.join Py.NL ["abc"; "abc"]) "a.py" 1 2 "o" "r")
  /\ cs !! 1%nat = Some (mkChunk (Py.join Py.NL ["abc"; "abc"]) "a.py" 2 3 "o" "r")
  /\ 2 < 3 /\ 2 = 2 + 1 - Z.min 1 (2 - 1 + 1).
Proof.
  intros text cs.
  assert (H0 : 0 <= chunk_overlap (mkCodeChunker 10 1 char_encoding))
    by (simpl; lia).
  assert (H : chunk_by_lines (mkCodeChunker 10 1 char_encoding) text "a.py" "o" "r"
              = inr cs) by (vm_compute; reflexivity).
  assert (Ha : cs !! 0%nat
               = Some (mkChunk (Py.join Py.NL ["abc"; "abc"]) "a.py" 1 2 "o" "r"))
    by reflexivity.
  assert (Hb : cs !! 1%nat
               = Some (mkChunk (Py.join Py.NL ["abc"; "abc"]) "a.py" 2 3 "o" "r"))
    by reflexivity.
  split; [exact H0|]. split; [exact H|]. split; [exact Ha|]. split; [exact Hb|].
  exact (chunk_by_lines_adjacent (mkCodeChunker 10 1 char_encoding) text
           "a.py" "o" "r" cs 0%nat _ _ H0 H Ha Hb).
Defined.

(** While the lines fit the budget together the loop only appends. *)
Lemma chunk_loop_fits self fp own rp : forall post pre m n,
  lines_tokens self pre = inr m ->
  lines_tokens self (pre ++ post) = inr n ->
  n <= max_chunk_size self ->
  for_loop (chunk_step self fp own rp) (Py.enumerate (Py.len pre + 1) post)
    (mkLocals [] pre m 1)
  = inr (mkLocals [] (pre ++ post) n 1).
Proof.
  induction post as [|line post IH]; intros pre m n Hpre Hall Hfit;
    cbn [Py.enumerate for_loop].
  - rewrite app_nil_r in Hall |- *. rewrite Hpre in Hall. now injection Hall as <-.
  - replace (pre ++ line :: post) with ((pre ++ [line]) ++ post) in *
      by now rewrite <- app_assoc.
    destruct (lines_tokens_prefix self _ _ _ Hall) as (m' & Hm' & Hle).
    destruct (lines_tokens_snoc_inv self _ _ _ Hm') as (m0 & k & Hm0 & Hk & ->).
    rewrite Hpre in Hm0. injection Hm0 as <-.
    rewrite (chunk_step_keep self fp own rp _ _ _ k Hk).
    + cbn [chunks current_chunk current_tokens cur_start_line].
      replace (Py.len pre + 1 + 1) with (Py.len (pre ++ [line]) + 1)
        by (unfold Py.len; rewrite length_app; simpl; lia).
      now apply IH.
    + cbn [current_tokens]. apply andb_false_iff. left.
      rewrite Z.gtb_ltb. apply Z.ltb_ge. lia.
Qed.

(** A file whose lines fit the budget together gives one chunk holding
    the whole text. *)
Theorem chunk_by_lines_single (self : CodeChunker) (text fp own rp : string)
    (n : Z) :
  lines_tokens self (Py.split Py.nl text) = inr n ->
  n <= max_chunk_size self ->
  chunk_by_lines self text fp own rp
  = inr [mkChunk text fp 1 (Py.len (Py.split Py.nl text)) own rp].
Proof.
  intros Hsum Hfit. unfold chunk_by_lines.
  set (lines := Py.split Py.nl text) in *.
  pose proof (chunk_loop_fits self fp own rp lines [] 0 n eq_refl Hsum Hfit) as Hrun.
  change (Py.len (@nil string) + 1) with 1 in Hrun. cbn [app] in Hrun.
  rewrite Hrun. cbn [current_chunk chunks cur_start_line app].
  pose proof (split_not_nil Py.nl text) as Hne. fold lines in Hne.
  destruct lines as [|l ls] eqn:Hl; [congruence|].
  cbn [Py.truthy]. rewrite <- Hl. subst lines. unfold Py.NL.
  now rewrite join_split.
Qed.

Lemma chunk_by_lines_single_witness :
  lines_tokens demo_chunker (Py.split Py.nl "x = 1") = inr 6
  /\ 6 <= max_chunk_size demo_chunker
  /\ chunk_by_lines demo_chunker "x = 1" "a.py" "o" "r"
     = inr [mkChunk "x = 1" "a.py" 1 1 "o" "r"].
Proof.
  assert (H : lines_tokens demo_chunker (Py.split Py.nl "x = 1") = inr 6)
    by (vm_compute; reflexivity).
  assert (H' : 6 <= max_chunk_size demo_chunker) by (vm_compute; discriminate).
  split; [exact H|]. split; [exact H'|].
  exact (chunk_by_lines_single demo_chunker "x = 1" "a.py" "o" "r" 6 H H').
Defined.

(** Without overlap the budget is kept: every chunk returned is within
    [max_chunk_size] by the per-line sum, or is a single line. *)
Theorem chunk_by_lines_budget_no_overlap (self : CodeChunker)
    (text fp own rp : string) (cs : list Chunk) :
  chunk_overlap self = 0 ->
  chunk_by_lines self text fp own rp = inr cs ->
  Forall (fun c => (exists n, chunk_tokens self c = inr n /\ n <= max_chunk_size self)
                   \/ length (Py.split Py.nl (content c)) = 1%nat)
    cs.
Proof.
  intros Hz Hcs.
  destruct (chunk_by_lines_unfold2 self fp own rp text cs Hcs)
    as (st & Hinv & Hne & ->).
  destruct Hinv as (_ & _ & Hcnl & _ & _ & _ & _ & _ & _ & Hbud).
  destruct (Hbud Hz) as [Hcur Hcs'].
  apply Forall_app. split; [exact Hcs'|].
  apply Forall_singleton. unfold chunk_tokens. cbn [content].
  unfold Py.NL. rewrite split_join by assumption.
  apply Hcur, split_not_nil.
Qed.

Lemma chunk_by_lines_budget_no_overlap_witness :
  let text := Py.join Py.NL ["abc"; "abc"; "abc"; "a long line of text"] in
  let cs := [mkChunk (Py.join Py.NL ["abc"; "abc"]) "a.py" 1 2 "o" "r";
             mkChunk "abc" "a.py" 3 3 "o" "r";
             mkChunk "a long line of text" "a.py" 4 4 "o" "r"] in
  chunk_overlap (mkCodeChunker 10 0 char_encoding) = 0
  /\ chunk_by_lines (mkCodeChunker 10 0 char_encoding) text "a.py" "o" "r" = inr cs
  /\ Forall (fun c => (exists n, chunk_tokens (mkCodeChunker 10 0 char_encoding) c
                                 = inr n
                                 /\ n <= max_chunk_size
                                           (mkCodeChunker 10 0 char_encoding))
                      \/ length (Py.split Py.nl (content c)) = 1%nat)
       cs.
Proof.
  intros text cs.
  assert (H : chunk_overlap (mkCodeChunker 10 0 char_encoding) = 0) by reflexivity.
  assert (Hcs : chunk_by_lines (mkCodeChunker 10 0 char_encoding) text
                  "a.py" "o" "r" = inr cs) by (vm_compute; reflexivity).
  split; [exact H|]. split; [exact Hcs|].
  exact (chunk_by_lines_budget_no_overlap (mkCodeChunker 10 0 char_encoding) text
           "a.py" "o" "r" cs H Hcs).
Defined.

(** ** Chunk identifiers *)

Lemma contains_app c s t :
  Py.contains c (s +:+ t) = Py.contains c s || Py.contains c t.
Proof.
  induction s as [|a s IH]; simpl; [reflexivity|].
  now rewrite IH, orb_assoc.
Qed.

(** The text after the last separator determines the split. *)
Lemma app_sep_inj c a : forall b x y,
  Py.contains c x = false -> Py.contains c y = false ->
  a +:+ String c x = b +:+ String c y -> a = b /\ x = y.
Proof.
  induction a as [|a0 a IH]; intros [|b0 b] x y Hx Hy H; simpl in H.
  - injection H as ->. auto.
  - injection H as <- ->. rewrite contains_app in Hx. simpl in Hx.
    rewrite Ascii.eqb_refl, orb_true_r in Hx. discriminate.
  - injection H as -> <-. rewrite contains_app in Hy. simpl in Hy.
    rewrite Ascii.eqb_refl, orb_true_r in Hy. discriminate.
  - injection H as -> H. destruct (IH b x y Hx Hy H) as [-> ->]. auto.
Qed.

Lemma string_of_uint_no_underscore d :
  Py.contains "_" (NilEmpty.string_of_uint d) = false.
Proof. induction d; simpl; auto. Qed.

Lemma str_of_int_no_underscore n : Py.contains "_" (Py.str_of_int n) = false.
Proof.
  unfold Py.str_of_int, NilZero.string_of_int, NilZero.string_of_uint.
  destruct (Z.to_int n) as [d|d]; destruct d; simpl;
    try reflexivity; apply string_of_uint_no_underscore.
Qed.

Lemma str_of_int_inj a b : Py.str_of_int a = Py.str_of_int b -> a = b.
Proof.
  unfold Py.str_of_int. intros H.
  assert (Hnorm : forall z, NilZero.int_of_string (NilZero.string_of_int (Z.to_int z))
                            = Some (Z.to_int z)).
  { intros z. apply NilZero.isi.
    - destruct z as [|p|p]; simpl; try discriminate.
      intros [= Hp]. now apply (DecimalPos.Unsigned.to_uint_nonnil p).
    - destruct z as [|p|p]; simpl; try discriminate.
      intros [= Hp]. now apply (DecimalPos.Unsigned.to_uint_nonnil p). }
  pose proof (Hnorm a) as Ha. rewrite H, Hnorm in Ha.
  injection Ha as Ha. apply (f_equal Z.of_int) in Ha.
  now rewrite !DecimalZ.of_to in Ha.
Qed.

Lemma chunk_id_inj_aux (a b : Chunk) :
  chunk_id a = chunk_id b ->
  file_path a = file_path b /\ start_line a = start_line b
  /\ end_line a = end_line b.
Proof.
  unfold chunk_id. intros H.
  change (?x +:+ "_" +:+ ?y +:+ "_" +:+ ?z)
    with (x +:+ String "_" (y +:+ String "_" z)) in H.
  assert (Hassoc : forall x y z, x +:+ String "_" (y +:+ String "_" z)
                                 = (x +:+ String "_" y) +:+ String "_" z).
  { intros x y z. induction x as [|c x IH]; simpl; [reflexivity | now rewrite IH]. }
  rewrite !Hassoc in H.
  apply app_sep_inj in H as [H He]; try apply str_of_int_no_underscore.
  apply app_sep_inj in H as [Hp Hs]; try apply str_of_int_no_underscore.
  apply str_of_int_inj in He, Hs. auto.
Qed.

(** Two chunks with the same identifier have the same path and the same
    line range. *)
Theorem chunk_id_inj (a b : Chunk) :
  chunk_id a = chunk_id b ->
  file_path a = file_path b /\ start_line a = start_line b
  /\ end_line a = end_line b.
Proof. apply chunk_id_inj_aux. Qed.

Lemma chunk_id_inj_witness :
  chunk_id demo_chunk_a = chunk_id (mkChunk "other text" "a.py" 1 1 "x" "y")
  /\ file_path demo_chunk_a = "a.py".
Proof.
  assert (H : chunk_id demo_chunk_a
              = chunk_id (mkChunk "other text" "a.py" 1 1 "x" "y")) by reflexivity.
  split; [exact H|].
  exact (proj1 (chunk_id_inj demo_chunk_a _ H)).
Defined.

Lemma linked_ends_sorted cs : forall z,
  linked end_line ends_before cs z ->
  Forall (fun c => end_line c < z) cs
  /\ NoDup (map end_line cs)
  /\ match cs with
     | [] => True
     | c :: _ => Forall (fun c' => end_line c <= end_line c') cs
     end.
Proof.
  induction cs as [|c cs IH]; intros z Hl; simpl in Hl.
  - repeat split; constructor.
  - destruct Hl as [Hc Hl]. destruct (IH z Hl) as (Hlt & Hnd & Hmin).
    unfold ends_before in Hc.
    assert (Hall : Forall (fun c' => end_line c < end_line c') cs).
    { destruct cs as [|c1 cs]; [constructor|].
      eapply Forall_impl; [exact Hmin|]. intros c' Hc'. simpl in Hc'. lia. }
    split; [|split].
    + constructor; [|exact Hlt].
      destruct cs as [|c1 cs]; [exact Hc|].
      inversion Hlt; subst. lia.
    + simpl. apply NoDup_cons. split; [|exact Hnd].
      intros Hin. apply list_elem_of_In, in_map_iff in Hin as (c' & Heq & Hin).
      rewrite Forall_forall in Hall. apply list_elem_of_In in Hin.
      specialize (Hall c' Hin). lia.
    + constructor; [lia|].
      eapply Forall_impl; [exact Hall|]. intros c' Hc'. simpl in Hc'. lia.
Qed.

Lemma NoDup_map_finer {A B C} (f : A -> B) (g : A -> C) (l : list A) :
  (forall a b, g a = g b -> f a = f b) ->
  NoDup (map f l) -> NoDup (map g l).
Proof.
  intros Hfg. induction l as [|x l IH]; simpl; intros Hnd; [constructor|].
  apply NoDup_cons in Hnd as [Hx Hnd].
  apply NoDup_cons. split; [|now apply IH].
  intros Hin. apply list_elem_of_In, in_map_iff in Hin as (y & Heq & Hin).
  apply Hx. apply list_elem_of_In, in_map_iff.
  exists y. split; [now apply Hfg | exact Hin].
Qed.

Lemma chunk_ids_nodup (self : CodeChunker) (text fp own rp : string)
    (cs : list Chunk) :
  chunk_by_lines self text fp own rp = inr cs ->
  NoDup (map chunk_id cs).
Proof.
  intros Hcs.
  apply (NoDup_map_finer end_line chunk_id).
  { intros a b H. now apply chunk_id_inj_aux in H as (_ & _ & H). }
  destruct (chunk_by_lines_unfold2 self fp own rp text cs Hcs) as (st & Hinv & _ & ->).
  destruct Hinv as (_ & _ & _ & _ & _ & _ & _ & Hle & _).
  destruct (linked_ends_sorted _ _ Hle) as (Hlt & Hnd & _).
  rewrite map_app. apply NoDup_app. split; [exact Hnd|].
  split; [|simpl; apply NoDup_singleton].
  intros x Hx Hx'. apply list_elem_of_In in Hx. apply in_map_iff in Hx as (c & <- & Hc).
  simpl in Hx'. apply list_elem_of_singleton in Hx'.
  rewrite Forall_forall in Hlt. apply list_elem_of_In in Hc.
  specialize (Hlt c Hc). lia.
Qed.

(** The chunks returned for one file have pairwise different identifiers,
    so none of them is dropped as a duplicate of another. *)
Theorem chunk_by_lines_ids_distinct (self : CodeChunker) (text fp own rp : string)
    (cs : list Chunk) (i j : nat) (a b : Chunk) :
  chunk_by_lines self text fp own rp = inr cs ->
  cs !! i = Some a ->
  cs !! j = Some b ->
  chunk_id a = chunk_id b -> i = j.
Proof.
  intros Hcs Ha Hb Hid.
  pose proof (chunk_ids_nodup self text fp own rp cs Hcs) as Hnd.
  apply (NoDup_lookup _ i j (chunk_id a) Hnd).
  - now rewrite list_lookup_fmap, Ha.
  - now rewrite list_lookup_fmap, Hb, Hid.
Qed.

Lemma chunk_by_lines_ids_distinct_witness :
  let text := Py.join Py.NL ["abc"; "abc"; "abc"; "abc"] in
  let cs := [mkChunk (Py.join Py.NL ["abc"; "abc"]) "a.py" 1 2 "o" "r";
             mkChunk (Py.join Py.NL ["abc"; "abc"; "abc"]) "a.py" 1 3 "o" "r";
             mkChunk (Py.join Py.NL ["abc"; "abc"; "abc"; "abc"]) "a.py" 1 4 "o" "r"] in
  chunk_by_lines demo_chunker text "a.py" "o" "r" = inr cs
  /\ cs !! 1%nat
     = Some (mkChunk (Py.join Py.NL ["abc"; "abc"; "abc"]) "a.py" 1 3 "o" "r")
  /\ chunk_id (mkChunk (Py.join Py.NL ["abc"; "abc"; "abc"]) "a.py" 1 3 "o" "r")
     = "a.py_1_3"
  /\ 1%nat = 1%nat.
Proof.
  intros text cs.
  assert (Hcs : chunk_by_lines demo_chunker text "a.py" "o" "r" = inr cs)
    by (vm_compute; reflexivity).
  assert (H : cs !! 1%nat
              = Some (mkChunk (Py.join Py.NL ["abc"; "abc"; "abc"]) "a.py" 1 3 "o" "r"))
    by reflexivity.
  split; [exact Hcs|]. split; [exact H|]. split; [vm_compute; reflexivity|].
  exact (chunk_by_lines_ids_distinct demo_chunker text "a.py" "o" "r" cs
           1%nat 1%nat _ _ Hcs H H eq_refl).
Defined.

(** ** Storing chunks with fresh identifiers *)

Section StoreFresh.

Context {E : Type}.

Lemma add_records_fresh (recs : list (string * StoredRecord E)) :
  forall c : Collection E,
  NoDup (map fst recs) ->
  (forall id, In id (map fst recs) -> c !! id = None) ->
  count (fold_left add_record recs c) = (count c + length recs)%nat
  /\ (forall x, In x recs -> fold_left add_record recs c !! x.1 = Some x.2).
Proof.
  induction recs as [|x recs IH]; intros c Hnd Hfresh; simpl.
  - split; [lia | contradiction].
  - simpl in Hnd. apply NoDup_cons in Hnd as [Hx Hnd].
    rewrite list_elem_of_In in Hx.
    assert (Hadd : add_record c x = <[x.1 := x.2]> c).
    { unfold add_record. rewrite Hfresh; [reflexivity | now left]. }
    rewrite Hadd.
    destruct (IH (<[x.1 := x.2]> c) Hnd) as [Hcount Hlook].
    { intros id Hin. rewrite lookup_insert_ne.
      - apply Hfresh. now right.
      - intros Heq. apply Hx. now rewrite Heq. }
    split.
    + rewrite Hcount. unfold count. rewrite map_size_insert_None; [lia|].
      apply Hfresh. now left.
    + intros y [<-|Hy]; [|now apply Hlook].
      apply add_records_keep. apply lookup_insert_eq.
Qed.

Lemma store_chunks_records (c : Collection E) (chunks : list Chunk)
    (embeddings : list E) :
  length embeddings = length chunks ->
  exists recs,
    store_chunks c chunks embeddings = inr (fold_left add_record recs c)
    /\ map fst recs = map chunk_id chunks
    /\ length recs = length chunks
    /\ (forall i chunk e, chunks !! i = Some chunk -> embeddings !! i = Some e ->
          In (chunk_id chunk, mkStoredRecord (content chunk) e chunk) recs).
Proof.
  intros Hlen. unfold store_chunks, collection_add.
  rewrite !length_map, Hlen, !Nat.eqb_refl. simpl.
  eexists. split; [reflexivity|]. split; [|split].
  - apply fst_zip. rewrite length_zip_with, length_zip, !length_map. lia.
  - rewrite length_zip, length_zip_with, length_zip, !length_map. lia.
  - intros i chunk e Hc He. apply list_elem_of_In, list_elem_of_lookup. exists i.
    apply lookup_zip_with_Some. eexists _, _. split; [reflexivity|].
    split; [now rewrite list_lookup_fmap, Hc|].
    apply lookup_zip_with_Some. eexists _, (e, chunk). split; [reflexivity|].
    split; [now rewrite list_lookup_fmap, Hc|].
    apply lookup_zip_with_Some. eexists _, _. eauto.
Qed.

End StoreFresh.

(** Chunks with pairwise different identifiers, none of them stored yet,
    are all stored: the count grows by their number and every chunk is
    found under its identifier with its own text and vector. *)
Theorem store_chunks_fresh {E} (collection : Collection E)
    (chunks : list Chunk) (embeddings : list E) :
  length embeddings = length chunks ->
  NoDup (map chunk_id chunks) ->
  (forall chunk, In chunk chunks -> collection !! chunk_id chunk = None) ->
  exists stored,
    store_chunks collection chunks embeddings = inr stored
    /\ count stored = (count collection + length chunks)%nat
    /\ (forall i chunk e,
          chunks !! i = Some chunk -> embeddings !! i = Some e ->
          stored !! chunk_id chunk = Some (mkStoredRecord (content chunk) e chunk)).
Proof.
  intros Hlen Hnd Hfresh.
  destruct (store_chunks_records collection chunks embeddings Hlen)
    as (recs & Hstore & Hids & Hn & Hin).
  destruct (add_records_fresh recs collection) as [Hcount Hlook].
  { now rewrite Hids. }
  { intros id Hid. rewrite Hids in Hid. apply in_map_iff in Hid as (ch & <- & Hch).
    now apply Hfresh. }
  eexists. split; [exact Hstore|]. split; [now rewrite Hcount, Hn|].
  intros i chunk e Hc He. exact (Hlook _ (Hin i chunk e Hc He)).
Qed.

Lemma store_chunks_fresh_witness :
  length [1; 2]%nat = length [demo_chunk_a; demo_chunk_b]
  /\ NoDup (map chunk_id [demo_chunk_a; demo_chunk_b])
  /\ (forall chunk, In chunk [demo_chunk_a; demo_chunk_b] ->
        (∅ : Collection nat) !! chunk_id chunk = None)
  /\ exists stored,
      store_chunks ∅ [demo_chunk_a; demo_chunk_b] [1; 2]%nat = inr stored
      /\ count stored = 2%nat.
Proof.
  assert (H1 : length [1; 2]%nat = length [demo_chunk_a; demo_chunk_b]) by reflexivity.
  assert (H2 : NoDup (map chunk_id [demo_chunk_a; demo_chunk_b])).
  { vm_compute. apply NoDup_cons. split; [|apply NoDup_singleton].
    intros Hin. apply list_elem_of_singleton in Hin. discriminate Hin. }
  assert (H3 : forall chunk, In chunk [demo_chunk_a; demo_chunk_b] ->
                 (∅ : Collection nat) !! chunk_id chunk = None)
    by (intros; apply lookup_empty).
  split; [exact H1|]. split; [exact H2|]. split; [exact H3|].
  destruct (store_chunks_fresh (E:=nat) ∅ [demo_chunk_a; demo_chunk_b] [1; 2]%nat
              H1 H2 H3) as (stored & Hs & Hc & _).
  exists stored. split; [exact Hs | exact Hc].
Defined.

(** Storing the chunks returned for one file in an empty collection
    stores every one of them. *)
Theorem store_file_chunks {E} (self : CodeChunker) (text fp own rp : string)
    (cs : list Chunk) (embeddings : list E) :
  chunk_by_lines self text fp own rp = inr cs ->
  length embeddings = length cs ->
  exists stored,
    store_chunks ∅ cs embeddings = inr stored
    /\ count stored = length cs.
Proof.
  intros Hcs Hlen.
  destruct (store_chunks_records (E:=E) ∅ cs embeddings Hlen)
    as (recs & Hstore & Hids & Hn & _).
  destruct (add_records_fresh recs ∅) as [Hcount _].
  { rewrite Hids. exact (chunk_ids_nodup self text fp own rp cs Hcs). }
  { intros id _. apply lookup_empty. }
  eexists. split; [exact Hstore|].
  rewrite Hcount, Hn. unfold count. now rewrite map_size_empty.
Qed.

Lemma store_file_chunks_witness :
  let text := Py.join Py.NL ["abc"; "abc"; "abc"; "abc"] in
  let cs := [mkChunk (Py.join Py.NL ["abc"; "abc"]) "a.py" 1 2 "o" "r";
             mkChunk (Py.join Py.NL ["abc"; "abc"; "abc"]) "a.py" 1 3 "o" "r";
             mkChunk (Py.join Py.NL ["abc"; "abc"; "abc"; "abc"]) "a.py" 1 4 "o" "r"] in
  chunk_by_lines demo_chunker text "a.py" "o" "r" = inr cs
  /\ length [1; 2; 3]%nat = length cs
  /\ exists stored,
      store_chunks ∅ cs [1; 2; 3]%nat = inr stored
      /\ count stored = 3%nat.
Proof.
  intros text cs.
  assert (Hcs : chunk_by_lines demo_chunker text "a.py" "o" "r" = inr cs)
    by (vm_compute; reflexivity).
  assert (H : length [1; 2; 3]%nat = length cs) by reflexivity.
  split; [exact Hcs|]. split; [exact H|].
  destruct (store_file_chunks (E:=nat) demo_chunker text "a.py" "o" "r" cs
              [1; 2; 3]%nat Hcs H) as (stored & Hs & Hc).
  exists stored. split; [exact Hs | exact Hc].
Defined.

(** ** Edge cases of batch embedding *)

(** A zero [batch_size] raises the error of [range] before any call. *)
Theorem generate_batch_embeddings_zero {E} (self : EmbeddingGenerator E)
    (texts : list string) (t : list (Event E)) :
  generate_batch_embeddings self texts 0 t
  = (inl "range() arg 3 must not be zero", t).
Proof. reflexivity. Qed.

(** A negative [batch_size] makes the loop empty: nothing is sent and the
    result is the empty list, whatever [texts] holds. *)
Theorem generate_batch_embeddings_negative {E} (self : EmbeddingGenerator E)
    (texts : list string) (batch_size : Z) (t : list (Event E)) :
  batch_size < 0 ->
  generate_batch_embeddings self texts batch_size t = (inr [], t).
Proof.
  intros Hneg. unfold generate_batch_embeddings, bind, lift, range.
  destruct (Z.eqb_spec batch_size 0); [lia|].
  destruct (Z.ltb_spec 0 batch_size); [lia|].
  assert (Hq : (0 - Py.len texts - batch_size - 1) / - batch_size < 1).
  { apply Z.div_lt_upper_bound; unfold Py.len; lia. }
  replace (Z.to_nat ((0 - Py.len texts - batch_size - 1) / - batch_size))
    with 0%nat by lia.
  reflexivity.
Qed.

Lemma generate_batch_embeddings_negative_witness :
  -1 < 0
  /\ generate_batch_embeddings demo_embedder ["ab"; "c"] (-1) [] = (inr [], []).
Proof.
  assert (H : -1 < 0) by lia.
  split; [exact H|].
  exact (generate_batch_embeddings_negative demo_embedder ["ab"; "c"] (-1) [] H).
Defined.

(** A computation that raises [e] after making the calls [evs]. *)
Lemma batch_step_raised {E} (self : EmbeddingGenerator E) texts bs i
    (m0 : M (Event E) (list E)) e evs :
  (forall t, m0 t = (inl e, t ++ evs)) ->
  forall t, batch_step self texts bs m0 i t = (inl e, t ++ evs).
Proof. intros Hm t. unfold batch_step, bind. now rewrite Hm. Qed.

Lemma batch_loop_raised {E} (self : EmbeddingGenerator E) texts bs idx :
  forall (m0 : M (Event E) (list E)) e evs,
  (forall t, m0 t = (inl e, t ++ evs)) ->
  forall t, fold_left (batch_step self texts bs) idx m0 t = (inl e, t ++ evs).
Proof.
  induction idx as [|i idx IH]; intros m0 e evs Hm t; simpl; [apply Hm|].
  apply IH. now apply batch_step_raised.
Qed.

Lemma batch_loop_ok {E} (self : EmbeddingGenerator E) texts bs idx :
  Forall (fun i => exists data,
            client self (model self) (InputList (Py.slice i (i + bs) texts))
            = inr data) idx ->
  forall (m0 : M (Event E) (list E)) acc evs,
  returns m0 acc evs ->
  exists acc',
    returns (fold_left (batch_step self texts bs) idx m0) acc'
      (evs ++ map (fun i => EvEmbeddingsCreate (model self)
                              (InputList (Py.slice i (i + bs) texts))) idx).
Proof.
  induction idx as [|i idx IH]; intros Hok m0 acc evs Hm; simpl.
  - exists acc. now rewrite app_nil_r.
  - apply Forall_cons in Hok as [[data Hd] Hok].
    destruct (IH Hok (batch_step self texts bs m0 i) (acc ++ data)
                (evs ++ [EvEmbeddingsCreate (model self)
                           (InputList (Py.slice i (i + bs) texts))])) as [acc' Hacc].
    { intros t. unfold batch_step, bind, embeddings_create, call, ret.
      cbv zeta. rewrite Hm, Hd. now rewrite <- app_assoc. }
    exists acc'. intros t. rewrite Hacc. now rewrite <- app_assoc.
Qed.

(** A failure in one group aborts the whole batch: when the service
    answers the groups before [failed] and raises [e] on [failed], the
    result is [e], no vector is returned, and the groups after [failed]
    are never sent. *)
Theorem generate_batch_embeddings_aborts {E} (self : EmbeddingGenerator E)
    (texts : list string) (batch_size : Z) (before after : list (list string))
    (failed : list string) (e : Exn) (t : list (Event E)) :
  1 <= batch_size ->
  batches texts batch_size = before ++ failed :: after ->
  Forall (fun b => exists data,
            client self (model self) (InputList b) = inr data) before ->
  client self (model self) (InputList failed) = inl e ->
  generate_batch_embeddings self texts batch_size t
  = (inl e, t ++ map (fun b => EvEmbeddingsCreate (model self) (InputList b))
                     (before ++ [failed])).
Proof.
  intros Hbs Hsplit Hbefore Hfail.
  unfold generate_batch_embeddings, bind, lift. unfold batches in Hsplit.
  destruct (range_batches (Py.len texts) batch_size Hbs
              ltac:(unfold Py.len; lia)) as (m & Hr & _).
  rewrite Hr in Hsplit |- *.
  set (idx := map (fun k => 0 + Z.of_nat k * batch_size) (seq 0 m)) in *.
  apply map_eq_app in Hsplit as (i1 & i23 & Hidx & H1 & H23).
  apply map_eq_cons in H23 as (i & i2 & -> & Hi & H2).
  rewrite Hidx, fold_left_app. cbn [fold_left].
  destruct (batch_loop_ok self texts batch_size i1) with (m0 := ret (Ev:=Event E) (@nil E))
    (acc := @nil E) (evs := @nil (Event E)) as [acc Hacc].
  { rewrite Forall_forall. intros j Hj.
    rewrite Forall_forall in Hbefore. apply Hbefore.
    rewrite <- H1. apply list_elem_of_In.
    apply (in_map (fun i => Py.slice i (i + batch_size) texts)).
    now apply list_elem_of_In. }
  { intros t'. unfold ret. now rewrite app_nil_r. }
  rewrite (batch_loop_raised self texts batch_size i2 _ e
             (map (fun b => EvEmbeddingsCreate (model self) (InputList b))
                (before ++ [failed]))).
  - reflexivity.
  - intros t'. unfold batch_step, bind, embeddings_create, call.
    cbv zeta. rewrite Hacc. rewrite Hi, Hfail. cbn [app].
    rewrite map_app, <- H1, map_map. cbn [map]. now rewrite app_assoc.
Qed.

Lemma generate_batch_embeddings_aborts_witness :
  1 <= 2
  /\ batches ["ab"; "c"; ""; "d"; "e"] 2 = [["ab"; "c"]] ++ [""; "d"] :: [["e"]]
  /\ Forall (fun b => exists data,
               client strict_embedder (model strict_embedder) (InputList b)
               = inr data) [["ab"; "c"]]
  /\ client strict_embedder (model strict_embedder) (InputList [""; "d"])
     = inl "Invalid input"
  /\ generate_batch_embeddings strict_embedder ["ab"; "c"; ""; "d"; "e"] 2 []
     = (inl "Invalid input",
        [EvEmbeddingsCreate "text-embedding-3-small" (InputList ["ab"; "c"]);
         EvEmbeddingsCreate "text-embedding-3-small" (InputList [""; "d"])]).
Proof.
  assert (H1 : 1 <= 2) by lia.
  assert (H2 : batches ["ab"; "c"; ""; "d"; "e"] 2
               = [["ab"; "c"]] ++ [""; "d"] :: [["e"]]) by reflexivity.
  assert (H3 : Forall (fun b => exists data,
                         client strict_embedder (model strict_embedder) (InputList b)
                         = inr data) [["ab"; "c"]]).
  { apply Forall_singleton. eexists. reflexivity. }
  assert (H4 : client strict_embedder (model strict_embedder) (InputList [""; "d"])
               = inl "Invalid input") by reflexivity.
  split; [exact H1|]. split; [exact H2|]. split; [exact H3|]. split; [exact H4|].
  exact (generate_batch_embeddings_aborts strict_embedder ["ab"; "c"; ""; "d"; "e"] 2
           [["ab"; "c"]] [["e"]] [""; "d"] "Invalid input" [] H1 H2 H3 H4).
Defined.

(** ** The crawler *)

(** The session of a new crawler always asks for the v3 JSON format; it
    carries an [Authorization] header of its own exactly when the token
    is a non-empty string. *)
Theorem new_crawler_headers transport default_headers (token : option string) :
  let headers := session_headers (new_crawler transport default_headers token) in
  headers !! "Accept" = Some "application/vnd.github.v3+json"
  /\ headers !! "Authorization"
     = match token with
       | Some (String a tk) => Some ("token " +:+ String a tk)
       | _ => default_headers !! "Authorization"
       end.
Proof.
  unfold new_crawler. cbn [session_headers]. split.
  - apply lookup_insert_eq.
  - rewrite lookup_insert_ne by discriminate.
    destruct token as [[|a tk]|]; cbn [str_truthy]; try reflexivity.
    apply lookup_insert_eq.
Qed.

Lemma within_run {Ev Ev' A} (f : Ev -> Ev') (m : M Ev A) r evs t :
  m [] = (r, evs) -> within f m t = (r, t ++ map f evs).
Proof. intros H. unfold within. now rewrite H. Qed.

Section Crawl.

Context {E : Type}.
Variable pl : Pipeline E.
Variables owner repo : string.

Lemma get_files_listed tree :
  listed pl owner repo tree ->
  returns (get_files (crawler_of pl) owner repo "main") (blobs tree)
    [EvSessionGet (session_headers (crawler_of pl)) (listing_url owner repo)].
Proof.
  intros (resp & Hget & Hst & Htree) t.
  unfold get_files, bind, call, lift, ret. cbv zeta.
  change (session_get (crawler_of pl)) with (transport pl).
  fold (listing_url owner repo). rewrite Hget, Hst, Htree. reflexivity.
Qed.

Lemma get_files_fails e :
  listing_fails pl owner repo e ->
  raises_after (get_files (crawler_of pl) owner repo "main") e
    [EvSessionGet (session_headers (crawler_of pl)) (listing_url owner repo)].
Proof.
  intros [Hget | (resp & Hget & Hst)] t;
    unfold get_files, bind, call, lift, ret; cbv zeta;
    change (session_get (crawler_of pl)) with (transport pl);
    fold (listing_url owner repo); rewrite Hget; [reflexivity|].
  now rewrite Hst.
Qed.

Lemma get_file_content_served file_path body :
  served pl owner repo file_path body ->
  returns (get_file_content (crawler_of pl) owner repo file_path "main") body
    [EvSessionGet (session_headers (crawler_of pl)) (raw_url owner repo file_path)].
Proof.
  intros (resp & Hget & Hst & Htext) t.
  unfold get_file_content, bind, call, lift, ret. cbv zeta.
  change (session_get (crawler_of pl)) with (transport pl).
  fold (raw_url owner repo file_path). rewrite Hget, Hst, Htext. reflexivity.
Qed.

Lemma files_loop_returns (fetch : string -> string) (files : list TreeItem.t) :
  Forall (fun f => served pl owner repo (TreeItem.path f) (fetch (TreeItem.path f)))
    files ->
  forall cs m0 acc evs,
  chunks_of_files pl owner repo fetch files = inr cs ->
  returns m0 acc evs ->
  returns (fold_left (file_step (crawler_of pl) (chunker_of pl) owner repo) files m0)
    (acc ++ cs)
    (evs ++ map (fun f => EvSessionGet (session_headers (crawler_of pl)) (raw_url owner repo (TreeItem.path f)))
              files).
Proof.
  induction files as [|f files IH]; intros Hserved cs m0 acc evs Hcs Hm.
  - injection Hcs as <-. simpl. now rewrite !app_nil_r.
  - apply Forall_cons in Hserved as [Hf Hserved].
    cbn [chunks_of_files] in Hcs.
    destruct (if str_truthy (fetch (TreeItem.path f))
              then chunk_by_lines (chunker_of pl) (fetch (TreeItem.path f))
                     (TreeItem.path f) owner repo
              else inr []) as [e|c1] eqn:Hc1; [discriminate|].
    destruct (chunks_of_files pl owner repo fetch files) as [e|rest] eqn:Hrest;
      [discriminate|].
    injection Hcs as <-.
    cbn [fold_left]. intros t.
    rewrite (IH Hserved rest _ (acc ++ c1)
               (evs ++ [EvSessionGet (session_headers (crawler_of pl))
                          (raw_url owner repo (TreeItem.path f))]) eq_refl).
    + cbn [map]. now rewrite <- !app_assoc.
    + intros t'. unfold file_step, bind. rewrite Hm.
      rewrite (get_file_content_served _ _ Hf).
      destruct (str_truthy (fetch (TreeItem.path f))).
      * unfold lift. rewrite Hc1. unfold ret. now rewrite <- app_assoc.
      * injection Hc1 as <-. unfold ret. now rewrite app_nil_r, <- app_assoc.
Qed.

(** Once a file has made the loop raise, no later file is fetched. *)
Lemma files_loop_raised (files : list TreeItem.t) :
  forall m0 e t t',
  m0 t = (inl e, t') ->
  fold_left (file_step (crawler_of pl) (chunker_of pl) owner repo) files m0 t
  = (inl e, t').
Proof.
  induction files as [|f files IH]; intros m0 e t t' Hm; cbn [fold_left];
    [exact Hm|].
  apply IH. unfold file_step, bind. now rewrite Hm.
Qed.

(** A non-empty file the chunker raises on ends the loop with that
    exception, after the fetch of that file. *)
Lemma files_loop_raises (fetch : string -> string)
    (before after : list TreeItem.t) (f : TreeItem.t) (cs : list Chunk) (e : Exn) :
  Forall (fun f => served pl owner repo (TreeItem.path f) (fetch (TreeItem.path f)))
    (before ++ [f]) ->
  chunks_of_files pl owner repo fetch before = inr cs ->
  fetch (TreeItem.path f) <> EmptyString ->
  chunk_by_lines (chunker_of pl) (fetch (TreeItem.path f)) (TreeItem.path f)
    owner repo = inl e ->
  fold_left (file_step (crawler_of pl) (chunker_of pl) owner repo)
    (before ++ f :: after) (ret []) []
  = (inl e,
     map (fun f => EvSessionGet (session_headers (crawler_of pl))
                     (raw_url owner repo (TreeItem.path f))) (before ++ [f])).
Proof.
  intros Hserved Hcs Hne Hraise.
  apply Forall_app in Hserved as [Hbefore Hf].
  apply (proj1 (Forall_singleton _ _)) in Hf.
  rewrite fold_left_app. cbn [fold_left].
  apply files_loop_raised.
  pose proof (files_loop_returns fetch before Hbefore cs (ret []) [] [] Hcs
                (fun t => eq_sym (f_equal (pair (inr [])) (app_nil_r t))) [])
    as Hrun.
  unfold file_step at 1. unfold bind. rewrite Hrun.
  rewrite (get_file_content_served _ _ Hf).
  destruct (fetch (TreeItem.path f)) as [|a body] eqn:Hbody; [congruence|].
  cbn [str_truthy]. unfold lift. rewrite Hraise.
  cbn [app]. now rewrite map_app.
Qed.

End Crawl.

(** ** Processing a repository *)

Section Process.

Context {E : Type}.
Variable pl : Pipeline E.
Variable state : RAGState.t E.
Variables owner repo : string.
Hypothesis Howner : RAGState.owner state = Some owner.
Hypothesis Hrepo : RAGState.repo state = Some repo.

Lemma process_repo_node_listing_run r evs t :
  get_files (crawler_of pl) owner repo "main" [] = (r, evs) ->
  process_repo_node pl state t =
    match r with
    | inl e =>
        (inr (process_error ("Error processing repository: " +:+ e)),
         t ++ map EvCrawl evs)
    | inr files =>
        try_except
          (if negb (Py.truthy files)
           then ret (process_error "No code files found in the repository")
           else
             all_chunks <- within EvCrawl
                             (fold_left (file_step (crawler_of pl) (chunker_of pl)
                                           owner repo) files (ret [])) ;;
             if negb (Py.truthy all_chunks)
             then ret (process_error
                         "No content could be extracted from the repository")
             else
               embeddings <- within EvService
                               (generate_batch_embeddings
                                  (mkEmbeddingGenerator
                                     (openai_embeddings (services pl))
                                     "text-embedding-3-small")
                                  (map content all_chunks) 20) ;;
               collection <- within EvService
                               (create_or_get_collection (chroma_db (services pl))
                                  (sanitize_collection_name (unicode_alnum pl)
                                     owner repo)) ;;
               _ <- call (EvCollectionAdd (map chunk_id all_chunks)
                            (map content all_chunks) embeddings all_chunks)
                      (store_chunks collection all_chunks embeddings) ;;
               ret (RAGState.mk None None (Some EmptyString) (Some all_chunks)
                      (Some embeddings)
                      (Some (sanitize_collection_name (unicode_alnum pl) owner repo))
                      None None None None None (Some true)))%py
          (fun e => ret (process_error ("Error processing repository: " +:+ e)))
          (t ++ map EvCrawl evs)
    end.
Proof.
  intros Hlist. unfold process_repo_node, try_except at 1, bind at 1, getitem.
  rewrite Howner. unfold ret at 1, bind at 1. rewrite Hrepo.
  unfold ret at 1, bind at 1.
  fold (crawler_of pl). rewrite (within_run EvCrawl _ _ _ t Hlist).
  destruct r as [e|files]; reflexivity.
Qed.

Lemma files_loop_run (fetch : string -> string) (files : list TreeItem.t)
    (all_chunks : list Chunk) :
  Forall (fun f => served pl owner repo (TreeItem.path f) (fetch (TreeItem.path f)))
    files ->
  chunks_of_files pl owner repo fetch files = inr all_chunks ->
  fold_left (file_step (crawler_of pl) (chunker_of pl) owner repo) files (ret []) []
  = (inr all_chunks,
     map (fun f => EvSessionGet (session_headers (crawler_of pl))
                     (raw_url owner repo (TreeItem.path f))) files).
Proof.
  intros Hserved Hcs.
  exact (files_loop_returns pl owner repo fetch files Hserved all_chunks
           (ret []) [] [] Hcs
           (fun t => eq_sym (f_equal (pair (inr [])) (app_nil_r t))) []).
Qed.

(** The node when the listing has answered with at least one file and
    the loop over the files has raised [e] after the requests [fetched]. *)
Lemma process_repo_node_files_raise tree e fetched t :
  listed pl owner repo tree ->
  blobs tree <> [] ->
  fold_left (file_step (crawler_of pl) (chunker_of pl) owner repo) (blobs tree)
    (ret []) [] = (inl e, fetched) ->
  process_repo_node pl state t
  = (inr (process_error ("Error processing repository: " +:+ e)),
     t ++ map EvCrawl
            (EvSessionGet (session_headers (crawler_of pl)) (listing_url owner repo)
             :: fetched)).
Proof.
  intros Hlisted Hne Hrun.
  rewrite (process_repo_node_listing_run _ _ t
             (get_files_listed pl owner repo tree Hlisted [])).
  assert (Htr : Py.truthy (blobs tree) = true)
    by (destruct (blobs tree); [congruence | reflexivity]).
  rewrite Htr. cbn [negb]. unfold try_except, bind at 1.
  rewrite (within_run EvCrawl _ _ _ _ Hrun).
  unfold ret. cbn [map app]. rewrite <- app_assoc. cbn [app]. reflexivity.
Qed.

Lemma process_repo_node_files_run (fetch : string -> string) tree t
    (all_chunks : list Chunk) :
  listed pl owner repo tree ->
  blobs tree <> [] ->
  Forall (fun f => served pl owner repo (TreeItem.path f) (fetch (TreeItem.path f)))
    (blobs tree) ->
  chunks_of_files pl owner repo fetch (blobs tree) = inr all_chunks ->
  let crawled :=
    EvSessionGet (session_headers (crawler_of pl)) (listing_url owner repo)
    :: map (fun f => EvSessionGet (session_headers (crawler_of pl))
                       (raw_url owner repo (TreeItem.path f))) (blobs tree) in
  process_repo_node pl state t =
    try_except
      (if negb (Py.truthy all_chunks)
       then ret (process_error "No content could be extracted from the repository")
       else
         embeddings <- within EvService
                         (generate_batch_embeddings
                            (mkEmbeddingGenerator
                               (openai_embeddings (services pl))
                               "text-embedding-3-small")
                            (map content all_chunks) 20) ;;
         collection <- within EvService
                         (create_or_get_collection (chroma_db (services pl))
                            (sanitize_collection_name (unicode_alnum pl)
                               owner repo)) ;;
         _ <- call (EvCollectionAdd (map chunk_id all_chunks)
                      (map content all_chunks) embeddings all_chunks)
                (store_chunks collection all_chunks embeddings) ;;
         ret (RAGState.mk None None (Some EmptyString) (Some all_chunks)
                (Some embeddings)
                (Some (sanitize_collection_name (unicode_alnum pl) owner repo))
                None None None None None (Some true)))%py
      (fun e => ret (process_error ("Error processing repository: " +:+ e)))
      (t ++ map EvCrawl crawled).
Proof.
  intros Hlisted Hne Hserved Hcs crawled.
  rewrite (process_repo_node_listing_run _ _ t
             (get_files_listed pl owner repo tree Hlisted [])).
  assert (Htr : Py.truthy (blobs tree) = true)
    by (destruct (blobs tree); [congruence | reflexivity]).
  rewrite Htr. cbn [negb]. unfold try_except, bind at 1.
  rewrite (within_run EvCrawl _ _ _ _
             (files_loop_run fetch (blobs tree) all_chunks Hserved Hcs)).
  subst crawled. cbn [map app]. rewrite <- app_assoc. cbn [app]. reflexivity.
Qed.

End Process.

Lemma generate_batch_embeddings_returns {E} (self : EmbeddingGenerator E)
    (emb : string -> E) (texts : list string) (batch_size : Z) :
  api_returns self emb -> 1 <= batch_size ->
  returns (generate_batch_embeddings self texts batch_size) (map emb texts)
    (map (fun b => EvEmbeddingsCreate (model self) (InputList b))
       (batches texts batch_size)).
Proof.
  intros Hapi Hbs t.
  destruct (batches_partition texts batch_size Hbs) as [Hcat _].
  unfold generate_batch_embeddings, bind, lift.
  unfold batches in Hcat |- *.
  destruct (range_batches (Py.len texts) batch_size Hbs
              ltac:(unfold Py.len; lia)) as (m & Hm & _).
  rewrite Hm in Hcat |- *.
  rewrite (batch_loop_returns self emb Hapi texts batch_size _ (ret []) [] []).
  - simpl. rewrite Hcat, !map_map. reflexivity.
  - intros t'. unfold ret. now rewrite app_nil_r.
Qed.


Lemma chunks_of_files_not_nil {E} (pl : Pipeline E) owner repo fetch files f :
  In f files -> fetch (TreeItem.path f) <> EmptyString ->
  forall cs, chunks_of_files pl owner repo fetch files = inr cs -> cs <> [].
Proof.
  induction files as [|g files IH]; intros Hin Hne cs Hcs; [contradiction|].
  cbn [chunks_of_files] in Hcs.
  destruct (if str_truthy (fetch (TreeItem.path g))
            then chunk_by_lines (chunker_of pl) (fetch (TreeItem.path g))
                   (TreeItem.path g) owner repo
            else inr []) as [e|c1] eqn:Hc1; [discriminate|].
  destruct (chunks_of_files pl owner repo fetch files) as [e|rest] eqn:Hrest;
    [discriminate|].
  injection Hcs as <-.
  destruct Hin as [->|Hin].
  - destruct (fetch (TreeItem.path f)) as [|a body] eqn:Hbody; [congruence|].
    cbn [str_truthy] in Hc1.
    destruct (chunk_by_lines_unfold (chunker_of pl) (TreeItem.path f) owner repo
                (String a body) c1 Hc1) as (st & _ & _ & ->).
    intros H. apply app_eq_nil in H as [H _]. apply app_eq_nil in H as [_ H].
    discriminate.
  - intros H. apply app_eq_nil in H as [_ H]. now apply (IH Hin Hne rest).
Qed.

(** The files are all chunked when the tokenizer answers on every line
    of the non-empty ones. *)
Lemma chunks_of_files_returns {E} (pl : Pipeline E) owner repo fetch files :
  files_encode pl fetch files ->
  exists cs, chunks_of_files pl owner repo fetch files = inr cs.
Proof.
  unfold files_encode.
  induction files as [|f files IH]; intros H; cbn [chunks_of_files]; [eauto|].
  apply Forall_cons in H as [Hf H]. destruct (IH H) as [rest ->].
  destruct (fetch (TreeItem.path f)) as [|a body] eqn:Hbody; cbn [str_truthy];
    [eauto|].
  destruct (chunk_by_lines_returns (chunker_of pl) (TreeItem.path f) owner repo
              (String a body)) as [c1 ->]; [|eauto].
  apply Hf. discriminate.
Qed.

Lemma process_repo_node_shape {E} (pl : Pipeline E)
    (state : RAGState.t E) (t : list (PipelineEvent E)) :
  exists result t1,
    process_repo_node pl state t = (inr result, t1)
    /\ ((exists msg, result = process_error msg /\ msg <> EmptyString)
        \/ (exists chunks embeddings name,
              chunks <> []
              /\ result = RAGState.mk None None (Some EmptyString) (Some chunks)
                            (Some embeddings) (Some name) None None None None
                            None (Some true))).
Proof.
  unfold process_repo_node, try_except, bind, getitem, ret, raise, call.
  repeat match goal with
  | |- context [RAGState.owner state] => destruct (RAGState.owner state)
  | |- context [RAGState.repo state] => destruct (RAGState.repo state)
  | |- context [within ?f ?m ?t0] => destruct (within f m t0) as [[?|?] ?]
  | |- context [if negb (Py.truthy ?l) then _ else _] =>
      is_var l; destruct l; cbn [negb Py.truthy]
  | |- context [store_chunks ?c ?l ?v] => destruct (store_chunks c l v)
  end;
  eexists _, _; (split; [reflexivity|]);
  try (left; eexists; split; [reflexivity | discriminate]);
  right; eexists _, _, _; split; [|reflexivity]; discriminate.
Qed.

(** Whatever happens inside, [process_repo_node] raises nothing: it
    returns either an error dictionary with [valid = False] and a non-empty
    message, or the success dictionary with [processed = True], an empty
    error, and a non-empty list of chunks. *)
Theorem process_repo_node_never_raises {E} (pl : Pipeline E)
    (state : RAGState.t E) (t : list (PipelineEvent E)) :
  exists result t1,
    process_repo_node pl state t = (inr result, t1)
    /\ ((exists msg, result = process_error msg /\ msg <> EmptyString)
        \/ (exists chunks embeddings name,
              chunks <> []
              /\ result = RAGState.mk None None (Some EmptyString) (Some chunks)
                            (Some embeddings) (Some name) None None None None
                            None (Some true))).
Proof. apply process_repo_node_shape. Qed.

(** When the listing request fails, the node reports the failure and
    makes no other call: no file is fetched, nothing is embedded or
    stored. *)
Theorem process_repo_node_listing_fails {E} (pl : Pipeline E)
    (state : RAGState.t E) (owner repo : string) (e : Exn)
    (t : list (PipelineEvent E)) :
  RAGState.owner state = Some owner ->
  RAGState.repo state = Some repo ->
  listing_fails pl owner repo e ->
  process_repo_node pl state t
  = (inr (process_error ("Error processing repository: " +:+ e)),
     t ++ [EvCrawl (EvSessionGet (session_headers (crawler_of pl))
                      (listing_url owner repo))]).
Proof.
  intros Ho Hr Hfail.
  exact (process_repo_node_listing_run pl state owner repo Ho Hr _ _ t
           (get_files_fails pl owner repo e Hfail [])).
Qed.

(** A listing without a file entry ends the node after the one request,
    with its own message. *)
Theorem process_repo_node_no_files {E} (pl : Pipeline E)
    (state : RAGState.t E) (owner repo : string) (tree : list TreeItem.t)
    (t : list (PipelineEvent E)) :
  RAGState.owner state = Some owner ->
  RAGState.repo state = Some repo ->
  listed pl owner repo tree ->
  Forall (fun item => TreeItem.type item <> "blob") tree ->
  process_repo_node pl state t
  = (inr (process_error "No code files found in the repository"),
     t ++ [EvCrawl (EvSessionGet (session_headers (crawler_of pl))
                      (listing_url owner repo))]).
Proof.
  intros Ho Hr Hlisted Hnone.
  rewrite (process_repo_node_listing_run pl state owner repo Ho Hr _ _ t
             (get_files_listed pl owner repo tree Hlisted [])).
  assert (Hb : blobs tree = []).
  { clear - Hnone. unfold blobs. induction tree as [|item tree IH]; [reflexivity|].
    apply Forall_cons in Hnone as [Hitem Hnone]. cbn [List.filter].
    apply String.eqb_neq in Hitem. rewrite Hitem. exact (IH Hnone). }
  rewrite Hb. reflexivity.
Qed.


(** A file the tokenizer raises on ends the node with the error
    dictionary: the files before it and the file itself have been
    fetched, no later file is, and nothing is embedded or stored. *)
Lemma process_repo_node_tokenizer_raises {E} (pl : Pipeline E)
    (state : RAGState.t E) (owner repo : string) (tree : list TreeItem.t)
    (fetch : string -> string) (before after : list TreeItem.t) (f : TreeItem.t)
    (e : Exn) (t : list (PipelineEvent E)) :
  RAGState.owner state = Some owner ->
  RAGState.repo state = Some repo ->
  listed pl owner repo tree ->
  blobs tree = before ++ f :: after ->
  Forall (fun f => served pl owner repo (TreeItem.path f) (fetch (TreeItem.path f)))
    (before ++ [f]) ->
  files_encode pl fetch before ->
  fetch (TreeItem.path f) <> EmptyString ->
  chunk_by_lines (chunker_of pl) (fetch (TreeItem.path f)) (TreeItem.path f)
    owner repo = inl e ->
  process_repo_node pl state t
  = (inr (process_error ("Error processing repository: " +:+ e)),
     t ++ map EvCrawl
            (EvSessionGet (session_headers (crawler_of pl)) (listing_url owner repo)
             :: map (fun f => EvSessionGet (session_headers (crawler_of pl))
                                (raw_url owner repo (TreeItem.path f)))
                  (before ++ [f]))).
Proof.
  intros Ho Hr Hlisted Hblobs Hserved Henc Hne Hraise.
  destruct (chunks_of_files_returns pl owner repo fetch before Henc) as [cs Hcs].
  apply (process_repo_node_files_raise pl state owner repo Ho Hr tree e _ t Hlisted).
  - rewrite Hblobs. now destruct before.
  - rewrite Hblobs.
    exact (files_loop_raises pl owner repo fetch before after f cs e
             Hserved Hcs Hne Hraise).
Qed.

(** The success path: with the listing and the files served, at least one
    non-empty file, a tokenizer that answers on every line of the
    non-empty files, an embedding service that answers in order, and a
    collection found or created, the node returns the chunks of the
    non-empty files in listing order, one vector per chunk in chunk
    order, and the sanitized collection name; its last call hands exactly
    these chunks and vectors to the collection. *)
Theorem process_repo_node_success {E} (pl : Pipeline E)
    (state : RAGState.t E) (owner repo : string) (tree : list TreeItem.t)
    (fetch : string -> string) (emb : string -> E) (coll : Collection E)
    (t : list (PipelineEvent E)) :
  RAGState.owner state = Some owner ->
  RAGState.repo state = Some repo ->
  listed pl owner repo tree ->
  Forall (fun f => served pl owner repo (TreeItem.path f) (fetch (TreeItem.path f)))
    (blobs tree) ->
  (exists f, In f (blobs tree) /\ fetch (TreeItem.path f) <> EmptyString) ->
  files_encode pl fetch (blobs tree) ->
  api_returns (mkEmbeddingGenerator (openai_embeddings (services pl))
                 "text-embedding-3-small") emb ->
  found_collection (chroma_db (services pl))
    (sanitize_collection_name (unicode_alnum pl) owner repo) = inr coll ->
  exists all_chunks,
    chunks_of_files pl owner repo fetch (blobs tree) = inr all_chunks
    /\ all_chunks <> []
    /\ exists t1,
        process_repo_node pl state t
        = (inr (RAGState.mk None None (Some EmptyString) (Some all_chunks)
                  (Some (map emb (map content all_chunks)))
                  (Some (sanitize_collection_name (unicode_alnum pl) owner repo))
                  None None None None None (Some true)),
           t1 ++ [EvCollectionAdd (map chunk_id all_chunks) (map content all_chunks)
                    (map emb (map content all_chunks)) all_chunks]).
Proof.
  intros Ho Hr Hlisted Hserved (f & Hf & Hbody) Henc Hapi Hfound.
  destruct (chunks_of_files_returns pl owner repo fetch (blobs tree) Henc)
    as [all_chunks Hcs].
  set (vectors := map emb (map content all_chunks)).
  exists all_chunks. split; [exact Hcs|].
  assert (Hne : blobs tree <> []) by (intros H; rewrite H in Hf; contradiction).
  assert (Hchunks : all_chunks <> [])
    by exact (chunks_of_files_not_nil pl owner repo fetch _ f Hf Hbody _ Hcs).
  split; [exact Hchunks|].
  rewrite (process_repo_node_files_run pl state owner repo Ho Hr
             fetch tree t all_chunks Hlisted Hne Hserved Hcs).
  assert (Htr : Py.truthy all_chunks = true)
    by (destruct all_chunks; [congruence | reflexivity]).
  rewrite Htr. cbn [negb]. unfold try_except, bind at 1.
  rewrite (within_run EvService _ _ _ _
             (generate_batch_embeddings_returns _ emb (map content all_chunks) 20
                Hapi ltac:(lia) [])).
  fold vectors. unfold bind at 1.
  match goal with
  | |- context [within EvService (create_or_get_collection ?c ?n) ?t0] =>
      destruct (create_or_get_collection_run (services pl) n []) as (evs & Hrun);
      rewrite (within_run EvService _ _ _ t0 Hrun)
  end.
  rewrite Hfound. unfold bind, call, ret.
  destruct (store_chunks_unfold coll all_chunks vectors) as (recs & _ & ->).
  { unfold vectors. now rewrite !length_map. }
  eexists. reflexivity.
Qed.

Lemma process_repo_node_listing_fails_witness :
  RAGState.owner (demo_state (Some [])) = Some "foo"
  /\ RAGState.repo (demo_state (Some [])) = Some "bar"
  /\ listing_fails offline_pipeline "foo" "bar" "Connection refused"
  /\ process_repo_node offline_pipeline (demo_state (Some [])) []
     = (inr (process_error "Error processing repository: Connection refused"),
        [EvCrawl (EvSessionGet
                    {["Accept" := "application/vnd.github.v3+json"]}
                    "https://api.github.com/repos/foo/bar/git/trees/main?recursive=1")]).
Proof.
  assert (H1 : RAGState.owner (demo_state (Some [])) = Some "foo") by reflexivity.
  assert (H2 : RAGState.repo (demo_state (Some [])) = Some "bar") by reflexivity.
  assert (H3 : listing_fails offline_pipeline "foo" "bar" "Connection refused")
    by (left; reflexivity).
  split; [exact H1|]. split; [exact H2|]. split; [exact H3|].
  exact (process_repo_node_listing_fails offline_pipeline (demo_state (Some []))
           "foo" "bar" "Connection refused" [] H1 H2 H3).
Defined.

Lemma process_repo_node_no_files_witness :
  RAGState.owner (demo_state (Some [])) = Some "foo"
  /\ RAGState.repo (demo_state (Some [])) = Some "bar"
  /\ listed (demo_pipeline []) "foo" "bar" [TreeItem.mk "src" "tree"]
  /\ Forall (fun item => TreeItem.type item <> "blob") [TreeItem.mk "src" "tree"]
  /\ (process_repo_node (demo_pipeline []) (demo_state (Some [])) []).1
     = inr (process_error "No code files found in the repository").
Proof.
  assert (H1 : RAGState.owner (demo_state (Some [])) = Some "foo") by reflexivity.
  assert (H2 : RAGState.repo (demo_state (Some [])) = Some "bar") by reflexivity.
  assert (H3 : listed (demo_pipeline []) "foo" "bar" [TreeItem.mk "src" "tree"])
    by (eexists; split; [reflexivity | split; reflexivity]).
  assert (H4 : Forall (fun item => TreeItem.type item <> "blob")
                 [TreeItem.mk "src" "tree"])
    by (apply Forall_singleton; discriminate).
  split; [exact H1|]. split; [exact H2|]. split; [exact H3|]. split; [exact H4|].
  now rewrite (process_repo_node_no_files (demo_pipeline []) (demo_state (Some []))
                 "foo" "bar" _ [] H1 H2 H3 H4).
Defined.


Lemma process_repo_node_success_witness :
  let files := [("README.md", "hello"); ("a.py", "x = 1")] in
  let tree := [TreeItem.mk "src" "tree"; TreeItem.mk "README.md" "blob";
               TreeItem.mk "a.py" "blob"] in
  RAGState.owner (demo_state (Some [])) = Some "foo"
  /\ RAGState.repo (demo_state (Some [])) = Some "bar"
  /\ listed (demo_pipeline files) "foo" "bar" tree
  /\ Forall (fun f => served (demo_pipeline files) "foo" "bar" (TreeItem.path f)
                        (demo_fetch files (TreeItem.path f))) (blobs tree)
  /\ (exists f, In f (blobs tree)
                /\ demo_fetch files (TreeItem.path f) <> EmptyString)
  /\ files_encode (demo_pipeline files) (demo_fetch files) (blobs tree)
  /\ api_returns (mkEmbeddingGenerator
                    (openai_embeddings (services (demo_pipeline files)))
                    "text-embedding-3-small") String.length
  /\ found_collection (chroma_db (services (demo_pipeline files)))
       (sanitize_collection_name (unicode_alnum (demo_pipeline files)) "foo" "bar")
     = inr ∅
  /\ exists all_chunks,
      chunks_of_files (demo_pipeline files) "foo" "bar" (demo_fetch files)
        (blobs tree) = inr all_chunks
      /\ all_chunks <> []
      /\ exists t1,
          process_repo_node (demo_pipeline files) (demo_state (Some [])) []
          = (inr (RAGState.mk None None (Some EmptyString) (Some all_chunks)
                    (Some (map String.length (map content all_chunks)))
                    (Some (sanitize_collection_name
                             (unicode_alnum (demo_pipeline files)) "foo" "bar"))
                    None None None None None (Some true)),
             t1 ++ [EvCollectionAdd (map chunk_id all_chunks)
                      (map content all_chunks)
                      (map String.length (map content all_chunks)) all_chunks]).
Proof.
  intros files tree.
  assert (H1 : RAGState.owner (demo_state (Some [])) = Some "foo") by reflexivity.
  assert (H2 : RAGState.repo (demo_state (Some [])) = Some "bar") by reflexivity.
  assert (H3 : listed (demo_pipeline files) "foo" "bar" tree)
    by (eexists; split; [reflexivity | split; reflexivity]).
  assert (H4 : Forall (fun f => served (demo_pipeline files) "foo" "bar"
                                  (TreeItem.path f)
                                  (demo_fetch files (TreeItem.path f))) (blobs tree)).
  { repeat (apply Forall_cons; split;
            [eexists; split; [reflexivity | split; reflexivity]|]).
    apply Forall_nil_2. }
  assert (H5 : exists f, In f (blobs tree)
                         /\ demo_fetch files (TreeItem.path f) <> EmptyString).
  { exists (TreeItem.mk "README.md" "blob"). split; [now left | discriminate]. }
  assert (H6 : api_returns (mkEmbeddingGenerator
                              (openai_embeddings (services (demo_pipeline files)))
                              "text-embedding-3-small") String.length)
    by (split; intros; reflexivity).
  assert (H7 : found_collection (chroma_db (services (demo_pipeline files)))
                 (sanitize_collection_name (unicode_alnum (demo_pipeline files))
                    "foo" "bar") = inr ∅) by reflexivity.
  assert (H8 : files_encode (demo_pipeline files) (demo_fetch files) (blobs tree)).
  { repeat (apply Forall_cons; split;
            [intros _; apply Forall_singleton; eexists; vm_compute; reflexivity|]).
    apply Forall_nil_2. }
  split; [exact H1|]. split; [exact H2|]. split; [exact H3|]. split; [exact H4|].
  split; [exact H5|]. split; [exact H8|]. split; [exact H6|]. split; [exact H7|].
  exact (process_repo_node_success (demo_pipeline files) (demo_state (Some []))
           "foo" "bar" tree (demo_fetch files) String.length ∅ []
           H1 H2 H3 H4 H5 H8 H6 H7).
Defined.

(** The refusal of the tokenizer seen from the node: the second file of
    the repository holds the text of a special token; the third file is
    not fetched. *)
Example process_repo_node_special_token :
  let files := [("README.md", "hello"); ("tok.py", "END = '<|endoftext|>'");
                ("b.py", "x = 1")] in
  process_repo_node (demo_pipeline files) (demo_state (Some [])) []
  = (inr (process_error
            ("Error processing repository: "
             +:+ "Encountered text corresponding to disallowed special token "
             +:+ "'<|endoftext|>'.")),
     map EvCrawl
       [EvSessionGet (session_headers (crawler_of (demo_pipeline files)))
          (listing_url "foo" "bar");
        EvSessionGet (session_headers (crawler_of (demo_pipeline files)))
          (raw_url "foo" "bar" "README.md");
        EvSessionGet (session_headers (crawler_of (demo_pipeline files)))
          (raw_url "foo" "bar" "tok.py")]).
Proof.
  intros files.
  apply (process_repo_node_tokenizer_raises (demo_pipeline files)
           (demo_state (Some [])) "foo" "bar"
           [TreeItem.mk "src" "tree"; TreeItem.mk "README.md" "blob";
            TreeItem.mk "tok.py" "blob"; TreeItem.mk "b.py" "blob"]
           (demo_fetch files) [TreeItem.mk "README.md" "blob"]
           [TreeItem.mk "b.py" "blob"] (TreeItem.mk "tok.py" "blob")
           _ []).
  - reflexivity.
  - reflexivity.
  - eexists. split; [reflexivity | split; reflexivity].
  - reflexivity.
  - repeat (apply Forall_cons; split;
            [eexists; split; [reflexivity | split; reflexivity]|]).
    apply Forall_nil_2.
  - apply Forall_singleton. intros _. apply Forall_singleton.
    eexists. vm_compute. reflexivity.
  - discriminate.
  - vm_compute. reflexivity.
Qed.

(** ** Chat turns that succeed *)

(** When the three services answer, the returned history is the given
    history followed by exactly one assistant turn holding the first
    choice, which is also the answer; the store is asked for the 5
    nearest documents of the first returned vector, and the model is asked
    once, last. *)
Theorem chat_node_answers {E} (sv : Services E) (state : RAGState.t E)
    (m : Msg.t) (ms : list Msg.t) (x : E) (xs : list E) (name : string)
    (coll : Collection E) (docs : list string) (more : list (list string))
    (answer : string) (others : list string) (t : list (Event E)) :
  RAGState.chat_history state = Some (m :: ms) ->
  openai_embeddings sv "text-embedding-3-small"
    (InputStr (Msg.content (List.last ms m))) = inr (x :: xs) ->
  RAGState.collection_name state = Some name ->
  found_collection (chroma_db sv) name = inr coll ->
  collection_query (chroma_db sv) coll [x] 5 = inr (mkQueryResult (docs :: more)) ->
  openai_chat sv (chat_request state docs (m :: ms) (Msg.content (List.last ms m)))
    = inr (answer :: others) ->
  exists t1,
    chat_node sv state t
    = (inr (RAGState.mk None None (Some EmptyString) None None None
              (Some ((m :: ms) ++ [Msg.mk "assistant" answer])) (Some answer)
              None None None None),
       t1 ++ [EvCollectionQuery [x] 5;
              EvChatCompletionsCreate
                (chat_request state docs (m :: ms) (Msg.content (List.last ms m)))]).
Proof.
  intros Hh He Hn Hc Hq Hchat.
  unfold chat_node, try_except. rewrite Hh.
  unfold chat_turn, generate_embedding, embeddings_create,
    query_similar_code, chat_completions_create, getitem, first, call, ret, raise,
    bind.
  cbn [client model]. rewrite He. cbv beta iota. rewrite Hn.
  destruct (create_or_get_collection_run sv name
              (t ++ [EvEmbeddingsCreate "text-embedding-3-small"
                       (InputStr (Msg.content (List.last ms m)))])) as (t1 & ->).
  rewrite Hc, Hq. cbn [documents]. rewrite Hchat.
  exists t1. now rewrite <- app_assoc.
Qed.

Lemma chat_node_answers_witness :
  exists t1,
    chat_node demo_services
      (demo_state (Some [Msg.mk "user" "hi"; Msg.mk "assistant" "Hello";
                         Msg.mk "user" "what is f?"])) []
    = (inr (RAGState.mk None None (Some EmptyString) None None None
              (Some ([Msg.mk "user" "hi"; Msg.mk "assistant" "Hello";
                      Msg.mk "user" "what is f?"]
                     ++ [Msg.mk "assistant" "It defines f."]))
              (Some "It defines f.") None None None None),
       t1 ++ [EvCollectionQuery [10%nat] 5;
              EvChatCompletionsCreate
                (chat_request
                   (demo_state (Some [Msg.mk "user" "hi"; Msg.mk "assistant" "Hello";
                                      Msg.mk "user" "what is f?"]))
                   ["def f(): pass"; "x = 1"]
                   [Msg.mk "user" "hi"; Msg.mk "assistant" "Hello";
                    Msg.mk "user" "what is f?"] "what is f?")]).
Proof.
  exact (chat_node_answers demo_services
           (demo_state (Some [Msg.mk "user" "hi"; Msg.mk "assistant" "Hello";
                              Msg.mk "user" "what is f?"]))
           (Msg.mk "user" "hi") [Msg.mk "assistant" "Hello"; Msg.mk "user" "what is f?"]
           10%nat [] "foo_bar" ∅ ["def f(): pass"; "x = 1"] [] "It defines f." [] []
           eq_refl eq_refl eq_refl eq_refl eq_refl eq_refl).
Defined.

(** Only the five turns before the current one reach the prompt: the
    context built from a history is the one built from its last five prior
    turns, whatever came before them. *)
Theorem conversation_context_window (older recent : list Msg.t) (current : Msg.t) :
  length recent = 5%nat \/ (older = [] /\ (length recent <= 5)%nat) ->
  conversation_context (older ++ recent ++ [current])
  = fold_left context_step recent EmptyString.
Proof.
  intros Hwin. unfold conversation_context, Py.len.
  rewrite !length_app. cbn [length].
  destruct (Z.gtb_spec (Z.of_nat (length older + (length recent + 1))) 1) as [Hgt|Hle].
  - cbv zeta.
    assert (Hfrom : Py.slice_from (-6) (older ++ recent ++ [current])
                    = recent ++ [current]).
    { unfold Py.slice_from, Py.len. rewrite !length_app. cbn [length].
      change (-6 <? 0) with true. cbv iota zeta.
      destruct Hwin as [H5 | [-> Hle5]].
      - replace (Z.to_nat (Z.max (Z.of_nat (length older + (length recent + 1)) + -6) 0))
          with (length older) by lia.
        apply drop_app_length.
      - replace (Z.to_nat (Z.max (Z.of_nat (length (@nil Msg.t)
                                            + (length recent + 1)) + -6) 0))
          with 0%nat by (simpl; lia).
        reflexivity. }
    rewrite Hfrom. unfold Py.slice_to, Py.len. rewrite length_app. cbn [length].
    change (-1 <? 0) with true. cbv iota zeta.
    replace (Z.to_nat (Z.max (Z.of_nat (length recent + 1) + -1) 0))
      with (length recent) by lia.
    now rewrite take_app_length.
  - assert (Hnil : recent = []) by (destruct recent; [reflexivity | simpl in Hle; lia]).
    now rewrite Hnil.
Qed.

Lemma conversation_context_window_witness :
  (length [Msg.mk "user" "q1"; Msg.mk "assistant" "a1"; Msg.mk "user" "q2";
           Msg.mk "assistant" "a2"; Msg.mk "system" "note"] = 5%nat
   \/ ([Msg.mk "user" "q0"; Msg.mk "assistant" "a0"] = []
       /\ (length [Msg.mk "user" "q1"; Msg.mk "assistant" "a1"; Msg.mk "user" "q2";
                   Msg.mk "assistant" "a2"; Msg.mk "system" "note"] <= 5)%nat))
  /\ conversation_context
       ([Msg.mk "user" "q0"; Msg.mk "assistant" "a0"]
        ++ [Msg.mk "user" "q1"; Msg.mk "assistant" "a1"; Msg.mk "user" "q2";
            Msg.mk "assistant" "a2"; Msg.mk "system" "note"]
        ++ [Msg.mk "user" "q3"])
     = "Previous Question: q1" +:+ Py.NL +:+ "Previous Answer: a1" +:+ Py.NL
       +:+ "Previous Question: q2" +:+ Py.NL +:+ "Previous Answer: a2" +:+ Py.NL.
Proof.
  assert (H : length [Msg.mk "user" "q1"; Msg.mk "assistant" "a1"; Msg.mk "user" "q2";
                      Msg.mk "assistant" "a2"; Msg.mk "system" "note"] = 5%nat
              \/ ([Msg.mk "user" "q0"; Msg.mk "assistant" "a0"] = []
                  /\ (length [Msg.mk "user" "q1"; Msg.mk "assistant" "a1";
                              Msg.mk "user" "q2"; Msg.mk "assistant" "a2";
                              Msg.mk "system" "note"] <= 5)%nat))
    by (left; reflexivity).
  split; [exact H|].
  rewrite (conversation_context_window
             [Msg.mk "user" "q0"; Msg.mk "assistant" "a0"]
             [Msg.mk "user" "q1"; Msg.mk "assistant" "a1"; Msg.mk "user" "q2";
              Msg.mk "assistant" "a2"; Msg.mk "system" "note"]
             (Msg.mk "user" "q3") H).
  reflexivity.
Defined.

(** ** The graph *)

Section Graph.

Context {E : Type}.
Variable pl : Pipeline E.

Lemma invoke_chat_run (state validated : RAGState.t E) t :
  validate_url_node state = inr validated ->
  route_after_validation (RAGState.update state validated) = ToChat ->
  exists answered evs,
    chat_node (services pl) (RAGState.update state validated) [] = (inr answered, evs)
    /\ invoke pl state t
       = (inr (RAGState.update (RAGState.update state validated) answered),
          t ++ map EvService evs).
Proof.
  intros Hv Hroute.
  destruct (chat_node_never_raises (services pl) (RAGState.update state validated) [])
    as (answered & evs & Hchat).
  exists answered, evs. split; [exact Hchat|].
  unfold invoke, bind, lift. rewrite Hv. cbv beta iota zeta. rewrite Hroute.
  unfold bind. rewrite (within_run EvService _ _ _ t Hchat). reflexivity.
Qed.

Lemma invoke_process_run (state validated : RAGState.t E) t :
  validate_url_node state = inr validated ->
  route_after_validation (RAGState.update state validated) = ToProcessRepo ->
  let s1 := RAGState.update state validated in
  exists result t1,
    process_repo_node pl s1 t = (inr result, t1)
    /\ ((exists msg, result = process_error msg /\ msg <> EmptyString
                     /\ invoke pl state t = (inr (RAGState.update s1 result), t1))
        \/ (RAGState.processed result = Some true
            /\ RAGState.error result = Some EmptyString
            /\ RAGState.chat_history result = None
            /\ exists answered evs,
                 chat_node (services pl) (RAGState.update s1 result) []
                   = (inr answered, evs)
                 /\ invoke pl state t
                    = (inr (RAGState.update (RAGState.update s1 result) answered),
                       t1 ++ map EvService evs))).
Proof.
  intros Hv Hroute s1. fold s1 in Hroute.
  destruct (process_repo_node_shape pl s1 t) as (result & t1 & Hrun & Hshape).
  exists result, t1. split; [exact Hrun|].
  unfold invoke, bind, lift. rewrite Hv. cbv beta iota zeta.
  fold s1. rewrite Hroute. unfold bind. rewrite Hrun.
  destruct Hshape as [(msg & -> & Hmsg) | (chunks & embs & name & _ & ->)].
  - left. exists msg. split; [reflexivity|]. split; [exact Hmsg|].
    unfold route_after_processing. cbn.
    destruct msg; [congruence | reflexivity].
  - right. split; [reflexivity|]. split; [reflexivity|]. split; [reflexivity|].
    match goal with
    | |- context [chat_node _ ?s2] =>
        destruct (chat_node_never_raises (services pl) s2 [])
          as (answered & evs & Hchat);
        exists answered, evs; split; [exact Hchat|];
        replace (route_after_processing s2) with ToChat by reflexivity;
        unfold bind; rewrite (within_run EvService _ _ _ t1 Hchat)
    end.
    reflexivity.
Qed.

End Graph.

(** A rejected URL ends the run at once: no service is called, and the
    state returned carries [valid = False] and the validation error. *)
Theorem invoke_invalid_url {E} (pl : Pipeline E) (state : RAGState.t E)
    (t : list (PipelineEvent E)) :
  validate_url_node state = inr url_rejected ->
  exists final,
    invoke pl state t = (inr final, t)
    /\ RAGState.valid final = Some false
    /\ RAGState.error final = Some "Invalid GitHub URL"
    /\ RAGState.answer final = RAGState.answer state
    /\ RAGState.chat_history final = RAGState.chat_history state.
Proof.
  intros Hv. exists (RAGState.update state url_rejected).
  split; [|repeat split].
  unfold invoke, bind, lift. rewrite Hv. reflexivity.
Qed.

Lemma invoke_invalid_url_witness :
  validate_url_node (process_state "github.com/foo/bar") = inr url_rejected
  /\ exists final,
      invoke (demo_pipeline []) (process_state "github.com/foo/bar") [] = (inr final, [])
      /\ RAGState.valid final = Some false
      /\ RAGState.error final = Some "Invalid GitHub URL".
Proof.
  assert (H : validate_url_node (process_state "github.com/foo/bar")
              = inr url_rejected) by reflexivity.
  split; [exact H|].
  destruct (invoke_invalid_url (demo_pipeline []) (process_state "github.com/foo/bar")
              [] H) as (final & H1 & H2 & H3 & _).
  exists final. repeat split; assumption.
Defined.

(** A chat-only state built by [create_chat_only_state] from an owner and
    a repository name that are path segments passes validation unchanged
    and goes straight to the chat node: the run is that chat turn, written
    into the state, and neither the hosting service nor [collection.add]
    is called. *)
Theorem invoke_chat_only {E} (pl : Pipeline E)
    (collection_name owner repo : string) (chat_history : list Msg.t)
    (t : list (PipelineEvent E)) :
  segment owner -> segment repo ->
  let state := create_chat_only_state collection_name owner repo chat_history in
  validate_url_node state = inr (url_accepted owner repo)
  /\ exists answered evs,
      chat_node (services pl) state [] = (inr answered, evs)
      /\ invoke pl state t = (inr (RAGState.update state answered),
                              t ++ map EvService evs).
Proof.
  intros Ho Hr state.
  assert (Hv : validate_url_node state = inr (url_accepted owner repo)).
  { unfold validate_url_node, state, create_chat_only_state. cbn [RAGState.repo_url].
    change ("https://github.com/" +:+ owner +:+ "/" +:+ repo)
      with ("https://github" +:+ String "." ("com/" +:+ owner +:+ "/" +:+ repo)).
    replace repo with (repo +:+ EmptyString) at 1
      by (clear; induction repo as [|a r IH]; simpl; [reflexivity | now rewrite IH]).
    rewrite re_match_url_accepts; [reflexivity | discriminate | exact Ho | exact Hr |].
    now left. }
  split; [exact Hv|].
  destruct (invoke_chat_run pl state (url_accepted owner repo) t Hv)
    as (answered & evs & Hchat & Hrun); [reflexivity|].
  exists answered, evs. split; [exact Hchat | exact Hrun].
Qed.

Lemma invoke_chat_only_witness :
  segment "foo" /\ segment "bar"
  /\ exists answered evs,
      chat_node (services (demo_pipeline []))
        (create_chat_only_state "foo_bar" "foo" "bar" [Msg.mk "user" "what is f?"]) []
        = (inr answered, evs)
      /\ invoke (demo_pipeline [])
           (create_chat_only_state "foo_bar" "foo" "bar" [Msg.mk "user" "what is f?"]) []
         = (inr (RAGState.update
                   (create_chat_only_state "foo_bar" "foo" "bar"
                      [Msg.mk "user" "what is f?"]) answered),
            [] ++ map EvService evs).
Proof.
  assert (H1 : segment "foo") by (split; [discriminate | reflexivity]).
  assert (H2 : segment "bar") by (split; [discriminate | reflexivity]).
  split; [exact H1|]. split; [exact H2|].
  exact (proj2 (invoke_chat_only (demo_pipeline []) "foo_bar" "foo" "bar"
                  [Msg.mk "user" "what is f?"] [] H1 H2)).
Defined.

(** In processing mode a failed processing ends the run: the state returned
    carries [valid = False] and the message, and the chat node is not
    run. *)
Theorem invoke_processing_failed {E} (pl : Pipeline E) (state : RAGState.t E)
    (owner repo msg : string) (t t1 : list (PipelineEvent E)) :
  validate_url_node state = inr (url_accepted owner repo) ->
  RAGState.mode state <> Some "chat_only" ->
  let s1 := RAGState.update state (url_accepted owner repo) in
  process_repo_node pl s1 t = (inr (process_error msg), t1) ->
  exists final,
    invoke pl state t = (inr final, t1)
    /\ RAGState.valid final = Some false
    /\ RAGState.error final = Some msg
    /\ RAGState.answer final = RAGState.answer state
    /\ RAGState.chat_history final = RAGState.chat_history state.
Proof.
  intros Hv Hmode s1 Hrun.
  assert (Hroute : route_after_validation s1 = ToProcessRepo).
  { unfold route_after_validation, s1. cbn.
    destruct (RAGState.mode state) as [md|]; [|reflexivity].
    destruct (String.eqb_spec md "chat_only"); [congruence | reflexivity]. }
  destruct (invoke_process_run pl state _ t Hv Hroute)
    as (result & t1' & Hrun' & Hcases).
  fold s1 in Hrun', Hcases. rewrite Hrun in Hrun'. injection Hrun' as <- <-.
  destruct Hcases as [(msg' & Heq & _ & Hinv) | (Hproc & _)]; [|discriminate Hproc].
  exists (RAGState.update s1 (process_error msg)).
  split; [exact Hinv|]. repeat split.
Qed.

Lemma invoke_processing_failed_witness :
  validate_url_node (process_state "https://github.com/foo/bar")
    = inr (url_accepted "foo" "bar")
  /\ RAGState.mode (process_state "https://github.com/foo/bar") <> Some "chat_only"
  /\ exists final t1,
      invoke offline_pipeline (process_state "https://github.com/foo/bar") []
        = (inr final, t1)
      /\ RAGState.valid final = Some false
      /\ RAGState.error final
         = Some "Error processing repository: Connection refused".
Proof.
  assert (H1 : validate_url_node (process_state "https://github.com/foo/bar")
               = inr (url_accepted "foo" "bar")) by reflexivity.
  assert (H2 : RAGState.mode (process_state "https://github.com/foo/bar")
               <> Some "chat_only") by discriminate.
  split; [exact H1|]. split; [exact H2|].
  destruct (invoke_processing_failed offline_pipeline
              (process_state "https://github.com/foo/bar") "foo" "bar"
              "Error processing repository: Connection refused" []
              [EvCrawl (EvSessionGet
                          {["Accept" := "application/vnd.github.v3+json"]}
                          (listing_url "foo" "bar"))]
              H1 H2 eq_refl) as (final & Hrun & Hv & He & _).
  eexists final, _. split; [exact Hrun|]. split; [exact Hv | exact He].
Defined.

(** In processing mode with an empty history, a successful processing is
    followed by the greeting: the run returns the processed state with the
    greeting for the validated owner and repository as answer and only
    turn, and the chat node calls no service. *)
Theorem invoke_processed_greets {E} (pl : Pipeline E) (state : RAGState.t E)
    (owner repo : string) (result : RAGState.t E) (t t1 : list (PipelineEvent E)) :
  validate_url_node state = inr (url_accepted owner repo) ->
  RAGState.mode state <> Some "chat_only" ->
  RAGState.chat_history state = Some [] \/ RAGState.chat_history state = None ->
  let s1 := RAGState.update state (url_accepted owner repo) in
  process_repo_node pl s1 t = (inr result, t1) ->
  RAGState.processed result = Some true ->
  exists final,
    invoke pl state t = (inr final, t1)
    /\ RAGState.answer final = Some (welcome owner repo)
    /\ RAGState.chat_history final = Some [Msg.mk "assistant" (welcome owner repo)]
    /\ RAGState.processed final = Some true
    /\ RAGState.collection_name final = RAGState.collection_name result
    /\ RAGState.error final = Some EmptyString.
Proof.
  intros Hv Hmode Hhist s1 Hrun Hproc.
  assert (Hroute : route_after_validation s1 = ToProcessRepo).
  { unfold route_after_validation, s1. cbn.
    destruct (RAGState.mode state) as [md|]; [|reflexivity].
    destruct (String.eqb_spec md "chat_only"); [congruence | reflexivity]. }
  assert (Hshape : exists chunks embs name,
            result = RAGState.mk None None (Some EmptyString) (Some chunks)
                       (Some embs) (Some name) None None None None None (Some true)).
  { destruct (process_repo_node_shape pl s1 t) as (r & t2 & Hr & Hshape).
    rewrite Hrun in Hr. injection Hr as <- <-.
    destruct Hshape as [(msg & -> & _) | (c & e & n & _ & ->)];
      [discriminate Hproc | eauto]. }
  destruct Hshape as (chunks & embs & name & ->).
  destruct (invoke_process_run pl state _ t Hv Hroute)
    as (result' & t1' & Hrun' & Hcases).
  fold s1 in Hrun', Hcases. rewrite Hrun in Hrun'. injection Hrun' as <- <-.
  destruct Hcases as [(msg & Hmsg & _) | (_ & _ & _ & answered & evs & Hchat & Hinv)];
    [discriminate Hmsg|].
  assert (Hgreet : chat_node (services pl)
                     (RAGState.update s1
                        (RAGState.mk None None (Some EmptyString) (Some chunks)
                           (Some embs) (Some name) None None None None None
                           (Some true))) []
                   = (inr (greeting_result owner repo), [])).
  { unfold chat_node, try_except. cbn.
    destruct Hhist as [-> | ->]; reflexivity. }
  rewrite Hgreet in Hchat. injection Hchat as <- <-.
  eexists. split; [rewrite Hinv; cbn [map]; now rewrite app_nil_r|].
  repeat split.
Qed.

Lemma invoke_processed_greets_witness :
  validate_url_node (process_state "https://github.com/foo/bar")
    = inr (url_accepted "foo" "bar")
  /\ RAGState.mode (process_state "https://github.com/foo/bar") <> Some "chat_only"
  /\ exists final t1,
      invoke (demo_pipeline [("README.md", "hello"); ("a.py", "x = 1")])
        (process_state "https://github.com/foo/bar") [] = (inr final, t1)
      /\ RAGState.answer final = Some (welcome "foo" "bar")
      /\ RAGState.processed final = Some true.
Proof.
  assert (H1 : validate_url_node (process_state "https://github.com/foo/bar")
               = inr (url_accepted "foo" "bar")) by reflexivity.
  assert (H2 : RAGState.mode (process_state "https://github.com/foo/bar")
               <> Some "chat_only") by discriminate.
  assert (H3 : RAGState.chat_history (process_state "https://github.com/foo/bar")
               = Some []
               \/ RAGState.chat_history (process_state "https://github.com/foo/bar")
                  = None) by (left; reflexivity).
  split; [exact H1|]. split; [exact H2|].
  let v := eval vm_compute in
    (process_repo_node (demo_pipeline [("README.md", "hello"); ("a.py", "x = 1")])
       (RAGState.update (process_state "https://github.com/foo/bar")
          (url_accepted "foo" "bar")) []) in
  assert (Hrun : process_repo_node
                   (demo_pipeline [("README.md", "hello"); ("a.py", "x = 1")])
                   (RAGState.update (process_state "https://github.com/foo/bar")
                      (url_accepted "foo" "bar")) [] = v)
    by (vm_compute; reflexivity).
  match type of Hrun with
  | _ = (inr ?R, ?T) =>
      destruct (invoke_processed_greets
                  (demo_pipeline [("README.md", "hello"); ("a.py", "x = 1")])
                  (process_state "https://github.com/foo/bar") "foo" "bar" R [] T
                  H1 H2 H3 Hrun eq_refl) as (final & Hinv & Ha & _ & Hp & _);
      exists final, T; split; [exact Hinv|]; split; [exact Ha | exact Hp]
  end.
Defined.

(** ** Witnesses for the collection-name and URL lemmas *)

Lemma sanitize_no_leading_underscore_witness :
  stripped_name (fun _ => false) "-foo-" "_bar_" <> EmptyString
  /\ Py.startswith "_" (sanitize_collection_name (fun _ => false) "-foo-" "_bar_")
     = false.
Proof.
  assert (H : stripped_name (fun _ => false) "-foo-" "_bar_" <> EmptyString)
    by (vm_compute; discriminate).
  split; [exact H|].
  exact (sanitize_no_leading_underscore (fun _ => false) "-foo-" "_bar_" H).
Defined.

Lemma validate_url_node_accepts_witness :
  RAGState.repo_url (url_state "https://github.com/foo/bar/tree/main")
    = Some ("https://github.com/" +:+ "foo" +:+ "/" +:+ "bar" +:+ "/tree/main")
  /\ segment "foo" /\ segment "bar" /\ trailing "/tree/main"
  /\ validate_url_node (url_state "https://github.com/foo/bar/tree/main")
     = inr (url_accepted "foo" "bar").
Proof.
  assert (H1 : RAGState.repo_url (url_state "https://github.com/foo/bar/tree/main")
               = Some ("https://github.com/" +:+ "foo" +:+ "/" +:+ "bar"
                       +:+ "/tree/main")) by reflexivity.
  assert (H2 : segment "foo") by (split; [discriminate | reflexivity]).
  assert (H3 : segment "bar") by (split; [discriminate | reflexivity]).
  assert (H4 : trailing "/tree/main") by (right; reflexivity).
  split; [exact H1|]. split; [exact H2|]. split; [exact H3|]. split; [exact H4|].
  exact (validate_url_node_accepts (url_state "https://github.com/foo/bar/tree/main")
           "foo" "bar" "/tree/main" H1 H2 H3 H4).
Defined.

Lemma validate_url_node_accepted_shape_witness :
  RAGState.repo_url (url_state "https://github.com/foo/bar.git")
    = Some "https://github.com/foo/bar.git"
  /\ validate_url_node (url_state "https://github.com/foo/bar.git")
     = inr (url_accepted "foo" "bar.git")
  /\ exists c rest,
      c <> Py.nl /\ segment "foo" /\ segment "bar.git" /\ trailing rest
      /\ "https://github.com/foo/bar.git"
         = "https://github" +:+ String c ("com/" +:+ "foo" +:+ "/" +:+ "bar.git" +:+ rest).
Proof.
  assert (H1 : RAGState.repo_url (url_state "https://github.com/foo/bar.git")
               = Some "https://github.com/foo/bar.git") by reflexivity.
  assert (H2 : validate_url_node (url_state "https://github.com/foo/bar.git")
               = inr (url_accepted "foo" "bar.git")) by reflexivity.
  split; [exact H1|]. split; [exact H2|].
  exact (validate_url_node_accepted_shape
           (url_state "https://github.com/foo/bar.git")
           "https://github.com/foo/bar.git" "foo" "bar.git" H1 H2).
Defined.
